(** * Stream session coordinator: RTMP ingest, recording and real-time fan-out

    A shallow embedding of the JavaScript services of the repository:

    - [Recording]  services/recordingService.js  (RecordingService)
    - [Rtmp]       services/rtmpServer.js        (RTMPServer; the file is
                                                  stored behind routes/streamRoutes.js)
    - [Ws]         services/webSocketServer.js   (WebSocketServer)

    JavaScript [Map]s are finite maps ([gmap]), [Set]s are finite sets
    ([gset]).  Handlers are state transformers: they take the state of the
    service and return the new state together with what they emitted and
    what they answered.  A thrown [Error] is a value [Throw msg] carrying
    the message of the error; the state reached when the error was thrown
    is kept, as JavaScript does not undo mutations.  A handler is
    modelled as one run to its end, and the traces below handle one event
    after the other; the one run that is cut at an [await] is the join
    of a socket that disconnects meanwhile ([handleJoinStream_closed]).
    The clock ([Date.now()], [new Date()]) is an argument [now] of the
    handler, read once.

    What the libraries do is taken from their behaviour where the code
    depends on it: a mongoose document has the paths of its schema (the
    stream schema has no [isLive]), a populated document has the fields
    that were asked for, and fluent-ffmpeg sets [ffmpegProc] of a command
    when it has spawned the process.

    Of the RTMP server the embedding has the authentication functions,
    [endStream], [stop], [updateViewerCount] and the first handlers of
    ['prePublish'] and ['donePublish'], with ['prePlay'] and the second
    handler of ['doneConnect'].  The second handlers of ['prePublish'] and
    ['donePublish'], which fill and empty [activeStreams], and
    ['postPublish'] are left out: nothing below depends on who put a stream
    into [activeStreams], and what is said of a ['donePublish'] is said of
    a server that has no active stream.  The errors of the code are plain [Error]s told
    apart by their message; the statements name the messages. *)

From Stdlib Require Import ZArith NArith List Ascii String.
From stdpp Require Import gmap strings list fin_maps pretty.

Local Open Scope Z_scope.
#[local] Set Warnings "-clear-no-such-hyp".

(** ** Documents of the two collections (models/User.js, models/Stream.js) *)

(** [role: { enum: ['user', 'streamer', 'admin'] }] *)
Inductive role := RoleUser | RoleStreamer | RoleAdmin.

Global Instance role_eq_dec : EqDecision role.
Proof. solve_decision. Defined.

Record user := mkUser {
  user_id : string;              (* _id *)
  username : string;
  user_role : role;              (* role *)
  profilePicture : string;
  user_streamKey : string;       (* streamKey *)
  followers : list string        (* ids of the followers *)
}.

(** The paths of the stream schema that the services read or write. *)
Record stream_doc := mkStream {
  stream_id : string;            (* _id *)
  stream_user : string;          (* user: id of the owner *)
  title : string;
  stream_streamKey : string;     (* streamKey *)
  isPrivate : bool;
  startedAt : Z;
  endedAt : option Z
}.

(** [stream.isLive], read on a document that a query or [new Stream] gave.
    The schema of models/Stream.js has no path [isLive] (it keeps the
    state of a stream in [status]), so no document of the collection has
    the property: [new Stream({ ..., isLive: false })] drops it, [save()]
    does not store it, and it reads [undefined], which is falsy. *)
Definition isLive (stream : stream_doc) : bool := false.

(** [stream.user.followers], read on the owner that
    [populate('user', 'username profilePicture')] put into a stream
    document: [followers] is not among the populated fields, so it reads
    [undefined]. *)
Definition populated_followers (owner : user) : option (list string) := None.

(** A thrown [Error]: its message. *)
Inductive result (A : Type) :=
| Ok (a : A)
| Throw (message : string).
Arguments Ok {A} a.
Arguments Throw {A} message.

Global Instance result_fmap : FMap result :=
  λ A B f r, match r with Ok a => Ok (f a) | Throw message => Throw message end.

(** ** JavaScript strings as sequences of UTF-16 code units *)
Module Js.

Definition jsstring := list N.

(** WhiteSpace and LineTerminator code points of ECMAScript, the
    characters [String.prototype.trim] strips. *)
Definition is_white_space (c : N) : bool :=
  ((c =? 9) || (c =? 10) || (c =? 11) || (c =? 12) || (c =? 13) ||
   (c =? 32) || (c =? 160) || (c =? 5760) ||
   ((8192 <=? c) && (c <=? 8202)) ||
   (c =? 8232) || (c =? 8233) || (c =? 8239) || (c =? 8287) ||
   (c =? 12288) || (c =? 65279))%N.

Fixpoint trimStart (s : jsstring) : jsstring :=
  match s with
  | c :: s' => if is_white_space c then trimStart s' else s
  | [] => []
  end.

Definition trimEnd (s : jsstring) : jsstring := rev (trimStart (rev s)).

Definition trim (s : jsstring) : jsstring := trimEnd (trimStart s).

(** Truthiness of a string: only the empty string is falsy. *)
Definition truthy (s : jsstring) : bool :=
  match s with [] => false | _ => true end.

(** "empty or whitespace-only" *)
Definition blank (s : jsstring) : bool := forallb is_white_space s.

(** The code units of an ASCII literal. *)
Fixpoint of_string (s : string) : jsstring :=
  match s with
  | EmptyString => []
  | String a s' => Ascii.N_of_ascii a :: of_string s'
  end.

End Js.

(** ** services/recordingService.js *)
Module Recording.

(** The ffmpeg command a recording holds: its input, its output, and
    whether [command.ffmpegProc] is set.  fluent-ffmpeg sets it when it
    has spawned the ffmpeg process, which is some time after [.save()] has
    returned; until then it is [undefined]. *)
Record command := mkCommand {
  cmd_input : string;
  cmd_output : string;
  ffmpegProc : bool
}.

(** The command before and after its process was spawned. *)
Definition unspawned (c : command) : command := mkCommand (cmd_input c) (cmd_output c) false.
Definition with_proc (c : command) : command := mkCommand (cmd_input c) (cmd_output c) true.

Record recording := mkRecording {
  rec_id : string;
  rec_streamKey : string;
  rec_userId : string;
  rec_filename : string;
  rec_path : string;
  rec_startTime : Z;
  rec_command : command
}.

Record state := mkState {
  recordings : gmap string recording;   (* this.recordings: streamKey -> info *)
  started : list command;               (* ffmpeg commands started with .save(), oldest first *)
  quit : list command                   (* commands whose process was sent 'q' on stdin *)
}.

Definition init : state := mkState ∅ [] [].

(** [startRecording(streamKey, userId)].  [recordingId] is the value of
    [uuidv4()], [timestamp] the ISO date with [:] and [.] replaced, [now]
    the value of [new Date()]; paths are relative to [__dirname]. *)
Definition startRecording (recordingId timestamp : string) (now : Z)
    (streamKey userId : string) (st : state) : bool * state :=
  if decide (is_Some (recordings st !! streamKey)) then
    (false, st)
  else
    let filename := userId +:+ "_" +:+ timestamp +:+ "_" +:+ recordingId +:+ ".mp4" in
    let outputPath := "../recordings/videos/" +:+ filename in
    let inputUrl := "rtmp://localhost/live/" +:+ streamKey in
    let command := mkCommand inputUrl outputPath false in
    (true,
     mkState
       (<[streamKey := mkRecording recordingId streamKey userId filename
                         outputPath now command]> (recordings st))
       (started st ++ [command])
       (quit st)).

(** [stopRecording(streamKey)].  [recording.command.ffmpegProc.stdin] is
    read before the entry is deleted: while the process of the command has
    not been spawned, [ffmpegProc] is [undefined], the read throws a
    [TypeError] and the entry stays. *)
Definition stopRecording (streamKey : string) (st : state) : result bool * state :=
  match recordings st !! streamKey with
  | None => (Ok false, st)
  | Some recording =>
      if ffmpegProc (rec_command recording)
      then
        (Ok true,
         mkState (delete streamKey (recordings st)) (started st)
                 (quit st ++ [rec_command recording]))
      else (Throw "Cannot read properties of undefined (reading 'stdin')", st)
  end.

(** The events of a command that [startRecording] started for
    [streamKey].  The callbacks are closed over the stream key, not over
    the command: they work on the recording the table has under the key
    when the event comes. *)

(** fluent-ffmpeg has spawned the process of the command that the
    recording of [streamKey] holds: it sets [command.ffmpegProc] and emits
    ['start'], whose callback only logs. *)
Definition on_start (streamKey : string) (st : state) : state :=
  match recordings st !! streamKey with
  | None => st
  | Some recording =>
      let recording' :=
        mkRecording (rec_id recording) (rec_streamKey recording) (rec_userId recording)
          (rec_filename recording) (rec_path recording) (rec_startTime recording)
          (with_proc (rec_command recording)) in
      mkState (<[streamKey := recording']> (recordings st)) (started st) (quit st)
  end.

(** The callback of ['error']: [this.stopRecording(streamKey)]; what the
    call throws goes to the emitter of the event. *)
Definition on_error (streamKey : string) (st : state) : state :=
  (stopRecording streamKey st).2.

(** The callback of ['end']: [this.recordings.delete(streamKey)];
    [generateThumbnail] works on the files only. *)
Definition on_end (streamKey : string) (st : state) : state :=
  mkState (delete streamKey (recordings st)) (started st) (quit st).

(** [getRecordingInfo(streamKey)] *)
Definition getRecordingInfo (streamKey : string) (st : state) : option recording :=
  recordings st !! streamKey.

End Recording.

(** ** services/rtmpServer.js *)
Module Rtmp.

(** The arguments of an RTMP connection that the handlers read:
    [args.token] and [args.headers.token]. *)
Record args := mkArgs {
  arg_token : option string;
  arg_headers_token : option string
}.

Inductive session_type := Play | Publish.

Global Instance session_type_eq_dec : EqDecision session_type.
Proof. solve_decision. Defined.

(** An entry of [streamSessions].  The handlers store objects of two
    shapes in the same map; a field that an object does not have is [None]. *)
Record session := mkSession {
  sess_type : option session_type;     (* type *)
  sess_id : option string;             (* id *)
  sess_streamId : option string;       (* streamId *)
  sess_streamKey : option string;      (* streamKey *)
  sess_userId : string;                (* userId *)
  sess_userRole : option role;         (* userRole *)
  sess_startTime : Z;                  (* startTime *)
  sess_args : option args              (* args *)
}.

(** An entry of [activeStreams]. *)
Record stream_data := mkStreamData {
  sd_id : string;
  sd_streamKey : string;
  sd_userId : string;
  sd_userRole : option role;
  sd_path : string;
  sd_startTime : Z;
  viewers : Z;
  sd_title : string;
  sd_isPrivate : bool
}.

(** What [this.io.emit] sent. *)
Inductive event :=
| StreamEnded (streamId : string) (ended : Z) (duration : Z)   (* 'stream-ended' *)
| ViewerCountUpdate (streamKey : string) (count : Z).         (* 'viewer-count-update' *)

Record state := mkState {
  users : gmap string user;                 (* the User collection, by _id *)
  streams : gmap string stream_doc;         (* the Stream collection, by its unique streamKey *)
  io : bool;                                (* whether the server was given an io *)
  streamSessions : gmap string session;
  activeStreams : gmap string stream_data;
  emitted : list event;                     (* oldest first *)
  rejected : list string                    (* ids of the connections rejected with session.reject() *)
}.

Definition set_streams (f : gmap string stream_doc → gmap string stream_doc) (st : state) : state :=
  mkState (users st) (f (streams st)) (io st) (streamSessions st) (activeStreams st)
          (emitted st) (rejected st).

Definition set_streamSessions (f : gmap string session → gmap string session) (st : state) : state :=
  mkState (users st) (streams st) (io st) (f (streamSessions st)) (activeStreams st)
          (emitted st) (rejected st).

Definition set_activeStreams (f : gmap string stream_data → gmap string stream_data) (st : state) : state :=
  mkState (users st) (streams st) (io st) (streamSessions st) (f (activeStreams st))
          (emitted st) (rejected st).

Definition add_emitted (e : event) (st : state) : state :=
  mkState (users st) (streams st) (io st) (streamSessions st) (activeStreams st)
          (emitted st ++ [e]) (rejected st).

Definition add_rejected (id : string) (st : state) : state :=
  mkState (users st) (streams st) (io st) (streamSessions st) (activeStreams st)
          (emitted st) (rejected st ++ [id]).

(** *** Computations that read and write the state and may throw *)

Definition M (A : Type) : Type := state → result A * state.

Definition ret {A} (a : A) : M A := λ st, (Ok a, st).

Definition throw {A} (message : string) : M A := λ st, (Throw message, st).

Definition bind {A B} (m : M A) (k : A → M B) : M B :=
  λ st, match m st with
        | (Ok a, st') => k a st'
        | (Throw e, st') => (Throw e, st')
        end.

Definition gets {A} (f : state → A) : M A := λ st, (Ok (f st), st).

Definition modify (f : state → state) : M unit := λ st, (Ok tt, f st).

(** [try { m } catch (error) { h error }] *)
Definition try_catch {A} (m : M A) (h : string → M A) : M A :=
  λ st, match m st with
        | (Ok a, st') => (Ok a, st')
        | (Throw e, st') => h e st'
        end.

(** [try { m } finally { f }], for an [f] that does not throw. *)
Definition try_finally {A} (m : M A) (f : state → state) : M A :=
  λ st, let '(r, st') := m st in (r, f st').

(** A throwing pure step, such as [jwt.verify]. *)
Definition lift {A} (r : result A) : M A := λ st, (r, st).

Notation "'let*' x ':=' m 'in' k" := (bind m (λ x, k))
  (at level 10, x pattern, m at level 100, k at level 200).
Notation "m ';;' k" := (bind m (λ _, k))
  (at level 100, k at level 200, right associativity).

(** *** Helpers *)

(** Truthiness of a value that is a string or [undefined]. *)
Definition truthy (o : option string) : bool :=
  match o with
  | Some s => bool_decide (s ≠ "")
  | None => false
  end.

(** [a || b] on such values. *)
Definition or_else (a b : option string) : option string :=
  if truthy a then a else b.

Fixpoint last_part (s acc : string) : string :=
  match s with
  | EmptyString => acc
  | String c s' =>
      if decide (c = "/"%char) then last_part s' "" else last_part s' (acc +:+ String c "")
  end.

(** [extractStreamKey(streamPath)]: the last part of [streamPath.split('/')]. *)
Definition extractStreamKey (streamPath : string) : string := last_part streamPath "".

(** [if (!token)]: the token when it is truthy. *)
Definition as_truthy (o : option string) : option string :=
  if truthy o then o else None.

Section Handlers.

(** [jwt.verify(token, config.auth.secret)]: the [id] of the decoded
    payload, or the error it throws. *)
Variable jwt_verify : string → result string.

(** [authenticateUser(args)] *)
Definition authenticateUser (a : args) : M (option user) :=
  try_catch
    (match as_truthy (or_else (arg_token a) (arg_headers_token a)) with
     | None => ret None
     | Some token =>
         let* id := lift (jwt_verify token) in
         gets (λ st, users st !! id)
     end)
    (λ _, ret None).

(** [updateViewerCount(streamKey, delta)] *)
Definition updateViewerCount (streamKey : string) (delta : Z) : M Z :=
  let* found := gets (λ st, activeStreams st !! streamKey) in
  match found with
  | Some stream =>
      let count := Z.max 0 (viewers stream + delta) in
      let stream' :=
        mkStreamData (sd_id stream) (sd_streamKey stream) (sd_userId stream)
          (sd_userRole stream) (sd_path stream) (sd_startTime stream) count
          (sd_title stream) (sd_isPrivate stream) in
      modify (set_activeStreams (insert streamKey stream')) ;;
      let* has_io := gets io in
      if has_io then
        modify (add_emitted (ViewerCountUpdate streamKey count)) ;;
        ret count
      else throw "Cannot read properties of undefined (reading 'emit')"
  | None => ret 0
  end.

(** [authenticatePlay(id, StreamPath, args)] *)
Definition authenticatePlay (now : Z) (id StreamPath : string) (a : args) : M bool :=
  let streamKey := extractStreamKey StreamPath in
  let* session := gets (λ st, streamSessions st !! id) in
  try_catch
    (let* stream := gets (λ st, activeStreams st !! streamKey) in
     match stream with
     | None => ret false
     | Some _ =>
         let* found := authenticateUser a in
         match found with
         | None => ret false
         | Some u =>
             modify (set_streamSessions (insert id
               (mkSession (Some Play) (session ≫= sess_id) (session ≫= sess_streamId)
                  (Some streamKey) (user_id u) (Some (user_role u)) now
                  (session ≫= sess_args)))) ;;
             updateViewerCount streamKey 1 ;;
             ret true
         end
     end)
    (λ _, ret false).

(** [authenticatePublish(id, StreamPath, args)] *)
Definition authenticatePublish (now : Z) (id StreamPath : string) (a : args) : M bool :=
  let streamKey := extractStreamKey StreamPath in
  try_catch
    (let* found := authenticateUser a in
     match found with
     | None => ret false
     | Some u =>
         if bool_decide (user_role u ≠ RoleStreamer) && bool_decide (user_role u ≠ RoleAdmin)
         then ret false
         else if bool_decide (user_streamKey u ≠ streamKey)
         then ret false
         else
           modify (set_streamSessions (insert id
             (mkSession (Some Publish) None None (Some streamKey) (user_id u)
                (Some (user_role u)) now None))) ;;
           ret true
     end)
    (λ _, ret false).

(** [authenticatePublisher(streamKey, token)].  [newId] is the [_id] given
    to the stream document created at a first publish. *)
Definition authenticatePublisher (now : Z) (newId : string)
    (streamKey : string) (token : option string) : M (user * stream_doc) :=
  try_catch
    (match as_truthy token with
     | None => throw "No token provided"
     | Some token =>
         let* id := lift (jwt_verify token) in
         let* found := gets (λ st, users st !! id) in
         let* stream := gets (λ st, streams st !! streamKey) in
         match found with
         | None => throw "User not found"
         | Some u =>
             match stream with
             | None =>
                 let newStream :=
                   mkStream newId (user_id u) ("Stream " +:+ pretty now) streamKey
                            false now None in
                 modify (set_streams (insert streamKey newStream)) ;;
                 ret (u, newStream)
             | Some stream =>
                 if bool_decide (stream_user stream ≠ user_id u)
                    && bool_decide (user_role u ≠ RoleAdmin)
                 then throw "Unauthorized to stream to this channel"
                 else ret (u, stream)
             end
         end
     end)
    (λ error, throw error).

(** [authenticateViewer(streamKey, token)].  The stream is read with its
    owner populated with [username] and [profilePicture]; an owner that
    is not in the collection is [null].  [isFollower] is computed before
    the test, so [stream.user.followers.includes] is called for every
    viewer that got this far, and throws a [TypeError] when [followers]
    is [undefined]. *)
Definition authenticateViewer (streamKey : string) (token : option string)
    : M (option user * stream_doc) :=
  try_catch
    (let* found := gets (λ st, streams st !! streamKey) in
     match found with
     | None => throw "Stream not found"
     | Some stream =>
         if negb (isPrivate stream) then ret (None, stream)
         else
           match as_truthy token with
           | None => throw "Authentication required for private stream"
           | Some token =>
               let* id := lift (jwt_verify token) in
               let* viewer := gets (λ st, users st !! id) in
               match viewer with
               | None => throw "User not found"
               | Some u =>
                   let* owner := gets (λ st, users st !! stream_user stream) in
                   match owner with
                   | None => throw "Cannot read properties of null (reading '_id')"
                   | Some owner =>
                       let isOwner := bool_decide (user_id owner = user_id u) in
                       let isAdmin := bool_decide (user_role u = RoleAdmin) in
                       match populated_followers owner with
                       | None =>
                           throw "Cannot read properties of undefined (reading 'includes')"
                       | Some followers =>
                           let isFollower := bool_decide (user_id u ∈ followers) in
                           if negb isOwner && negb isAdmin && negb isFollower
                           then throw "Not authorized to view this private stream"
                           else ret (Some u, stream)
                       end
                   end
               end
           end
     end)
    (λ error, throw error).

(** What [endStream] returns: [{ success: true, streamId, duration, session }]. *)
Record ended := mkEnded {
  ended_streamId : string;
  ended_duration : Z;
  ended_session : option session
}.

(** [stream.isLive = false; stream.endedAt = new Date()].  The
    assignment to [isLive] makes a property of the document object in
    memory, which is no path of the schema and is not stored. *)
Definition end_doc (now : Z) (stream : stream_doc) : stream_doc :=
  mkStream (stream_id stream) (stream_user stream) (title stream)
           (stream_streamKey stream) (isPrivate stream) (startedAt stream) (Some now).

(** [stream.isLive = true; stream.startedAt = new Date()].  As in
    [end_doc], nothing reads the [isLive] of this object again, and
    [save()] does not store it. *)
Definition start_doc (now : Z) (stream : stream_doc) : stream_doc :=
  mkStream (stream_id stream) (stream_user stream) (title stream)
           (stream_streamKey stream) (isPrivate stream) now (endedAt stream).

(** [stream.save()]: the paths of the document replace the ones stored
    under its key. *)
Definition save (stream : stream_doc) : M unit :=
  modify (set_streams (insert (stream_streamKey stream) stream)).

(** [endStream(streamKey)].  The document is the one [Stream.findOne]
    gives, so the test reads an [isLive] that no document has. *)
Definition endStream (now : Z) (streamKey : string) : M ended :=
  try_catch
    (let* found := gets (λ st, streams st !! streamKey) in
     match found with
     | None => throw "Stream not found"
     | Some stream =>
         if negb (isLive stream) then throw "Stream is not live"
         else
           let stream := end_doc now stream in
           save stream ;;
           let* session := gets (λ st, streamSessions st !! streamKey) in
           modify (set_streamSessions (delete streamKey)) ;;
           let duration := (now - startedAt stream) `div` 1000 in
           let* has_io := gets io in
           (if has_io
            then modify (add_emitted (StreamEnded (stream_id stream) now duration))
            else ret tt) ;;
           ret (mkEnded (stream_id stream) duration session)
     end)
    (λ error, throw error).

(** The first handler of ['prePublish']; the connection [id] is the one
    the event came on, so [this.nms.getSession(id)] finds its session. *)
Definition prePublish (now : Z) (newId : string) (id StreamPath : string) (a : args) : M unit :=
  let streamKey := extractStreamKey StreamPath in
  let token := arg_token a in
  try_catch
    (let* found := authenticatePublisher now newId streamKey token in
     let '(u, stream) := found in
     modify (set_streamSessions (insert streamKey
       (mkSession None (Some id) (Some (stream_id stream)) None (user_id u) None now
          (Some a)))) ;;
     save (start_doc now stream))
    (λ _, modify (add_rejected id)).

(** The first handler of ['donePublish'] *)
Definition donePublish (now : Z) (id StreamPath : string) : M unit :=
  let streamKey := extractStreamKey StreamPath in
  let* session := gets (λ st, streamSessions st !! streamKey) in
  match session with
  | Some _ =>
      try_finally
        (try_catch (endStream now streamKey ;; ret tt) (λ _, ret tt))
        (set_streamSessions (delete streamKey))
  | None => ret tt
  end.

(** The handler of ['prePlay'] *)
Definition prePlay (id StreamPath : string) (a : args) : M unit :=
  let streamKey := extractStreamKey StreamPath in
  try_catch
    (authenticateViewer streamKey (arg_token a) ;; ret tt)
    (λ _, modify (add_rejected id)).

(** The second handler of ['doneConnect'] *)
Definition doneConnect (id : string) : M unit :=
  let* session := gets (λ st, streamSessions st !! id) in
  match session with
  | Some session =>
      (match sess_type session, as_truthy (sess_streamKey session) with
       | Some Play, Some streamKey => updateViewerCount streamKey (-1) ;; ret tt
       | _, _ => ret tt
       end) ;;
      modify (set_streamSessions (delete id))
  | None => ret tt
  end.

(** [getStreamInfo(streamKey)], the definition that the class ends up
    with (the second one). *)
Definition getStreamInfo (streamKey : string) (st : state) : option stream_data :=
  activeStreams st !! streamKey.

End Handlers.

End Rtmp.

(** ** services/webSocketServer.js *)
Module Ws.

(** What the server keeps of a socket.io socket: [socket.user], set by
    [authenticateSocket], and [socket.rooms], the rooms the socket has
    joined. *)
Record socket := mkSocket {
  sock_user : option user;
  sock_rooms : gset string
}.

(** A socket the server has not stored anything about yet. *)
Definition new_socket : socket := mkSocket None ∅.

Record state := mkState {
  sockets : gmap string socket;                 (* connected sockets by socket.id *)
  connectedUsers : gmap string (gset string);   (* userId -> Set(socketId) *)
  roomSubscribers : gmap string (gset string)   (* roomId -> Set(socketId) *)
}.

(** [new WebSocketServer(io, rtmpServer)] *)
Definition init : state := mkState ∅ ∅ ∅.

Definition the_socket (st : state) (sid : string) : socket :=
  default new_socket (sockets st !! sid).

(** [`stream:${streamId}`] *)
Definition roomName (streamId : string) : string := "stream:" +:+ streamId.

(** The members of a tracked room: [roomSubscribers.get(room)], the empty
    set when the table has no entry. *)
Definition members (st : state) (room : string) : gset string :=
  default ∅ (roomSubscribers st !! room).

(** [getViewerCount(streamId)] *)
Definition getViewerCount (st : state) (streamId : string) : nat :=
  match roomSubscribers st !! roomName streamId with
  | Some subscribers => size subscribers
  | None => 0%nat
  end.

(** *** Emission *)

Inductive target :=
| ToRoom (room : string)                       (* io.to(room).emit *)
| ToRoomExcept (room : string) (sid : string)  (* socket.to(room).emit *)
| ToSocket (sid : string)                      (* socket.emit *)
| ToAll.                                       (* io.emit *)

Record chat_message := mkChat {
  chat_userId : string;
  chat_username : string;
  chat_userRole : role;
  chat_avatar : string;
  chat_text : Js.jsstring;       (* message *)
  chat_timestamp : Z
}.

Inductive event :=
| ViewerCount (count : nat)                                      (* 'viewer-count' *)
| UserJoined (userId uname : string) (timestamp : Z)             (* 'user-joined' *)
| UserLeft (userId uname : string) (timestamp : Z)               (* 'user-left' *)
| StreamInfo (info : Rtmp.stream_data)                           (* 'stream-info' *)
| ChatMessage (m : chat_message)                                 (* 'chat-message' *)
| Reaction (userId uname reaction : string) (timestamp : Z).     (* 'reaction' *)

(** The sockets that are in a socket.io room. *)
Definition in_room (socks : gmap string socket) (room : string) : gset string :=
  dom (filter (λ p, room ∈ sock_rooms p.2) socks).

Definition recipients (socks : gmap string socket) (t : target) : gset string :=
  match t with
  | ToRoom room => in_room socks room
  | ToRoomExcept room sid => in_room socks room ∖ {[sid]}
  | ToSocket sid => {[sid]}
  | ToAll => dom socks
  end.

(** One [emit]: where it was sent, whom it reached, what it carried. *)
Record emission := mkEmission {
  em_target : target;
  em_to : gset string;
  em_event : event
}.

Definition emit (socks : gmap string socket) (t : target) (e : event) : emission :=
  mkEmission t (recipients socks t) e.

(** The answer of a handler: [{ success: true }],
    [{ success: true, message }] or [{ success: false, error }]. *)
Inductive response :=
| Success
| SuccessMessage (m : chat_message)
| Failure (error : string).

Definition set_sockets (f : gmap string socket → gmap string socket) (st : state) : state :=
  mkState (f (sockets st)) (connectedUsers st) (roomSubscribers st).

Definition set_connectedUsers (f : gmap string (gset string) → gmap string (gset string))
    (st : state) : state :=
  mkState (sockets st) (f (connectedUsers st)) (roomSubscribers st).

Definition set_roomSubscribers (f : gmap string (gset string) → gmap string (gset string))
    (st : state) : state :=
  mkState (sockets st) (connectedUsers st) (f (roomSubscribers st)).

(** [socket.join(room)] and [socket.leave(room)] *)
Definition join (room : string) (s : socket) : socket :=
  mkSocket (sock_user s) ({[room]} ∪ sock_rooms s).

Definition leave (room : string) (s : socket) : socket :=
  mkSocket (sock_user s) (sock_rooms s ∖ {[room]}).

(** What a handler gives back: the new state, what it emitted (oldest
    first) and its answer. *)
Definition outcome (A : Type) : Type := state * list emission * A.

Section Handlers.

(** [jwt.verify(token, config.auth.secret)]: the [id] of the payload. *)
Variable jwt_verify : string → result string.
(** [User.findById] and [Stream.findById] *)
Variable User_findById : string → option user.
Variable Stream_findById : string → option stream_doc.
(** The RTMP server the socket server was built with. *)
Variable rtmpServer : Rtmp.state.

(** [authenticateSocket(socket, token)] *)
Definition authenticateSocket (sid : string) (token : option string) (st : state)
    : state * result user :=
  match Rtmp.as_truthy token with
  | None => (st, Throw "Authentication failed")
  | Some token =>
      match jwt_verify token with
      | Throw _ => (st, Throw "Authentication failed")
      | Ok id =>
          match User_findById id with
          | None => (st, Throw "Authentication failed")
          | Some u =>
              let sock := mkSocket (Some u) (sock_rooms (the_socket st sid)) in
              let userSockets := default ∅ (connectedUsers st !! user_id u) in
              (set_connectedUsers (insert (user_id u) ({[sid]} ∪ userSockets))
                 (set_sockets (insert sid sock) st),
               Ok u)
          end
      end
  end.

(** [handleJoinStream(socket, streamId)] *)
Definition handleJoinStream (now : Z) (sid streamId : string) (st : state)
    : outcome response :=
  match sock_user (the_socket st sid) with
  | None => (st, [], Failure "Not authenticated")
  | Some u =>
      match Stream_findById streamId with
      | None => (st, [], Failure "Stream not found")
      | Some stream =>
          if isPrivate stream
             && bool_decide (stream_user stream ≠ user_id u)
             && bool_decide (user_role u ≠ RoleAdmin)
          then (st, [], Failure "Access to private stream denied")
          else
            let roomName := roomName streamId in
            let socks := <[sid := join roomName (the_socket st sid)]> (sockets st) in
            let subscribers := {[sid]} ∪ default ∅ (roomSubscribers st !! roomName) in
            let st' :=
              set_roomSubscribers (insert roomName subscribers)
                (set_sockets (λ _, socks) st) in
            let viewerCount := size subscribers in
            (st',
             [emit socks (ToRoomExcept roomName sid)
                   (UserJoined (user_id u) (username u) now)]
             ++ match Rtmp.getStreamInfo (stream_streamKey stream) rtmpServer with
                | Some streamInfo => [emit socks (ToSocket sid) (StreamInfo streamInfo)]
                | None => []
                end
             ++ [emit socks (ToRoom roomName) (ViewerCount viewerCount)],
             Success)
      end
  end.

(** [handleChatMessage(socket, { streamId, message })] *)
Definition handleChatMessage (now : Z) (sid streamId : string) (message : Js.jsstring)
    (st : state) : outcome response :=
  match sock_user (the_socket st sid) with
  | None => (st, [], Failure "Not authenticated")
  | Some u =>
      if negb (Js.truthy message) || negb (Js.truthy (Js.trim message))
      then (st, [], Failure "Message cannot be empty")
      else
        let roomName := roomName streamId in
        if negb (bool_decide (roomName ∈ sock_rooms (the_socket st sid)))
        then (st, [], Failure "Not in the stream room")
        else
          let chatMessage :=
            mkChat (user_id u) (username u) (user_role u) (profilePicture u)
                   (Js.trim message) now in
          (st, [emit (sockets st) (ToRoom roomName) (ChatMessage chatMessage)],
           SuccessMessage chatMessage)
  end.

(** [handleReaction(socket, { streamId, reaction })] *)
Definition handleReaction (now : Z) (sid streamId reaction : string) (st : state)
    : outcome response :=
  match sock_user (the_socket st sid) with
  | None => (st, [], Failure "Not authenticated")
  | Some u =>
      let roomName := roomName streamId in
      if negb (bool_decide (roomName ∈ sock_rooms (the_socket st sid)))
      then (st, [], Failure "Not in the stream room")
      else
        (st,
         [emit (sockets st) (ToRoomExcept roomName sid)
               (Reaction (user_id u) (username u) reaction now)],
         Success)
  end.

(** The body of the [roomSubscribers.forEach] of [handleDisconnect], on
    one entry of the table; [acc] is the table and what was emitted so far. *)
Definition disconnect_room (now : Z) (u : user) (sid : string) (socks : gmap string socket)
    (roomName : string) (subscribers : gset string)
    (acc : gmap string (gset string) * list emission)
    : gmap string (gset string) * list emission :=
  if decide (sid ∈ subscribers) then
    let subscribers := subscribers ∖ {[sid]} in
    let viewerCount := size subscribers in
    let out :=
      acc.2 ++ [emit socks (ToRoom roomName) (ViewerCount viewerCount);
                emit socks (ToRoom roomName) (UserLeft (user_id u) (username u) now)] in
    if decide (size subscribers = 0%nat)
    then (delete roomName acc.1, out)
    else (<[roomName := subscribers]> acc.1, out)
  else acc.

(** [handleDisconnect(socket)].  [sock] is the socket that went away; it
    is no longer among the connected sockets.  The rooms of the table are
    visited once each; the model does not fix in which order. *)
Definition handleDisconnect (now : Z) (sock : socket) (sid : string) (st : state)
    : state * list emission :=
  match sock_user sock with
  | Some u =>
      let userId := user_id u in
      let users :=
        match connectedUsers st !! userId with
        | Some userSockets =>
            let userSockets := userSockets ∖ {[sid]} in
            if decide (size userSockets = 0%nat)
            then delete userId (connectedUsers st)
            else <[userId := userSockets]> (connectedUsers st)
        | None => connectedUsers st
        end in
      let '(rooms, out) :=
        map_fold (disconnect_room now u sid (sockets st))
                 (roomSubscribers st, []) (roomSubscribers st) in
      (mkState (sockets st) users rooms, out)
  | None => (st, [])
  end.

(** The ['disconnect'] event: socket.io has taken the socket out of its
    rooms and out of the server before the handler runs. *)
Definition on_disconnect (now : Z) (sid : string) (st : state) : state * list emission :=
  handleDisconnect now (the_socket st sid) sid (set_sockets (delete sid) st).

(** The ['authenticate'] event *)
Definition on_authenticate (now : Z) (sid : string) (token : option string) (st : state)
    : outcome response :=
  match authenticateSocket sid token st with
  | (st', Ok _) => (st', [], Success)
  | (st', Throw error) =>
      let '(st'', out) := on_disconnect now sid st' in
      (st'', out, Failure error)
  end.

(** The ['leave-stream'] event *)
Definition on_leave_stream (sid streamId : string) (st : state) : state * list emission :=
  let roomName := roomName streamId in
  let socks := alter (leave roomName) sid (sockets st) in
  match roomSubscribers st !! roomName with
  | Some subscribers =>
      let subscribers := subscribers ∖ {[sid]} in
      let viewerCount := size subscribers in
      (mkState socks (connectedUsers st)
         (if decide (size subscribers = 0%nat)
          then delete roomName (roomSubscribers st)
          else <[roomName := subscribers]> (roomSubscribers st)),
       [emit socks (ToRoom roomName) (ViewerCount viewerCount)])
  | None => (mkState socks (connectedUsers st) (roomSubscribers st), [])
  end.

(** *** The events of the transport *)

Inductive request :=
| Authenticate (sid : string) (token : option string)
| JoinStream (sid streamId : string)
| LeaveStream (sid streamId : string)
| SendChat (sid streamId : string) (message : Js.jsstring)
| SendReaction (sid streamId reaction : string)
| Disconnect (sid : string).

Definition step (now : Z) (r : request) (st : state) : state * list emission :=
  match r with
  | Authenticate sid token => (on_authenticate now sid token st).1
  | JoinStream sid streamId => (handleJoinStream now sid streamId st).1
  | LeaveStream sid streamId => on_leave_stream sid streamId st
  | SendChat sid streamId message => (handleChatMessage now sid streamId message st).1
  | SendReaction sid streamId reaction => (handleReaction now sid streamId reaction st).1
  | Disconnect sid => on_disconnect now sid st
  end.

(** The requests of a trace, each with the time it is handled at. *)
Fixpoint run (trace : list (Z * request)) (st : state) : state :=
  match trace with
  | [] => st
  | (now, r) :: trace' => run trace' (step now r st).1
  end.

End Handlers.

End Ws.

(** ** Invariants and traces *)

(** Every stream of [activeStreams] has a viewer counter that is not negative. *)
Definition viewers_nonneg (st : Rtmp.state) : Prop :=
  ∀ streamKey stream,
    Rtmp.activeStreams st !! streamKey = Some stream → 0 ≤ Rtmp.viewers stream.

(** A sequence of [updateViewerCount(streamKey, delta)] calls; a call
    that throws leaves the state it reached. *)
Fixpoint updateViewerCounts (calls : list (string * Z)) (st : Rtmp.state) : Rtmp.state :=
  match calls with
  | [] => st
  | (streamKey, delta) :: calls' =>
      updateViewerCounts calls' (Rtmp.updateViewerCount streamKey delta st).2
  end.

(** Every room of the table has a member. *)
Definition rooms_nonempty (st : Ws.state) : Prop :=
  ∀ room subscribers, Ws.roomSubscribers st !! room = Some subscribers → subscribers ≠ ∅.

(** The table of the rooms and the rooms of socket.io agree: a socket is
    among the subscribers of a room exactly when it has joined the room. *)
Definition rooms_agree (st : Ws.state) : Prop :=
  ∀ room sid, sid ∈ Ws.members st room ↔ room ∈ Ws.sock_rooms (Ws.the_socket st sid).

(** A socket that has not authenticated has joined no room. *)
Definition rooms_authenticated (st : Ws.state) : Prop :=
  ∀ sid, Ws.sock_user (Ws.the_socket st sid) = None → Ws.sock_rooms (Ws.the_socket st sid) = ∅.

Definition ws_invariant (st : Ws.state) : Prop :=
  rooms_nonempty st ∧ rooms_agree st ∧ rooms_authenticated st.

(** The states the socket server gets into, from [Ws.init], by handling
    requests one after the other, each handler running to its end before
    the next event is handled; the collections, the tokens, the RTMP
    server and the clock may be different at every request.  A handler
    that is suspended at an [await] while another event is handled is not
    a step of this relation; [handleJoinStream_closed] below is the one
    such run the properties speak of. *)
Inductive reachable : Ws.state → Prop :=
| reachable_init : reachable Ws.init
| reachable_step jwt_verify User_findById Stream_findById rtmpServer now r st :
    reachable st →
    reachable (Ws.step jwt_verify User_findById Stream_findById rtmpServer now r st).1.

(** A ['viewer-count'] goes to a room and carries the number of members
    the table [st] has for that room. *)
Definition count_ok (st : Ws.state) (e : Ws.emission) : Prop :=
  match Ws.em_event e with
  | Ws.ViewerCount count =>
      ∃ room, Ws.em_target e = Ws.ToRoom room ∧ count = size (Ws.members st room)
  | _ => True
  end.

(** What [handleDisconnect] leaves of the subscribers of a room. *)
Definition disconnect_entry (sid : string) (subscribers : gset string)
    : option (gset string) :=
  if decide (sid ∈ subscribers) then
    if decide (size (subscribers ∖ {[sid]}) = 0%nat) then None
    else Some (subscribers ∖ {[sid]})
  else Some subscribers.

(** ** What the handlers leave behind *)

(** The session the first ['prePublish'] handler stores. *)
Definition publish_session (now : Z) (id : string) (a : Rtmp.args) (u : user)
    (stream : stream_doc) : Rtmp.session :=
  Rtmp.mkSession None (Some id) (Some (stream_id stream)) None (user_id u) None now (Some a).

(** What a join that is let in does. *)
Definition joined_state (sid streamId : string) (st : Ws.state) : Ws.state :=
  Ws.set_roomSubscribers
    (insert (Ws.roomName streamId) ({[sid]} ∪ Ws.members st (Ws.roomName streamId)))
    (Ws.set_sockets
       (λ _, <[sid := Ws.join (Ws.roomName streamId) (Ws.the_socket st sid)]> (Ws.sockets st))
       st).

(** The message a chat request is stamped into. *)
Definition stamped (now : Z) (u : user) (message : Js.jsstring) : Ws.chat_message :=
  Ws.mkChat (user_id u) (username u) (user_role u) (profilePicture u) (Js.trim message) now.

(** ** Example data *)

(** The state after a recording of ["K1"] was started for user ["u1"]. *)
Definition recording_K1 : Recording.state :=
  (Recording.startRecording "r-1" "2024-01-01T00-00-00-000Z" 1000 "K1" "u1"
     Recording.init).2.

Definition alice : user := mkUser "u1" "alice" RoleStreamer "alice.jpg" "K1" ["u2"].
Definition bob : user := mkUser "u2" "bob" RoleUser "bob.jpg" "K2" [].
Definition carol : user := mkUser "u3" "carol" RoleUser "carol.jpg" "K3" [].
Definition root : user := mkUser "u0" "root" RoleAdmin "root.jpg" "K0" [].

Definition example_users : gmap string user :=
  list_to_map [("u1", alice); ("u2", bob); ("u3", carol); ("u0", root)].

(** A token is the id of its user behind ["token-"]; anything else is
    malformed. *)
Definition example_jwt (token : string) : result string :=
  if decide (token = "token-u1") then Ok "u1"
  else if decide (token = "token-u2") then Ok "u2"
  else if decide (token = "token-u3") then Ok "u3"
  else if decide (token = "token-u0") then Ok "u0"
  else Throw "jwt malformed".

(** An RTMP server on which ["K1"] is being played by nobody. *)
Definition rtmp_active_K1 : Rtmp.state :=
  Rtmp.mkState example_users ∅ true ∅
    {[ "K1" := Rtmp.mkStreamData "a-1" "K1" "u1" (Some RoleStreamer) "/live/K1" 1000 0
                 "Untitled Stream" false ]}
    [] [].

(** An RTMP server that knows the users and the stream record of alice,
    to which nobody publishes. *)
Definition rtmp_idle : Rtmp.state :=
  Rtmp.mkState example_users
    {[ "K1" := mkStream "s1" "u1" "Morning show" "K1" false 0 None ]}
    true ∅ ∅ [] [].

(** alice publishes to ["K1"] on connection ["c1"] at time 1000. *)
Definition rtmp_published_K1 : Rtmp.state :=
  (Rtmp.prePublish example_jwt 1000 "s-new" "c1" "/live/K1"
     (Rtmp.mkArgs (Some "token-u1") None) rtmp_idle).2.

(** The record of alice's stream after that publish. *)
Definition published_doc : stream_doc := mkStream "s1" "u1" "Morning show" "K1" false 1000 None.

(** The stream records the socket server finds by id: stream ["s1"] of
    alice is public, her stream ["s2"] is private. *)
Definition example_streams : gmap string stream_doc :=
  list_to_map [("s1", mkStream "s1" "u1" "Morning show" "K1" false 1000 None);
               ("s2", mkStream "s2" "u1" "Members only" "K1-private" true 1000 None)].

Definition example_User_findById (id : string) : option user := example_users !! id.
Definition example_Stream_findById (id : string) : option stream_doc := example_streams !! id.

(** The socket server after the requests of a trace. *)
Definition ws_after (trace : list (Z * Ws.request)) : Ws.state :=
  Ws.run example_jwt example_User_findById example_Stream_findById rtmp_idle trace Ws.init.

(** alice, on socket ["A"], has authenticated and joined the room of ["s1"]. *)
Definition ws_alice_joined : Ws.state :=
  ws_after [(1, Ws.Authenticate "A" (Some "token-u1")); (2, Ws.JoinStream "A" "s1")].

(** alice on socket ["A"] and bob on socket ["B"] are in the room of
    ["s1"]; carol on socket ["C"] has authenticated only. *)
Definition ws_two_viewers : Ws.state :=
  ws_after [(1, Ws.Authenticate "A" (Some "token-u1")); (2, Ws.JoinStream "A" "s1");
            (3, Ws.Authenticate "B" (Some "token-u2")); (4, Ws.JoinStream "B" "s1");
            (5, Ws.Authenticate "C" (Some "token-u3"))].

(** An RTMP server that has the record of alice's private stream. *)
Definition rtmp_private : Rtmp.state :=
  Rtmp.mkState example_users
    {[ "K1-private" := mkStream "s2" "u1" "Members only" "K1-private" true 1000 None ]}
    true ∅ ∅ [] [].

(** ** Sequences of calls to the recording service *)

(** What happens to the service: the calls of its two methods and the
    events of the ffmpeg commands it started. *)
Inductive recording_call :=
| StartRecording (recordingId timestamp : string) (now : Z) (streamKey userId : string)
| StopRecording (streamKey : string)
| FfmpegStart (streamKey : string)
| FfmpegError (streamKey : string)
| FfmpegEnd (streamKey : string).

Definition recording_step (c : recording_call) (st : Recording.state) : Recording.state :=
  match c with
  | StartRecording recordingId timestamp now streamKey userId =>
      (Recording.startRecording recordingId timestamp now streamKey userId st).2
  | StopRecording streamKey => (Recording.stopRecording streamKey st).2
  | FfmpegStart streamKey => Recording.on_start streamKey st
  | FfmpegError streamKey => Recording.on_error streamKey st
  | FfmpegEnd streamKey => Recording.on_end streamKey st
  end.

Fixpoint recording_run (calls : list recording_call) (st : Recording.state) : Recording.state :=
  match calls with
  | [] => st
  | c :: calls' => recording_run calls' (recording_step c st)
  end.

(** Every recording of the table is stored under its own stream key,
    reads that key's RTMP url, and holds a command that was started; ['q']
    was sent only to commands that were started and whose process had been
    spawned; the recordings of the table and the commands sent ['q'] are
    together at most as many as the commands started. *)
Definition recordings_consistent (st : Recording.state) : Prop :=
  (∀ streamKey r,
     Recording.recordings st !! streamKey = Some r →
     Recording.rec_streamKey r = streamKey
     ∧ Recording.cmd_input (Recording.rec_command r) = "rtmp://localhost/live/" +:+ streamKey
     ∧ Recording.unspawned (Recording.rec_command r) ∈ Recording.started st)
  ∧ (∀ c, c ∈ Recording.quit st →
          Recording.ffmpegProc c = true ∧ Recording.unspawned c ∈ Recording.started st)
  ∧ (size (Recording.recordings st) + length (Recording.quit st)
     ≤ length (Recording.started st))%nat.

(** ** Stream paths *)

(** Whether a string has a ['/']. *)
Fixpoint has_slash (s : string) : bool :=
  match s with
  | EmptyString => false
  | String c s' => bool_decide (c = "/"%char) || has_slash s'
  end.

(** Whom [authenticateUser] finds: the user of the token, when the
    arguments carry a token that verifies. *)
Definition user_of_args (jwt_verify : string → result string) (a : Rtmp.args)
    (st : Rtmp.state) : option user :=
  match Rtmp.as_truthy (Rtmp.or_else (Rtmp.arg_token a) (Rtmp.arg_headers_token a)) with
  | None => None
  | Some token =>
      match jwt_verify token with
      | Ok id => Rtmp.users st !! id
      | Throw _ => None
      end
  end.

(** The session [authenticatePublish] stores. *)
Definition publisher_session (now : Z) (streamKey : string) (u : user) : Rtmp.session :=
  Rtmp.mkSession (Some Rtmp.Publish) None None (Some streamKey) (user_id u)
    (Some (user_role u)) now None.


(** An active stream with another count of viewers. *)
Definition with_viewers (count : Z) (stream : Rtmp.stream_data) : Rtmp.stream_data :=
  Rtmp.mkStreamData (Rtmp.sd_id stream) (Rtmp.sd_streamKey stream) (Rtmp.sd_userId stream)
    (Rtmp.sd_userRole stream) (Rtmp.sd_path stream) (Rtmp.sd_startTime stream) count
    (Rtmp.sd_title stream) (Rtmp.sd_isPrivate stream).

(** The state [updateViewerCount] leaves on a server that has an io. *)
Definition counted_state (streamKey : string) (delta : Z) (st : Rtmp.state) : Rtmp.state :=
  match Rtmp.activeStreams st !! streamKey with
  | Some stream =>
      let count := Z.max 0 (Rtmp.viewers stream + delta) in
      Rtmp.add_emitted (Rtmp.ViewerCountUpdate streamKey count)
        (Rtmp.set_activeStreams (insert streamKey (with_viewers count stream)) st)
  | None => st
  end.

(** The session [authenticatePlay] stores over the one the connection had. *)
Definition player_session (now : Z) (streamKey : string) (u : user)
    (old : option Rtmp.session) : Rtmp.session :=
  Rtmp.mkSession (Some Rtmp.Play) (old ≫= Rtmp.sess_id) (old ≫= Rtmp.sess_streamId)
    (Some streamKey) (user_id u) (Some (user_role u)) now (old ≫= Rtmp.sess_args).

(** ** Further invariants of the socket server *)

(** No user of [connectedUsers] has an empty set of sockets, and every
    connected socket that has authenticated is listed under its user. *)
Definition users_listed (st : Ws.state) : Prop :=
  (∀ userId userSockets,
     Ws.connectedUsers st !! userId = Some userSockets → userSockets ≠ ∅)
  ∧ (∀ sid sock u,
       Ws.sockets st !! sid = Some sock → Ws.sock_user sock = Some u →
       sid ∈ default ∅ (Ws.connectedUsers st !! user_id u)).

(** Whether [handleJoinStream] lets a socket into the room of a stream. *)
Definition let_in (Stream_findById : string → option stream_doc) (sid streamId : string)
    (st : Ws.state) : bool :=
  match Ws.sock_user (Ws.the_socket st sid), Stream_findById streamId with
  | Some u, Some stream =>
      negb (isPrivate stream
            && bool_decide (stream_user stream ≠ user_id u)
            && bool_decide (user_role u ≠ RoleAdmin))
  | _, _ => false
  end.

(** ** A join that resumes after its socket has gone *)

(** [handleJoinStream] is suspended at [await Stream.findById(streamId)],
    after it has seen [socket.user].  When the ['disconnect'] of the
    socket is handled in between, the rest of the handler runs on a
    socket that is closed.  The socket object still has its [user], here
    [u]; it is no longer among the connected sockets, so nothing that is
    emitted reaches it; and [roomSubscribers] gets its id all the same. *)
Definition handleJoinStream_closed (Stream_findById : string → option stream_doc)
    (rtmpServer : Rtmp.state) (now : Z) (sid streamId : string) (u : user) (st : Ws.state)
    : Ws.outcome Ws.response :=
  match Stream_findById streamId with
  | None => (st, [], Ws.Failure "Stream not found")
  | Some stream =>
      if isPrivate stream
         && bool_decide (stream_user stream ≠ user_id u)
         && bool_decide (user_role u ≠ RoleAdmin)
      then (st, [], Ws.Failure "Access to private stream denied")
      else
        let roomName := Ws.roomName streamId in
        let subscribers := {[sid]} ∪ default ∅ (Ws.roomSubscribers st !! roomName) in
        let st' := Ws.set_roomSubscribers (insert roomName subscribers) st in
        let viewerCount := size subscribers in
        (st',
         [Ws.emit (Ws.sockets st) (Ws.ToRoomExcept roomName sid)
                  (Ws.UserJoined (user_id u) (username u) now)]
         ++ match Rtmp.getStreamInfo (stream_streamKey stream) rtmpServer with
            | Some streamInfo =>
                [Ws.mkEmission (Ws.ToSocket sid) ∅ (Ws.StreamInfo streamInfo)]
            | None => []
            end
         ++ [Ws.emit (Ws.sockets st) (Ws.ToRoom roomName) (Ws.ViewerCount viewerCount)],
         Ws.Success)
  end.

(** ** models/Stream.js: the methods, the hook and the virtuals of the schema *)
Module StreamModel.

(** [status: { enum: ['starting', 'live', 'ended', 'error'] }] *)
Inductive status := Starting | Live | Ended | Error.

(** The fields of the schema that the methods, the save hook and the
    virtuals read or write.  A field that is not set is [None]. *)
Record doc := mkDoc {
  doc_status : status;
  doc_startedAt : option Z;
  doc_endedAt : option Z;
  duration : option Z;          (* in seconds *)
  viewers : Z;
  peakViewers : Z
}.

(** A document as the schema makes it at [now]: [status] ['starting'],
    [startedAt] the time, no viewers. *)
Definition new_doc (now : Z) : doc := mkDoc Starting (Some now) None None 0 0.

(** The hook [streamSchema.pre('save', ...)]: a [Date] is truthy, a field
    that is not set is not. *)
Definition preSave (d : doc) : doc :=
  match doc_endedAt d, doc_startedAt d with
  | Some ended, Some started =>
      mkDoc (doc_status d) (doc_startedAt d) (doc_endedAt d)
            (Some ((ended - started) `div` 1000)) (viewers d) (peakViewers d)
  | _, _ => d
  end.

(** [save()]: the hook runs, the document is stored. *)
Definition save (d : doc) : doc := preSave d.

(** [streamSchema.methods.endStream] *)
Definition endStream (now : Z) (d : doc) : doc :=
  save (mkDoc Ended (doc_startedAt d) (Some now) (duration d) (viewers d) (peakViewers d)).

(** [streamSchema.methods.updateViewerCount] *)
Definition updateViewerCount (count : Z) (d : doc) : doc :=
  let d := mkDoc (doc_status d) (doc_startedAt d) (doc_endedAt d) (duration d) count
                 (peakViewers d) in
  save (if bool_decide (peakViewers d < count)
        then mkDoc (doc_status d) (doc_startedAt d) (doc_endedAt d) (duration d) (viewers d)
                   count
        else d).

(** [s.padStart(n, c)] for a one-character [c]. *)
Fixpoint zeros (n : nat) (s : string) : string :=
  match n with
  | O => s
  | S n' => String "0"%char (zeros n' s)
  end.

Definition padStart2 (s : string) : string := zeros (2 - String.length s) s.

(** The virtual [durationFormatted].  [%] is the remainder that has the
    sign of the dividend, [Math.floor] of a quotient is the quotient
    rounded down, [toString] of a whole number is its decimal writing. *)
Definition durationFormatted (d : doc) : string :=
  match duration d with
  | None => "00:00"
  | Some 0 => "00:00"
  | Some duration =>
      let hours := duration `div` 3600 in
      let minutes := (duration `rem` 3600) `div` 60 in
      let seconds := duration `rem` 60 in
      padStart2 (pretty hours) +:+ ":" +:+ padStart2 (pretty minutes) +:+ ":"
      +:+ padStart2 (pretty seconds)
  end.

End StreamModel.

(** The counts a stream document is given, one after the other. *)
Fixpoint updateViewerCounts_doc (counts : list Z) (d : StreamModel.doc) : StreamModel.doc :=
  match counts with
  | [] => d
  | count :: counts' => updateViewerCounts_doc counts' (StreamModel.updateViewerCount count d)
  end.

(** The greatest of a number and the numbers of a list. *)
Definition greatest (start : Z) (counts : list Z) : Z := foldl Z.max start counts.

(** ** Stopping the RTMP server *)

(** [this.endStream(streamKey).catch(error => { logger.error(...) })] *)
Definition endStream_caught (now : Z) (streamKey : string) : Rtmp.M unit :=
  Rtmp.try_catch (Rtmp.bind (Rtmp.endStream now streamKey) (λ _, Rtmp.ret tt))
    (λ _, Rtmp.ret tt).

(** The calls of [endStream] that [stop] starts, one for each key of
    [streamSessions].  Each call would read the clock when it runs, at
    [clock streamKey]; the calls are run one after the other. *)
Fixpoint endStreams (clock : string → Z) (streamKeys : list string) : Rtmp.M unit :=
  match streamKeys with
  | [] => Rtmp.ret tt
  | streamKey :: rest =>
      Rtmp.bind (endStream_caught (clock streamKey) streamKey) (λ _, endStreams clock rest)
  end.

(** [stop()]; [this.nms.stop()] is the media server's own. *)
Definition stop (clock : string → Z) : Rtmp.M bool :=
  Rtmp.try_catch
    (Rtmp.bind (Rtmp.gets (λ st, (map_to_list (Rtmp.streamSessions st)).*1))
       (λ streamKeys,
          Rtmp.bind (endStreams clock streamKeys) (λ _, Rtmp.ret true)))
    (λ error, Rtmp.throw error).

(** A server with alice's publish on ["K1"], a record under ["K2"] that
    was ended over HTTP and still has a session, and the session of a
    viewer under the id of its connection. *)
Definition rtmp_three_sessions : Rtmp.state :=
  Rtmp.mkState example_users
    {[ "K1" := published_doc;
       "K2" := mkStream "s3" "u3" "Evening show" "K2" false 500 (Some 900) ]}
    true
    {[ "K1" := publish_session 1000 "c1" (Rtmp.mkArgs (Some "token-u1") None) alice
                 published_doc;
       "K2" := publish_session 500 "c2" (Rtmp.mkArgs (Some "token-u3") None) carol
                 (mkStream "s3" "u3" "Evening show" "K2" false 500 (Some 900));
       "c7" := player_session 1200 "K1" bob None ]}
    ∅ [] [].

(** ** controllers/streamController.js: reading a stream *)
Module Controller.

(** What the controller answers: [res.json({ success: true, stream })]
    with the populated owner, or [res.status(code).json({ success: false,
    message })]. *)
Inductive reply :=
| Json (stream : stream_doc) (owner : option user)
| Status (code : Z) (message : string).

Section Handlers.

Variable User_findById : string → option user.
Variable Stream_findById : string → option stream_doc.

(** [getStreamById(req, res)]: [req_user] is [req.user], its [id] and its
    [role], when the request came with one; [populate] leaves [null] for
    [stream.user] when the owner is not found, and [stream.user._id] then
    throws into the [catch]. *)
Definition getStreamById (req_user : option (string * role)) (id : string) : reply :=
  match Stream_findById id with
  | None => Status 404 "Stream not found"
  | Some stream =>
      let owner := User_findById (stream_user stream) in
      if isPrivate stream
      then
        match req_user with
        | None => Status 403 "This is a private stream"
        | Some (req_id, req_role) =>
            match owner with
            | None => Status 500 "Server error"
            | Some o =>
                if bool_decide (req_id ≠ user_id o) && bool_decide (req_role ≠ RoleAdmin)
                then Status 403 "This is a private stream"
                else Json stream owner
            end
        end
      else Json stream owner
  end.

End Handlers.

End Controller.

(** Whether the controller served the stream. *)
Definition served (r : Controller.reply) : bool :=
  match r with
  | Controller.Json _ _ => true
  | Controller.Status _ _ => false
  end.

(** Users are found under their own id. *)
Definition users_by_id (User_findById : string → option user) : Prop :=
  ∀ id u, User_findById id = Some u → user_id u = id.

(** * Properties of the recording service *)

(** C9.  Starting a recording tolerates a recording that is already
    running: for every stream key that has a recording in progress, a
    further [startRecording] returns [false] and leaves the whole state of
    the service, and so the entry of that key, as it was; no second ffmpeg
    command is started. *)
Theorem startRecording_already_running
    (recordingId timestamp : string) (now : Z) (streamKey userId : string)
    (st : Recording.state) :
  is_Some (Recording.recordings st !! streamKey) →
  Recording.startRecording recordingId timestamp now streamKey userId st = (false, st).
Proof.
  intros Hrunning. unfold Recording.startRecording.
  destruct (decide (is_Some (Recording.recordings st !! streamKey))) as [_|Hnot].
  - reflexivity.
  - contradiction.
Qed.

(** A first start on a key without recording stores the entry and starts
    one command. *)
Lemma startRecording_fresh
    (recordingId timestamp : string) (now : Z) (streamKey userId : string)
    (st : Recording.state) :
  Recording.recordings st !! streamKey = None →
  ∃ st', Recording.startRecording recordingId timestamp now streamKey userId st = (true, st')
         ∧ is_Some (Recording.recordings st' !! streamKey)
         ∧ length (Recording.started st') = S (length (Recording.started st)).
Proof.
  intros Hnone. unfold Recording.startRecording.
  destruct (decide (is_Some (Recording.recordings st !! streamKey))) as [[r Hr]|_].
  - congruence.
  - eexists. split; [reflexivity|]. cbn. split.
    + rewrite lookup_insert_eq. eauto.
    + rewrite length_app. cbn. lia.
Qed.

Lemma startRecording_already_running_witness :
  is_Some (Recording.recordings recording_K1 !! "K1") ∧
  Recording.startRecording "r-2" "2024-01-01T00-00-05-000Z" 6000 "K1" "u1" recording_K1
  = (false, recording_K1).
Proof.
  assert (H : is_Some (Recording.recordings recording_K1 !! "K1")).
  { exists (Recording.mkRecording "r-1" "K1" "u1"
              "u1_2024-01-01T00-00-00-000Z_r-1.mp4"
              "../recordings/videos/u1_2024-01-01T00-00-00-000Z_r-1.mp4" 1000
              (Recording.mkCommand "rtmp://localhost/live/K1"
                 "../recordings/videos/u1_2024-01-01T00-00-00-000Z_r-1.mp4" false)).
    vm_compute. reflexivity. }
  split; [exact H|].
  exact (startRecording_already_running "r-2" "2024-01-01T00-00-05-000Z" 6000 "K1" "u1"
           recording_K1 H).
Defined.

(** * Properties of the RTMP server *)

Lemma updateViewerCount_activeStreams (streamKey : string) (delta : Z) (st : Rtmp.state)
    (k : string) :
  Rtmp.activeStreams (Rtmp.updateViewerCount streamKey delta st).2 !! k =
  if decide (streamKey = k)
  then (λ stream,
          Rtmp.mkStreamData (Rtmp.sd_id stream) (Rtmp.sd_streamKey stream)
            (Rtmp.sd_userId stream) (Rtmp.sd_userRole stream) (Rtmp.sd_path stream)
            (Rtmp.sd_startTime stream) (Z.max 0 (Rtmp.viewers stream + delta))
            (Rtmp.sd_title stream) (Rtmp.sd_isPrivate stream))
       <$> Rtmp.activeStreams st !! k
  else Rtmp.activeStreams st !! k.
Proof.
  unfold Rtmp.updateViewerCount, Rtmp.bind, Rtmp.gets, Rtmp.modify, Rtmp.ret, Rtmp.throw.
  cbn. destruct (decide (streamKey = k)) as [->|Hne].
  - destruct (Rtmp.activeStreams st !! k) as [stream|] eqn:Hk; cbn.
    + destruct (Rtmp.io st); cbn; rewrite lookup_insert_eq; reflexivity.
    + exact Hk.
  - destruct (Rtmp.activeStreams st !! streamKey) as [stream|] eqn:Hk; cbn.
    + destruct (Rtmp.io st); cbn; rewrite lookup_insert_ne by done; reflexivity.
    + reflexivity.
Qed.

Lemma updateViewerCount_nonneg (streamKey : string) (delta : Z) (st : Rtmp.state) :
  viewers_nonneg st → viewers_nonneg (Rtmp.updateViewerCount streamKey delta st).2.
Proof.
  intros Hinv k stream. rewrite updateViewerCount_activeStreams.
  destruct (decide (streamKey = k)) as [->|Hne].
  - destruct (Rtmp.activeStreams st !! k) as [old|]; cbn; [|discriminate].
    intros [= <-]. cbn. lia.
  - apply Hinv.
Qed.

Lemma updateViewerCounts_nonneg (calls : list (string * Z)) (st : Rtmp.state) :
  viewers_nonneg st → viewers_nonneg (updateViewerCounts calls st).
Proof.
  revert st. induction calls as [|[streamKey delta] calls IH]; intros st Hinv; cbn.
  - exact Hinv.
  - apply IH, updateViewerCount_nonneg, Hinv.
Qed.

(** What [updateViewerCount] returns and stores on an active stream. *)
Lemma updateViewerCount_active (streamKey : string) (delta : Z) (st : Rtmp.state)
    (stream : Rtmp.stream_data) :
  Rtmp.activeStreams st !! streamKey = Some stream →
  Rtmp.io st = true →
  (Rtmp.updateViewerCount streamKey delta st).1 = Ok (Z.max 0 (Rtmp.viewers stream + delta)).
Proof.
  intros Hk Hio.
  unfold Rtmp.updateViewerCount, Rtmp.bind, Rtmp.gets, Rtmp.modify, Rtmp.ret. cbn.
  rewrite Hk. cbn. rewrite Hio. reflexivity.
Qed.

(** C10.  The viewer counter of the RTMP server never becomes negative:
    from a state whose counters are not negative, every sequence of
    [updateViewerCount(streamKey, delta)] calls leads to a state whose
    counters are not negative, and there a call with a [delta] that is not
    positive on a stream whose counter is 0 leaves the counter at 0. *)
Theorem updateViewerCount_never_negative (calls : list (string * Z)) (st : Rtmp.state) :
  viewers_nonneg st →
  let st' := updateViewerCounts calls st in
  viewers_nonneg st' ∧
  ∀ streamKey stream delta,
    Rtmp.activeStreams st' !! streamKey = Some stream →
    Rtmp.viewers stream = 0 → delta ≤ 0 →
    Rtmp.viewers <$> Rtmp.activeStreams (Rtmp.updateViewerCount streamKey delta st').2
                       !! streamKey = Some 0.
Proof.
  intros Hinv st'. split.
  - apply updateViewerCounts_nonneg, Hinv.
  - intros streamKey stream delta Hk Hzero Hdelta.
    rewrite updateViewerCount_activeStreams.
    destruct (decide (streamKey = streamKey)) as [_|]; [|done].
    rewrite Hk. cbn. f_equal. lia.
Qed.

Lemma viewers_nonneg_rtmp_active_K1 : viewers_nonneg rtmp_active_K1.
Proof.
  intros k stream Hk. unfold rtmp_active_K1 in Hk. cbn in Hk.
  apply lookup_singleton_Some in Hk as [_ <-]. cbn. lia.
Qed.

Lemma updateViewerCount_never_negative_witness :
  viewers_nonneg rtmp_active_K1 ∧
  let st' := updateViewerCounts [("K1", 1); ("K1", -1); ("K1", -1)] rtmp_active_K1 in
  viewers_nonneg st' ∧
  ∀ streamKey stream delta,
    Rtmp.activeStreams st' !! streamKey = Some stream →
    Rtmp.viewers stream = 0 → delta ≤ 0 →
    Rtmp.viewers <$> Rtmp.activeStreams (Rtmp.updateViewerCount streamKey delta st').2
                       !! streamKey = Some 0.
Proof.
  split.
  - exact viewers_nonneg_rtmp_active_K1.
  - exact (updateViewerCount_never_negative [("K1", 1); ("K1", -1); ("K1", -1)]
             rtmp_active_K1 viewers_nonneg_rtmp_active_K1).
Defined.

(** On the example, one viewer comes and two go: the counter ends at 0. *)
Example updateViewerCounts_K1 :
  Rtmp.viewers <$>
    Rtmp.activeStreams (updateViewerCounts [("K1", 1); ("K1", -1); ("K1", -1)] rtmp_active_K1)
      !! "K1" = Some 0.
Proof. vm_compute. reflexivity. Qed.

(** ** Authentication of a publisher *)

Lemma try_catch_rethrow {A} (m : Rtmp.M A) (st : Rtmp.state) :
  Rtmp.try_catch m (λ error, Rtmp.throw error) st = m st.
Proof.
  unfold Rtmp.try_catch, Rtmp.throw. destruct (m st) as [[a|e] st']; reflexivity.
Qed.

(** [authenticatePublisher], case by case. *)
Lemma authenticatePublisher_cases (jwt_verify : string → result string)
    (now : Z) (newId streamKey : string) (token : option string) (st : Rtmp.state) :
  Rtmp.authenticatePublisher jwt_verify now newId streamKey token st =
  match Rtmp.as_truthy token with
  | None => (Throw "No token provided", st)
  | Some token =>
      match jwt_verify token with
      | Throw error => (Throw error, st)
      | Ok id =>
          match Rtmp.users st !! id with
          | None => (Throw "User not found", st)
          | Some u =>
              match Rtmp.streams st !! streamKey with
              | None =>
                  let newStream :=
                    mkStream newId (user_id u) ("Stream " +:+ pretty now) streamKey
                             false now None in
                  (Ok (u, newStream), Rtmp.set_streams (insert streamKey newStream) st)
              | Some stream =>
                  if bool_decide (stream_user stream ≠ user_id u)
                     && bool_decide (user_role u ≠ RoleAdmin)
                  then (Throw "Unauthorized to stream to this channel", st)
                  else (Ok (u, stream), st)
              end
          end
      end
  end.
Proof.
  unfold Rtmp.authenticatePublisher. rewrite try_catch_rethrow.
  destruct (Rtmp.as_truthy token) as [t|]; [|reflexivity].
  unfold Rtmp.bind, Rtmp.lift, Rtmp.gets. cbn.
  destruct (jwt_verify t) as [id|error]; [|reflexivity]. cbn.
  destruct (Rtmp.users st !! id) as [u|]; [|reflexivity].
  destruct (Rtmp.streams st !! streamKey) as [stream|]; [|reflexivity].
  destruct (bool_decide (stream_user stream ≠ user_id u) && bool_decide (user_role u ≠ RoleAdmin));
    reflexivity.
Qed.

(** When [authenticatePublisher] throws it has changed nothing. *)
Lemma authenticatePublisher_throw_unchanged (jwt_verify : string → result string)
    (now : Z) (newId streamKey : string) (token : option string) (st st' : Rtmp.state)
    (error : string) :
  Rtmp.authenticatePublisher jwt_verify now newId streamKey token st = (Throw error, st') →
  st' = st.
Proof.
  rewrite authenticatePublisher_cases.
  repeat case_match; cbn; intros [= ]; congruence.
Qed.

(** [authenticatePublish] answers [true] exactly for a user found from the
    token whose role is streamer or admin and whose own stream key is the
    requested one. *)
Lemma authenticatePublish_true_iff (jwt_verify : string → result string)
    (now : Z) (id StreamPath : string) (a : Rtmp.args) (st : Rtmp.state) :
  (Rtmp.authenticatePublish jwt_verify now id StreamPath a st).1 = Ok true ↔
  ∃ u, (Rtmp.authenticateUser jwt_verify a st).1 = Ok (Some u)
       ∧ (user_role u = RoleStreamer ∨ user_role u = RoleAdmin)
       ∧ user_streamKey u = Rtmp.extractStreamKey StreamPath.
Proof.
  unfold Rtmp.authenticatePublish, Rtmp.try_catch, Rtmp.bind.
  destruct (Rtmp.authenticateUser jwt_verify a st) as [[[u|]|error] st1] eqn:Hu; cbn.
  - destruct (bool_decide (user_role u ≠ RoleStreamer) && bool_decide (user_role u ≠ RoleAdmin))
      eqn:Hrole; cbn.
    + apply andb_true_iff in Hrole as [H1%bool_decide_eq_true H2%bool_decide_eq_true].
      split; [discriminate|]. intros (u' & [= <-] & [?|?] & _); contradiction.
    + destruct (bool_decide (user_streamKey u ≠ Rtmp.extractStreamKey StreamPath)) eqn:Hkey; cbn.
      * apply bool_decide_eq_true in Hkey.
        split; [discriminate|]. intros (u' & [= <-] & _ & ?). contradiction.
      * apply bool_decide_eq_false in Hkey. apply dec_stable in Hkey.
        split; [intros _|reflexivity]. exists u. split; [reflexivity|]. split; [|exact Hkey].
        apply andb_false_iff in Hrole as [H%bool_decide_eq_false|H%bool_decide_eq_false];
          apply dec_stable in H; auto.
  - split; [discriminate|]. intros (u' & [=] & _).
  - split; [discriminate|]. intros (u' & [=] & _).
Qed.

(** C5.  The two publish authentications of the server, on the example
    users.  [authenticatePublish] refuses the admin [root] on the key
    ["K1"] of alice, which [authenticatePublisher] admits; and
    [authenticatePublisher] admits [carol], whose role is [user], on her
    key ["K3"], which [authenticatePublish] refuses. *)
Theorem publish_authentication_diverges :
  (Rtmp.authenticatePublish example_jwt 2000 "c9" "/live/K1"
     (Rtmp.mkArgs (Some "token-u0") None) rtmp_idle).1 = Ok false
  ∧ fst <$> (Rtmp.authenticatePublisher example_jwt 2000 "s-new" "K1"
               (Some "token-u0") rtmp_idle).1 = Ok root
  ∧ fst <$> (Rtmp.authenticatePublisher example_jwt 2000 "s-new" "K3"
               (Some "token-u3") rtmp_idle).1 = Ok carol
  ∧ (Rtmp.authenticatePublish example_jwt 2000 "c9" "/live/K3"
       (Rtmp.mkArgs (Some "token-u3") None) rtmp_idle).1 = Ok false.
Proof. repeat split; vm_compute; reflexivity. Qed.

(** ** Ending a stream *)

(** [endStream] never gets past its two tests: no document that
    [Stream.findOne] gives has an [isLive]. *)
Lemma endStream_throws (now : Z) (streamKey : string) (st : Rtmp.state) :
  Rtmp.endStream now streamKey st
  = (Throw (match Rtmp.streams st !! streamKey with
            | Some _ => "Stream is not live"
            | None => "Stream not found"
            end), st).
Proof.
  unfold Rtmp.endStream. rewrite try_catch_rethrow.
  unfold Rtmp.bind, Rtmp.gets. cbn.
  destruct (Rtmp.streams st !! streamKey) as [stream|]; reflexivity.
Qed.

(** The ['donePublish'] of a key that has a session removes the session
    and, as [endStream] has thrown, does nothing else; the handler itself
    never throws. *)
Lemma donePublish_session (now : Z) (id StreamPath : string) (st : Rtmp.state) :
  let streamKey := Rtmp.extractStreamKey StreamPath in
  is_Some (Rtmp.streamSessions st !! streamKey) →
  Rtmp.donePublish now id StreamPath st
  = (Ok (), Rtmp.set_streamSessions (delete streamKey) st).
Proof.
  intros streamKey [session Hsession].
  unfold Rtmp.donePublish. fold streamKey.
  unfold Rtmp.bind at 1. unfold Rtmp.gets at 1. rewrite Hsession.
  unfold Rtmp.try_finally, Rtmp.try_catch, Rtmp.bind.
  rewrite endStream_throws. reflexivity.
Qed.

(** A ['donePublish'] for a key without session does nothing. *)
Lemma donePublish_no_session (now : Z) (id StreamPath : string) (st : Rtmp.state) :
  Rtmp.streamSessions st !! Rtmp.extractStreamKey StreamPath = None →
  Rtmp.donePublish now id StreamPath st = (Ok (), st).
Proof.
  intros Hnone. unfold Rtmp.donePublish, Rtmp.bind, Rtmp.gets. rewrite Hnone. reflexivity.
Qed.

(** C3, as the code has it.  For a stream key whose record is ended, an
    end call is not a no-op that returns the [endedAt] of the record: it
    fails with "Stream is not live".  The failed call changes nothing
    and emits nothing, so the stored [endedAt] stays the one the record
    had, however often the call is repeated; and the handler of
    ['donePublish'] that calls [endStream] only removes the session of
    the key, so that a repeated notification is a silent no-op.  (The
    other handler of ['donePublish'] works on the keys of [activeStreams]
    only; the server here has none.) *)
Theorem endStream_twice (now1 now2 : Z) (streamKey : string) (stream : stream_doc)
    (ended : Z) (st : Rtmp.state) :
  Rtmp.streams st !! streamKey = Some stream →
  endedAt stream = Some ended →
  Rtmp.endStream now1 streamKey st = (Throw "Stream is not live", st)
  ∧ Rtmp.endStream now2 streamKey (Rtmp.endStream now1 streamKey st).2
    = (Throw "Stream is not live", st)
  ∧ endedAt <$> Rtmp.streams (Rtmp.endStream now1 streamKey st).2 !! streamKey
    = Some (Some ended)
  ∧ Rtmp.emitted (Rtmp.endStream now1 streamKey st).2 = Rtmp.emitted st
  ∧ (∀ id StreamPath,
       Rtmp.extractStreamKey StreamPath = streamKey →
       Rtmp.activeStreams st = ∅ →
       let st1 := (Rtmp.donePublish now1 id StreamPath st).2 in
       (Rtmp.donePublish now1 id StreamPath st).1 = Ok ()
       ∧ Rtmp.streamSessions st1 !! streamKey = None
       ∧ Rtmp.streams st1 = Rtmp.streams st
       ∧ Rtmp.emitted st1 = Rtmp.emitted st
       ∧ Rtmp.donePublish now2 id StreamPath st1 = (Ok (), st1)).
Proof.
  intros Hfound Hended.
  assert (Hthrows : ∀ now, Rtmp.endStream now streamKey st
                           = (Throw "Stream is not live", st)).
  { intros now. rewrite endStream_throws, Hfound. reflexivity. }
  rewrite !Hthrows. cbn [snd]. rewrite ?Hthrows, Hfound.
  split; [reflexivity|]. split; [reflexivity|].
  split; [cbn; rewrite Hended; reflexivity|].
  split; [reflexivity|].
  intros id StreamPath <- _. cbv zeta.
  destruct (Rtmp.streamSessions st !! Rtmp.extractStreamKey StreamPath) as [session|]
    eqn:Hsession.
  - assert (Hdone : Rtmp.donePublish now1 id StreamPath st
                    = (Ok (), Rtmp.set_streamSessions
                                (delete (Rtmp.extractStreamKey StreamPath)) st)).
    { apply donePublish_session. rewrite Hsession. eauto. }
    rewrite !Hdone. cbn [fst snd].
    split; [reflexivity|]. split; [apply lookup_delete_eq|].
    split; [reflexivity|]. split; [reflexivity|].
    apply donePublish_no_session. cbn. apply lookup_delete_eq.
  - assert (Hdone : Rtmp.donePublish now1 id StreamPath st = (Ok (), st))
      by (apply donePublish_no_session; exact Hsession).
    rewrite !Hdone. cbn [fst snd].
    split; [reflexivity|]. split; [exact Hsession|].
    split; [reflexivity|]. split; [reflexivity|]. exact Hdone.
Qed.

Lemma endStream_twice_witness :
  Rtmp.streams rtmp_three_sessions !! "K2"
  = Some (mkStream "s3" "u3" "Evening show" "K2" false 500 (Some 900))
  ∧ Rtmp.endStream 5000 "K2" rtmp_three_sessions
    = (Throw "Stream is not live", rtmp_three_sessions)
  ∧ endedAt <$> Rtmp.streams (Rtmp.endStream 5000 "K2" rtmp_three_sessions).2 !! "K2"
    = Some (Some 900)
  ∧ Rtmp.streamSessions (Rtmp.donePublish 5000 "c2" "/live/K2" rtmp_three_sessions).2 !! "K2"
    = None.
Proof.
  assert (Hfound : Rtmp.streams rtmp_three_sessions !! "K2"
                   = Some (mkStream "s3" "u3" "Evening show" "K2" false 500 (Some 900)))
    by (vm_compute; reflexivity).
  destruct (endStream_twice 5000 6000 "K2" _ 900 rtmp_three_sessions Hfound eq_refl)
    as (Hfirst & _ & Hended & _ & Hdone).
  split; [exact Hfound|]. split; [exact Hfirst|]. split; [exact Hended|].
  exact (proj1 (proj2 (Hdone "c2" "/live/K2" eq_refl eq_refl))).
Defined.

(** C3, as the claim states it, fails: the record of ["K2"] is ended, at
    900; an end call at 6000 does not return that time, it throws. *)
Lemma endStream_twice_counterexample :
  endedAt <$> Rtmp.streams rtmp_three_sessions !! "K2" = Some (Some 900)
  ∧ (Rtmp.endStream 6000 "K2" rtmp_three_sessions).1 = Throw "Stream is not live".
Proof. split; vm_compute; reflexivity. Qed.

(** ** A publish attempt on a key that has a session *)

Lemma prePublish_accepted (jwt_verify : string → result string)
    (now : Z) (newId id StreamPath : string) (a : Rtmp.args) (st st1 : Rtmp.state)
    (u : user) (stream : stream_doc) :
  let streamKey := Rtmp.extractStreamKey StreamPath in
  Rtmp.authenticatePublisher jwt_verify now newId streamKey (Rtmp.arg_token a) st
  = (Ok (u, stream), st1) →
  Rtmp.prePublish jwt_verify now newId id StreamPath a st =
  (Ok (),
   Rtmp.set_streams (insert (stream_streamKey stream) (Rtmp.start_doc now stream))
     (Rtmp.set_streamSessions (insert streamKey (publish_session now id a u stream)) st1)).
Proof.
  intros streamKey Hauth. unfold Rtmp.prePublish. fold streamKey.
  unfold Rtmp.try_catch, Rtmp.bind. rewrite Hauth. reflexivity.
Qed.

Lemma prePublish_rejected (jwt_verify : string → result string)
    (now : Z) (newId id StreamPath : string) (a : Rtmp.args) (st st1 : Rtmp.state)
    (error : string) :
  Rtmp.authenticatePublisher jwt_verify now newId (Rtmp.extractStreamKey StreamPath)
    (Rtmp.arg_token a) st = (Throw error, st1) →
  Rtmp.prePublish jwt_verify now newId id StreamPath a st = (Ok (), Rtmp.add_rejected id st).
Proof.
  intros Hauth. unfold Rtmp.prePublish, Rtmp.try_catch, Rtmp.bind. rewrite Hauth.
  apply authenticatePublisher_throw_unchanged in Hauth as ->. reflexivity.
Qed.

(** [authenticatePublisher] lets in the owner of the record of the key,
    and the admins, and changes nothing then. *)
Lemma authenticatePublisher_owner (jwt_verify : string → result string)
    (now : Z) (newId streamKey : string) (token : option string) (st : Rtmp.state)
    (t uid : string) (u : user) (stream : stream_doc) :
  Rtmp.as_truthy token = Some t →
  jwt_verify t = Ok uid →
  Rtmp.users st !! uid = Some u →
  Rtmp.streams st !! streamKey = Some stream →
  stream_user stream = user_id u ∨ user_role u = RoleAdmin →
  Rtmp.authenticatePublisher jwt_verify now newId streamKey token st = (Ok (u, stream), st).
Proof.
  intros Htoken Hjwt Huser Hstream Howner.
  rewrite authenticatePublisher_cases, Htoken, Hjwt, Huser, Hstream.
  destruct (bool_decide (stream_user stream ≠ user_id u) && bool_decide (user_role u ≠ RoleAdmin))
    eqn:Hguard; [|reflexivity].
  apply andb_true_iff in Hguard as [H1%bool_decide_eq_true H2%bool_decide_eq_true].
  destruct Howner; contradiction.
Qed.

(** C1, as the code has it.  A publish attempt on a stream key that
    already has a session is not refused for that reason.  When the token
    is that of a known user who owns the stream record or is an admin, the
    connection is not rejected, the session stored under the key is
    replaced by one for the new connection, and the stream record gets a
    new [startedAt].  The connection is rejected only when the
    authentication of the publisher throws, and then nothing else
    changes. *)
Theorem prePublish_existing_session (jwt_verify : string → result string)
    (now : Z) (newId id StreamPath : string) (a : Rtmp.args) (st : Rtmp.state) :
  let streamKey := Rtmp.extractStreamKey StreamPath in
  is_Some (Rtmp.streamSessions st !! streamKey) →
  (∀ token uid u stream,
     Rtmp.as_truthy (Rtmp.arg_token a) = Some token →
     jwt_verify token = Ok uid →
     Rtmp.users st !! uid = Some u →
     Rtmp.streams st !! streamKey = Some stream →
     stream_streamKey stream = streamKey →
     stream_user stream = user_id u ∨ user_role u = RoleAdmin →
     let st' := (Rtmp.prePublish jwt_verify now newId id StreamPath a st).2 in
     Rtmp.rejected st' = Rtmp.rejected st
     ∧ Rtmp.streamSessions st' !! streamKey = Some (publish_session now id a u stream)
     ∧ Rtmp.streams st' !! streamKey = Some (Rtmp.start_doc now stream))
  ∧ (∀ error st1,
       Rtmp.authenticatePublisher jwt_verify now newId streamKey (Rtmp.arg_token a) st
       = (Throw error, st1) →
       Rtmp.prePublish jwt_verify now newId id StreamPath a st
       = (Ok (), Rtmp.add_rejected id st)).
Proof.
  intros streamKey _. split.
  - intros token uid u stream Htoken Hjwt Huser Hstream Hkey Howner st'.
    pose proof (authenticatePublisher_owner jwt_verify now newId streamKey
                  (Rtmp.arg_token a) st token uid u stream Htoken Hjwt Huser Hstream Howner)
      as Hauth.
    subst st'. rewrite (prePublish_accepted _ _ _ _ _ _ _ _ _ _ Hauth). cbn.
    rewrite Hkey. fold streamKey. rewrite !lookup_insert_eq. done.
  - intros error st1 Hauth. eapply prePublish_rejected, Hauth.
Qed.

Lemma prePublish_existing_session_witness :
  is_Some (Rtmp.streamSessions rtmp_published_K1 !! "K1")
  ∧ let st' := (Rtmp.prePublish example_jwt 2000 "s-new" "c2" "/live/K1"
                  (Rtmp.mkArgs (Some "token-u1") None) rtmp_published_K1).2 in
    Rtmp.rejected st' = []
    ∧ Rtmp.streamSessions st' !! "K1"
      = Some (publish_session 2000 "c2" (Rtmp.mkArgs (Some "token-u1") None) alice
                published_doc)
    ∧ Rtmp.streams st' !! "K1" = Some (Rtmp.start_doc 2000 published_doc).
Proof.
  assert (Hsession : is_Some (Rtmp.streamSessions rtmp_published_K1 !! "K1"))
    by (eexists; vm_compute; reflexivity).
  split; [exact Hsession|].
  refine (proj1 (prePublish_existing_session example_jwt 2000 "s-new" "c2" "/live/K1"
                   (Rtmp.mkArgs (Some "token-u1") None) rtmp_published_K1 Hsession)
            "token-u1" "u1" alice published_doc _ _ _ _ _ _).
  - reflexivity.
  - reflexivity.
  - vm_compute. reflexivity.
  - vm_compute. reflexivity.
  - reflexivity.
  - left. reflexivity.
Defined.

(** C1, as the claim states it, fails: while the session of alice's
    publish on connection ["c1"] is stored under ["K1"], a second
    ['prePublish'] for ["K1"] on connection ["c2"] is not rejected, and
    it replaces the session and restarts the stream record. *)
Lemma prePublish_existing_session_counterexample :
  let st := rtmp_published_K1 in
  let st' := (Rtmp.prePublish example_jwt 2000 "s-new" "c2" "/live/K1"
                (Rtmp.mkArgs (Some "token-u1") None) st).2 in
  Rtmp.sess_id <$> Rtmp.streamSessions st !! "K1" = Some (Some "c1")
  ∧ Rtmp.rejected st' = []
  ∧ Rtmp.sess_id <$> Rtmp.streamSessions st' !! "K1" = Some (Some "c2")
  ∧ startedAt <$> Rtmp.streams st !! "K1" = Some 1000
  ∧ startedAt <$> Rtmp.streams st' !! "K1" = Some 2000.
Proof. cbn zeta. repeat split; vm_compute; reflexivity. Qed.

(** [authenticatePublish] does not look for a session of the same key
    either: a second connection of alice gets a second publish session. *)
Example authenticatePublish_second_connection :
  let a := Rtmp.mkArgs (Some "token-u1") None in
  let st1 := (Rtmp.authenticatePublish example_jwt 1000 "c1" "/live/K1" a rtmp_idle).2 in
  Rtmp.authenticatePublish example_jwt 2000 "c2" "/live/K1" a st1
  = (Ok true,
     Rtmp.set_streamSessions
       (insert "c2" (Rtmp.mkSession (Some Rtmp.Publish) None None (Some "K1") "u1"
                       (Some RoleStreamer) 2000 None)) st1).
Proof. vm_compute. reflexivity. Qed.

(** * Properties of the strings *)

Lemma trimStart_nil_iff (s : Js.jsstring) : Js.trimStart s = [] ↔ Js.blank s = true.
Proof.
  induction s as [|c s IH]; cbn.
  - split; reflexivity.
  - destruct (Js.is_white_space c); cbn.
    + exact IH.
    + split; discriminate.
Qed.

Lemma trimStart_blank (s : Js.jsstring) : Js.blank (Js.trimStart s) = Js.blank s.
Proof.
  induction s as [|c s IH]; cbn.
  - reflexivity.
  - destruct (Js.is_white_space c) eqn:Hc; cbn.
    + exact IH.
    + rewrite Hc. reflexivity.
Qed.

Lemma blank_rev (s : Js.jsstring) : Js.blank (rev s) = Js.blank s.
Proof.
  unfold Js.blank. induction s as [|c s IH]; cbn.
  - reflexivity.
  - rewrite forallb_app, IH. cbn. rewrite andb_true_r. apply andb_comm.
Qed.

(** [trim] leaves nothing exactly of the strings that are empty or made of
    white space only. *)
Lemma trim_nil_iff (s : Js.jsstring) : Js.trim s = [] ↔ Js.blank s = true.
Proof.
  unfold Js.trim, Js.trimEnd.
  rewrite <- (trimStart_blank s), <- (blank_rev (Js.trimStart s)), <- trimStart_nil_iff.
  split.
  - intros H. apply (f_equal (@rev N)) in H. rewrite rev_involutive in H. exact H.
  - intros ->. reflexivity.
Qed.

(** The test [!message || !message.trim()] of the chat handler. *)
Lemma message_test_blank (message : Js.jsstring) :
  negb (Js.truthy message) || negb (Js.truthy (Js.trim message)) = Js.blank message.
Proof.
  destruct (Js.blank message) eqn:Hblank.
  - apply trim_nil_iff in Hblank. rewrite Hblank. cbn. apply orb_true_r.
  - destruct message as [|c s]; [discriminate|]. cbn [Js.truthy negb orb].
    destruct (Js.trim (c :: s)) eqn:Htrim; [|reflexivity].
    apply trim_nil_iff in Htrim. congruence.
Qed.

Example trim_hello :
  Js.trim (Js.of_string "  hello world ") = Js.of_string "hello world"
  ∧ Js.blank [32; 160; 9; 8195]%N = true
  ∧ Js.blank (Js.of_string " x ") = false.
Proof. repeat split; reflexivity. Qed.

(** * Properties of the socket server *)

Lemma elem_of_in_room (socks : gmap string Ws.socket) (room sid : string) :
  sid ∈ Ws.in_room socks room ↔
  ∃ sock, socks !! sid = Some sock ∧ room ∈ Ws.sock_rooms sock.
Proof.
  unfold Ws.in_room. rewrite elem_of_dom. unfold is_Some. split.
  - intros [sock [Hsock Hroom]%map_lookup_filter_Some]. eauto.
  - intros (sock & Hsock & Hroom). exists sock. apply map_lookup_filter_Some. done.
Qed.

(** A member of a socket.io room is a connected socket that joined it. *)
Lemma in_room_the_socket (st : Ws.state) (room sid : string) :
  sid ∈ Ws.in_room (Ws.sockets st) room ↔ room ∈ Ws.sock_rooms (Ws.the_socket st sid).
Proof.
  rewrite elem_of_in_room. unfold Ws.the_socket.
  destruct (Ws.sockets st !! sid) as [sock|]; cbn.
  - split; [intros (? & [= <-] & ?); done | eauto].
  - split; [intros (? & [=] & _) | set_solver].
Qed.

(** ** The loop of [handleDisconnect] *)

Lemma disconnect_loop (now : Z) (u : user) (sid : string) (socks : gmap string Ws.socket)
    (start : gmap string (gset string) * list Ws.emission) (m : gmap string (gset string)) :
  let res := map_fold (Ws.disconnect_room now u sid socks) start m in
  (∀ room, res.1 !! room =
           match m !! room with
           | Some subscribers =>
               if decide (sid ∈ subscribers) then disconnect_entry sid subscribers
               else start.1 !! room
           | None => start.1 !! room
           end)
  ∧ (∀ e, e ∈ res.2 ↔
          e ∈ start.2 ∨
          ∃ room subscribers,
            m !! room = Some subscribers ∧ sid ∈ subscribers ∧
            (e = Ws.emit socks (Ws.ToRoom room) (Ws.ViewerCount (size (subscribers ∖ {[sid]})))
             ∨ e = Ws.emit socks (Ws.ToRoom room) (Ws.UserLeft (user_id u) (username u) now))).
Proof.
  cbn zeta.
  apply (map_fold_weak_ind
           (λ res m,
              (∀ room, res.1 !! room =
                       match m !! room with
                       | Some subscribers =>
                           if decide (sid ∈ subscribers) then disconnect_entry sid subscribers
                           else start.1 !! room
                       | None => start.1 !! room
                       end)
              ∧ (∀ e, e ∈ res.2 ↔
                      e ∈ start.2 ∨
                      ∃ room subscribers,
                        m !! room = Some subscribers ∧ sid ∈ subscribers ∧
                        (e = Ws.emit socks (Ws.ToRoom room)
                               (Ws.ViewerCount (size (subscribers ∖ {[sid]})))
                         ∨ e = Ws.emit socks (Ws.ToRoom room)
                                 (Ws.UserLeft (user_id u) (username u) now))))).
  - split.
    + intros room. rewrite lookup_empty. reflexivity.
    + intros e. split; [auto|]. intros [?|(room & subs & Hroom & _)]; [done|].
      rewrite lookup_empty in Hroom. discriminate.
  - intros room subs m' acc Hfresh [IHrooms IHout]. split.
    + intros room'. unfold Ws.disconnect_room, disconnect_entry.
      destruct (decide (room = room')) as [<-|Hne].
      * rewrite lookup_insert_eq.
        destruct (decide (sid ∈ subs)) as [Hin|Hnotin].
        -- destruct (decide (size (subs ∖ {[sid]}) = 0%nat)); cbn.
           ++ apply lookup_delete_eq.
           ++ apply lookup_insert_eq.
        -- rewrite IHrooms, Hfresh. reflexivity.
      * rewrite lookup_insert_ne by done.
        destruct (decide (sid ∈ subs)) as [Hin|Hnotin].
        -- destruct (decide (size (subs ∖ {[sid]}) = 0%nat)); cbn.
           ++ rewrite lookup_delete_ne by done. apply IHrooms.
           ++ rewrite lookup_insert_ne by done. apply IHrooms.
        -- apply IHrooms.
    + intros e. unfold Ws.disconnect_room.
      destruct (decide (sid ∈ subs)) as [Hin|Hnotin].
      * assert (Hout : ∀ a b : gmap string (gset string),
                   (if decide (size (subs ∖ {[sid]}) = 0%nat)
                    then (a, acc.2 ++ [Ws.emit socks (Ws.ToRoom room)
                                         (Ws.ViewerCount (size (subs ∖ {[sid]})));
                                       Ws.emit socks (Ws.ToRoom room)
                                         (Ws.UserLeft (user_id u) (username u) now)])
                    else (b, acc.2 ++ [Ws.emit socks (Ws.ToRoom room)
                                         (Ws.ViewerCount (size (subs ∖ {[sid]})));
                                       Ws.emit socks (Ws.ToRoom room)
                                         (Ws.UserLeft (user_id u) (username u) now)])).2
                   = acc.2 ++ [Ws.emit socks (Ws.ToRoom room)
                                 (Ws.ViewerCount (size (subs ∖ {[sid]})));
                               Ws.emit socks (Ws.ToRoom room)
                                 (Ws.UserLeft (user_id u) (username u) now)])
          by (intros; case_decide; reflexivity).
        cbn zeta. rewrite Hout. rewrite elem_of_app, IHout, !elem_of_cons, elem_of_nil.
        split.
        -- intros [[?|(room' & subs' & Hroom' & Hin' & He)]|[->|[->|[]]]].
           ++ by left.
           ++ right. exists room', subs'. split; [|done].
              rewrite lookup_insert_ne; [done|]. intros <-. congruence.
           ++ right. exists room, subs. rewrite lookup_insert_eq. auto.
           ++ right. exists room, subs. rewrite lookup_insert_eq. auto.
        -- intros [?|(room' & subs' & Hroom' & Hin' & He)]; [by left; left|].
           destruct (decide (room = room')) as [<-|Hne].
           ++ rewrite lookup_insert_eq in Hroom'. injection Hroom' as <-.
              right. destruct He as [->| ->]; auto.
           ++ rewrite lookup_insert_ne in Hroom' by done.
              left. right. exists room', subs'. done.
      * rewrite IHout. split.
        -- intros [?|(room' & subs' & Hroom' & Hin' & He)]; [by left|].
           right. exists room', subs'. split; [|done].
           rewrite lookup_insert_ne; [done|]. intros <-. congruence.
        -- intros [?|(room' & subs' & Hroom' & Hin' & He)]; [by left|].
           destruct (decide (room = room')) as [<-|Hne].
           ++ rewrite lookup_insert_eq in Hroom'. injection Hroom' as <-. done.
           ++ rewrite lookup_insert_ne in Hroom' by done.
              right. exists room', subs'. done.
Qed.

Lemma disconnect_entry_members (sid : string) (subscribers : gset string) :
  default ∅ (disconnect_entry sid subscribers) = subscribers ∖ {[sid]}.
Proof.
  unfold disconnect_entry. destruct (decide (sid ∈ subscribers)) as [Hin|Hnotin].
  - destruct (decide (size (subscribers ∖ {[sid]}) = 0%nat)) as [Hsize|Hsize]; cbn.
    + apply size_empty_inv in Hsize. unfold_leibniz. set_solver.
    + reflexivity.
  - cbn. set_solver.
Qed.

Lemma disconnect_entry_nonempty (sid : string) (subscribers s : gset string) :
  subscribers ≠ ∅ → disconnect_entry sid subscribers = Some s → s ≠ ∅.
Proof.
  unfold disconnect_entry. intros Hne.
  destruct (decide (sid ∈ subscribers)).
  - destruct (decide (size (subscribers ∖ {[sid]}) = 0%nat)) as [|Hsize]; [discriminate|].
    intros [= <-] Hempty. apply Hsize. rewrite Hempty. apply size_empty.
  - intros [= <-]. exact Hne.
Qed.

Lemma handleDisconnect_unauthenticated (now : Z) (sock : Ws.socket) (sid : string)
    (st : Ws.state) :
  Ws.sock_user sock = None → Ws.handleDisconnect now sock sid st = (st, []).
Proof. intros Hnone. unfold Ws.handleDisconnect. rewrite Hnone. reflexivity. Qed.

Lemma handleDisconnect_sockets (now : Z) (sock : Ws.socket) (sid : string) (st : Ws.state) :
  Ws.sockets (Ws.handleDisconnect now sock sid st).1 = Ws.sockets st.
Proof.
  unfold Ws.handleDisconnect. destruct (Ws.sock_user sock); [|reflexivity].
  destruct (map_fold _ _ _). reflexivity.
Qed.

Lemma handleDisconnect_rooms (now : Z) (sock : Ws.socket) (sid : string) (st : Ws.state)
    (u : user) (room : string) :
  Ws.sock_user sock = Some u →
  Ws.roomSubscribers (Ws.handleDisconnect now sock sid st).1 !! room
  = Ws.roomSubscribers st !! room ≫= disconnect_entry sid.
Proof.
  intros Hu. unfold Ws.handleDisconnect. rewrite Hu.
  pose proof (disconnect_loop now u sid (Ws.sockets st) (Ws.roomSubscribers st, [])
                (Ws.roomSubscribers st)) as [Hrooms _].
  destruct (map_fold _ _ _) as [rooms out]. cbn in *.
  rewrite Hrooms. destruct (Ws.roomSubscribers st !! room) as [subs|] eqn:Hroom; cbn.
  - unfold disconnect_entry. destruct (decide (sid ∈ subs)); reflexivity.
  - reflexivity.
Qed.

Lemma handleDisconnect_out (now : Z) (sock : Ws.socket) (sid : string) (st : Ws.state)
    (u : user) (e : Ws.emission) :
  Ws.sock_user sock = Some u →
  e ∈ (Ws.handleDisconnect now sock sid st).2 ↔
  ∃ room subscribers,
    Ws.roomSubscribers st !! room = Some subscribers ∧ sid ∈ subscribers ∧
    (e = Ws.emit (Ws.sockets st) (Ws.ToRoom room)
           (Ws.ViewerCount (size (subscribers ∖ {[sid]})))
     ∨ e = Ws.emit (Ws.sockets st) (Ws.ToRoom room)
             (Ws.UserLeft (user_id u) (username u) now)).
Proof.
  intros Hu. unfold Ws.handleDisconnect. rewrite Hu.
  pose proof (disconnect_loop now u sid (Ws.sockets st) (Ws.roomSubscribers st, [])
                (Ws.roomSubscribers st)) as [_ Hout].
  destruct (map_fold _ _ _) as [rooms out]. cbn in *.
  rewrite Hout, elem_of_nil. tauto.
Qed.

Lemma handleDisconnect_members (now : Z) (sock : Ws.socket) (sid : string) (st : Ws.state)
    (u : user) (room : string) :
  Ws.sock_user sock = Some u →
  Ws.members (Ws.handleDisconnect now sock sid st).1 room = Ws.members st room ∖ {[sid]}.
Proof.
  intros Hu. unfold Ws.members. rewrite (handleDisconnect_rooms _ _ _ _ u) by done.
  destruct (Ws.roomSubscribers st !! room) as [subs|]; cbn.
  - apply disconnect_entry_members.
  - set_solver.
Qed.

(** ** The three handlers that change the rooms *)

Lemma on_leave_stream_members (sid streamId : string) (st : Ws.state) (room : string) :
  Ws.members (Ws.on_leave_stream sid streamId st).1 room =
  if decide (room = Ws.roomName streamId) then Ws.members st room ∖ {[sid]}
  else Ws.members st room.
Proof.
  unfold Ws.on_leave_stream, Ws.members.
  destruct (Ws.roomSubscribers st !! Ws.roomName streamId) as [subs|] eqn:Hroom; cbn.
  - destruct (decide (room = Ws.roomName streamId)) as [->|Hne].
    + rewrite Hroom. cbn.
      destruct (decide (size (subs ∖ {[sid]}) = 0%nat)) as [Hsize|Hsize].
      * rewrite lookup_delete_eq. cbn. apply size_empty_inv in Hsize.
        unfold_leibniz. set_solver.
      * rewrite lookup_insert_eq. reflexivity.
    + destruct (decide (size (subs ∖ {[sid]}) = 0%nat)).
      * rewrite lookup_delete_ne by done. reflexivity.
      * rewrite lookup_insert_ne by done. reflexivity.
  - destruct (decide (room = Ws.roomName streamId)) as [->|Hne]; [|reflexivity].
    rewrite Hroom. cbn. set_solver.
Qed.

Lemma on_leave_stream_sockets (sid streamId : string) (st : Ws.state) :
  Ws.sockets (Ws.on_leave_stream sid streamId st).1
  = alter (Ws.leave (Ws.roomName streamId)) sid (Ws.sockets st).
Proof.
  unfold Ws.on_leave_stream. destruct (Ws.roomSubscribers st !! _); reflexivity.
Qed.

(** [handleJoinStream] either fails and changes nothing, or succeeds,
    leaves [joined_state] and ends its emissions with the viewer count of
    the room. *)
Lemma handleJoinStream_cases (Stream_findById : string → option stream_doc)
    (rtmpServer : Rtmp.state) (now : Z) (sid streamId : string) (st : Ws.state) :
  (∃ error, Ws.handleJoinStream Stream_findById rtmpServer now sid streamId st
            = (st, [], Ws.Failure error))
  ∨ (∃ out, Ws.handleJoinStream Stream_findById rtmpServer now sid streamId st
            = (joined_state sid streamId st,
               out ++ [Ws.emit (Ws.sockets (joined_state sid streamId st))
                         (Ws.ToRoom (Ws.roomName streamId))
                         (Ws.ViewerCount
                            (size (Ws.members (joined_state sid streamId st)
                                     (Ws.roomName streamId))))],
               Ws.Success)
            ∧ is_Some (Ws.sock_user (Ws.the_socket st sid))
            ∧ Forall (λ e, ∀ count, Ws.em_event e ≠ Ws.ViewerCount count) out).
Proof.
  unfold Ws.handleJoinStream.
  destruct (Ws.sock_user (Ws.the_socket st sid)) as [u|] eqn:Hu; [|left; eauto].
  destruct (Stream_findById streamId) as [stream|]; [|left; eauto].
  destruct (isPrivate stream && bool_decide (stream_user stream ≠ user_id u)
            && bool_decide (user_role u ≠ RoleAdmin)); [left; eauto|].
  right.
  assert (Hmembers : Ws.members (joined_state sid streamId st) (Ws.roomName streamId)
                     = {[sid]} ∪ Ws.members st (Ws.roomName streamId)).
  { unfold Ws.members at 1. cbn. rewrite lookup_insert_eq. reflexivity. }
  rewrite Hmembers.
  eexists. split; [|split; [eauto|]].
  - rewrite app_assoc. reflexivity.
  - apply Forall_app. split.
    + repeat constructor. cbn. discriminate.
    + destruct (Rtmp.getStreamInfo _ _); repeat constructor. cbn. discriminate.
Qed.

(** ** The viewer count is the number of members *)

Lemma on_disconnect_count_ok (now : Z) (sid : string) (st : Ws.state) :
  Forall (count_ok (Ws.on_disconnect now sid st).1) (Ws.on_disconnect now sid st).2.
Proof.
  unfold Ws.on_disconnect.
  destruct (Ws.sock_user (Ws.the_socket st sid)) as [u|] eqn:Hu.
  - apply Forall_forall. intros e He.
    apply (handleDisconnect_out _ _ _ _ u) in He as (room & subs & Hroom & Hin & He); [|done].
    destruct He as [-> | ->]; cbn; [|exact I].
    exists room. split; [reflexivity|].
    rewrite (handleDisconnect_members _ _ _ _ u) by done.
    unfold Ws.members. cbn in *. rewrite Hroom. reflexivity.
  - rewrite handleDisconnect_unauthenticated by done. constructor.
Qed.

Lemma on_leave_stream_count_ok (sid streamId : string) (st : Ws.state) :
  Forall (count_ok (Ws.on_leave_stream sid streamId st).1)
         (Ws.on_leave_stream sid streamId st).2.
Proof.
  pose proof (on_leave_stream_members sid streamId st (Ws.roomName streamId)) as Hmembers.
  destruct (decide (Ws.roomName streamId = Ws.roomName streamId)); [|done].
  unfold Ws.on_leave_stream in *.
  destruct (Ws.roomSubscribers st !! Ws.roomName streamId) as [subs|] eqn:Hroom; cbn in *.
  - repeat constructor. exists (Ws.roomName streamId). split; [reflexivity|].
    rewrite Hmembers. unfold Ws.members. rewrite Hroom. reflexivity.
  - constructor.
Qed.

Lemma handleJoinStream_count_ok (Stream_findById : string → option stream_doc)
    (rtmpServer : Rtmp.state) (now : Z) (sid streamId : string) (st : Ws.state) :
  Forall (count_ok (Ws.handleJoinStream Stream_findById rtmpServer now sid streamId st).1.1)
         (Ws.handleJoinStream Stream_findById rtmpServer now sid streamId st).1.2.
Proof.
  destruct (handleJoinStream_cases Stream_findById rtmpServer now sid streamId st)
    as [(error & ->)|(out & -> & _ & Hout)]; cbn.
  - constructor.
  - apply Forall_app. split.
    + eapply Forall_impl; [exact Hout|]. intros e He. unfold count_ok.
      destruct (Ws.em_event e) eqn:Hev; try exact I. exfalso. exact (He _ Hev).
    + repeat constructor. eexists. split; reflexivity.
Qed.

Lemma handleChatMessage_count_ok (now : Z) (sid streamId : string) (message : Js.jsstring)
    (st : Ws.state) :
  Forall (count_ok (Ws.handleChatMessage now sid streamId message st).1.1)
         (Ws.handleChatMessage now sid streamId message st).1.2.
Proof.
  unfold Ws.handleChatMessage. repeat case_match; cbn; repeat constructor.
Qed.

Lemma handleReaction_count_ok (now : Z) (sid streamId reaction : string) (st : Ws.state) :
  Forall (count_ok (Ws.handleReaction now sid streamId reaction st).1.1)
         (Ws.handleReaction now sid streamId reaction st).1.2.
Proof.
  unfold Ws.handleReaction. repeat case_match; cbn; repeat constructor.
Qed.

Lemma on_authenticate_count_ok (jwt_verify : string → result string)
    (User_findById : string → option user) (now : Z) (sid : string) (token : option string)
    (st : Ws.state) :
  Forall (count_ok (Ws.on_authenticate jwt_verify User_findById now sid token st).1.1)
         (Ws.on_authenticate jwt_verify User_findById now sid token st).1.2.
Proof.
  unfold Ws.on_authenticate.
  destruct (Ws.authenticateSocket jwt_verify User_findById sid token st) as [st' [u|error]]; cbn.
  - constructor.
  - pose proof (on_disconnect_count_ok now sid st') as H.
    destruct (Ws.on_disconnect now sid st') as [st'' out]. exact H.
Qed.

(** A join that is let in broadcasts the number of members to its room. *)
Lemma handleJoinStream_broadcasts (Stream_findById : string → option stream_doc)
    (rtmpServer : Rtmp.state) (now : Z) (sid streamId : string) (st st' : Ws.state)
    (out : list Ws.emission) :
  Ws.handleJoinStream Stream_findById rtmpServer now sid streamId st = (st', out, Ws.Success) →
  Ws.emit (Ws.sockets st') (Ws.ToRoom (Ws.roomName streamId))
          (Ws.ViewerCount (size (Ws.members st' (Ws.roomName streamId)))) ∈ out.
Proof.
  destruct (handleJoinStream_cases Stream_findById rtmpServer now sid streamId st)
    as [(error & ->)|(out' & -> & _)]; [discriminate|].
  intros [= <- <-]. apply elem_of_app. right. apply list_elem_of_singleton. reflexivity.
Qed.

(** A leave from a room of the table broadcasts the number of members left. *)
Lemma on_leave_stream_broadcasts (sid streamId : string) (st : Ws.state) :
  is_Some (Ws.roomSubscribers st !! Ws.roomName streamId) →
  let st' := (Ws.on_leave_stream sid streamId st).1 in
  (Ws.on_leave_stream sid streamId st).2
  = [Ws.emit (Ws.sockets st') (Ws.ToRoom (Ws.roomName streamId))
       (Ws.ViewerCount (size (Ws.members st' (Ws.roomName streamId))))].
Proof.
  intros [subs Hroom] st'.
  pose proof (on_leave_stream_members sid streamId st (Ws.roomName streamId)) as Hmembers.
  destruct (decide (Ws.roomName streamId = Ws.roomName streamId)); [|done].
  fold st' in Hmembers. rewrite Hmembers. subst st'.
  unfold Ws.on_leave_stream. rewrite Hroom. cbn.
  unfold Ws.members. rewrite Hroom. reflexivity.
Qed.

(** The disconnection of an authenticated socket broadcasts, to every room
    the table had it in, the number of members left. *)
Lemma on_disconnect_broadcasts (now : Z) (sid : string) (st : Ws.state) (room : string) :
  is_Some (Ws.sock_user (Ws.the_socket st sid)) →
  sid ∈ Ws.members st room →
  let st' := (Ws.on_disconnect now sid st).1 in
  Ws.emit (Ws.sockets st') (Ws.ToRoom room) (Ws.ViewerCount (size (Ws.members st' room)))
  ∈ (Ws.on_disconnect now sid st).2.
Proof.
  intros [u Hu] Hin st'. subst st'. unfold Ws.on_disconnect.
  rewrite handleDisconnect_sockets, (handleDisconnect_members _ _ _ _ u) by done.
  apply (handleDisconnect_out _ _ _ _ u); [done|].
  unfold Ws.members in *. cbn.
  destruct (Ws.roomSubscribers st !! room) as [subs|] eqn:Hroom; cbn in *; [|set_solver].
  exists room, subs. rewrite Hroom. auto.
Qed.

(** C2.  Whatever request the socket server handles, every
    ['viewer-count'] it emits goes to a room and carries the number of
    members the table has for that room once the request is handled: the
    count is the size of the set of members, read after the set was
    changed.  A join that is let in emits it for its room, a leave for the
    room it names when the table has it, and a disconnection for every
    room the socket was a member of. *)
Theorem viewer_count_is_cardinality
    (jwt_verify : string → result string) (User_findById : string → option user)
    (Stream_findById : string → option stream_doc) (rtmpServer : Rtmp.state)
    (now : Z) (st : Ws.state) :
  (∀ r,
     let res := Ws.step jwt_verify User_findById Stream_findById rtmpServer now r st in
     Forall (count_ok res.1) res.2)
  ∧ (∀ sid streamId st' out,
       Ws.handleJoinStream Stream_findById rtmpServer now sid streamId st
       = (st', out, Ws.Success) →
       Ws.emit (Ws.sockets st') (Ws.ToRoom (Ws.roomName streamId))
               (Ws.ViewerCount (size (Ws.members st' (Ws.roomName streamId)))) ∈ out)
  ∧ (∀ sid streamId,
       is_Some (Ws.roomSubscribers st !! Ws.roomName streamId) →
       let st' := (Ws.on_leave_stream sid streamId st).1 in
       (Ws.on_leave_stream sid streamId st).2
       = [Ws.emit (Ws.sockets st') (Ws.ToRoom (Ws.roomName streamId))
            (Ws.ViewerCount (size (Ws.members st' (Ws.roomName streamId))))])
  ∧ (∀ sid room,
       is_Some (Ws.sock_user (Ws.the_socket st sid)) →
       sid ∈ Ws.members st room →
       let st' := (Ws.on_disconnect now sid st).1 in
       Ws.emit (Ws.sockets st') (Ws.ToRoom room)
               (Ws.ViewerCount (size (Ws.members st' room)))
       ∈ (Ws.on_disconnect now sid st).2).
Proof.
  split; [|split; [|split]].
  - intros [sid token|sid streamId|sid streamId|sid streamId message
           |sid streamId reaction|sid]; cbn.
    + apply on_authenticate_count_ok.
    + apply handleJoinStream_count_ok.
    + apply on_leave_stream_count_ok.
    + apply handleChatMessage_count_ok.
    + apply handleReaction_count_ok.
    + apply on_disconnect_count_ok.
  - intros sid streamId st' out. apply handleJoinStream_broadcasts.
  - intros sid streamId. apply on_leave_stream_broadcasts.
  - intros sid room. apply on_disconnect_broadcasts.
Qed.

(** ** The invariants of the socket server *)

Lemma default_lookup_insert (m : gmap string Ws.socket) (sid sid' : string) (s : Ws.socket) :
  default Ws.new_socket (<[sid := s]> m !! sid')
  = if decide (sid = sid') then s else default Ws.new_socket (m !! sid').
Proof.
  destruct (decide (sid = sid')) as [<-|Hne].
  - rewrite lookup_insert_eq. reflexivity.
  - rewrite lookup_insert_ne by done. reflexivity.
Qed.

Lemma default_lookup_delete (m : gmap string Ws.socket) (sid sid' : string) :
  default Ws.new_socket (delete sid m !! sid')
  = if decide (sid = sid') then Ws.new_socket else default Ws.new_socket (m !! sid').
Proof.
  destruct (decide (sid = sid')) as [<-|Hne].
  - rewrite lookup_delete_eq. reflexivity.
  - rewrite lookup_delete_ne by done. reflexivity.
Qed.

Lemma ws_invariant_init : ws_invariant Ws.init.
Proof.
  split; [|split].
  - intros room subs Hroom. cbn in Hroom. rewrite lookup_empty in Hroom. discriminate.
  - intros room sid. unfold Ws.members, Ws.the_socket. cbn. rewrite !lookup_empty. cbn.
    set_solver.
  - intros sid _. unfold Ws.the_socket. cbn. rewrite lookup_empty. reflexivity.
Qed.

Lemma authenticateSocket_cases (jwt_verify : string → result string)
    (User_findById : string → option user) (sid : string) (token : option string)
    (st : Ws.state) :
  Ws.authenticateSocket jwt_verify User_findById sid token st
  = (st, Throw "Authentication failed")
  ∨ ∃ u, Ws.authenticateSocket jwt_verify User_findById sid token st
         = (Ws.set_connectedUsers
              (insert (user_id u) ({[sid]} ∪ default ∅ (Ws.connectedUsers st !! user_id u)))
              (Ws.set_sockets
                 (insert sid (Ws.mkSocket (Some u) (Ws.sock_rooms (Ws.the_socket st sid))))
                 st),
            Ok u).
Proof.
  unfold Ws.authenticateSocket.
  destruct (Rtmp.as_truthy token) as [t|]; [|by left].
  destruct (jwt_verify t) as [id|]; [|by left].
  destruct (User_findById id) as [u|]; [|by left].
  right. eauto.
Qed.

Lemma on_disconnect_invariant (now : Z) (sid : string) (st : Ws.state) :
  ws_invariant st → ws_invariant (Ws.on_disconnect now sid st).1.
Proof.
  intros (Hnonempty & Hagree & Hauth). unfold Ws.on_disconnect.
  assert (Hsock : ∀ sid',
             Ws.the_socket (Ws.handleDisconnect now (Ws.the_socket st sid) sid
                              (Ws.set_sockets (delete sid) st)).1 sid'
             = if decide (sid = sid') then Ws.new_socket else Ws.the_socket st sid').
  { intros sid'. unfold Ws.the_socket at 1. rewrite handleDisconnect_sockets. cbn.
    apply default_lookup_delete. }
  destruct (Ws.sock_user (Ws.the_socket st sid)) as [u|] eqn:Hu.
  - split; [|split].
    + intros room subs Hroom.
      rewrite (handleDisconnect_rooms _ _ _ _ u) in Hroom by done. cbn in Hroom.
      destruct (Ws.roomSubscribers st !! room) as [old|] eqn:Hold; [|discriminate].
      cbn in Hroom. eapply disconnect_entry_nonempty; [|exact Hroom]. eapply Hnonempty, Hold.
    + intros room sid'. rewrite (handleDisconnect_members _ _ _ _ u), Hsock by done.
      assert (Hsame : Ws.members (Ws.set_sockets (delete sid) st) room = Ws.members st room)
        by reflexivity.
      rewrite Hsame. specialize (Hagree room sid').
      destruct (decide (sid = sid')) as [<-|Hne]; cbn; set_solver.
    + intros sid'. rewrite Hsock. destruct (decide (sid = sid')); [reflexivity|apply Hauth].
  - rewrite handleDisconnect_unauthenticated in * by done. cbn.
    assert (Hsock' : ∀ sid', Ws.the_socket (Ws.set_sockets (delete sid) st) sid'
                             = if decide (sid = sid') then Ws.new_socket
                               else Ws.the_socket st sid').
    { intros sid'. apply default_lookup_delete. }
    split; [|split].
    + exact Hnonempty.
    + intros room sid'. rewrite Hsock'.
      assert (Hsame : Ws.members (Ws.set_sockets (delete sid) st) room = Ws.members st room)
        by reflexivity.
      rewrite Hsame. specialize (Hagree room sid').
      destruct (decide (sid = sid')) as [<-|Hne]; [|exact Hagree].
      rewrite (Hauth sid Hu) in Hagree. cbn. exact Hagree.
    + intros sid'. rewrite Hsock'. destruct (decide (sid = sid')); [reflexivity|apply Hauth].
Qed.

Lemma on_authenticate_invariant (jwt_verify : string → result string)
    (User_findById : string → option user) (now : Z) (sid : string) (token : option string)
    (st : Ws.state) :
  ws_invariant st → ws_invariant (Ws.on_authenticate jwt_verify User_findById now sid token st).1.1.
Proof.
  intros Hinv. unfold Ws.on_authenticate.
  destruct (authenticateSocket_cases jwt_verify User_findById sid token st) as [->|(u & ->)].
  - pose proof (on_disconnect_invariant now sid st Hinv) as H.
    destruct (Ws.on_disconnect now sid st) as [st'' out]. exact H.
  - cbn. destruct Hinv as (Hnonempty & Hagree & Hauth).
    assert (Hsock : ∀ sid',
               Ws.the_socket
                 (Ws.set_connectedUsers
                    (insert (user_id u) ({[sid]} ∪ default ∅ (Ws.connectedUsers st !! user_id u)))
                    (Ws.set_sockets
                       (insert sid (Ws.mkSocket (Some u) (Ws.sock_rooms (Ws.the_socket st sid))))
                       st)) sid'
               = if decide (sid = sid')
                 then Ws.mkSocket (Some u) (Ws.sock_rooms (Ws.the_socket st sid))
                 else Ws.the_socket st sid').
    { intros sid'. apply default_lookup_insert. }
    split; [|split].
    + exact Hnonempty.
    + intros room sid'. rewrite Hsock. specialize (Hagree room sid').
      destruct (decide (sid = sid')) as [<-|Hne]; exact Hagree.
    + intros sid'. rewrite Hsock.
      destruct (decide (sid = sid')) as [<-|Hne]; [discriminate|apply Hauth].
Qed.

Lemma joined_state_members (sid streamId : string) (st : Ws.state) (room : string) :
  Ws.members (joined_state sid streamId st) room
  = if decide (room = Ws.roomName streamId) then {[sid]} ∪ Ws.members st room
    else Ws.members st room.
Proof.
  unfold Ws.members at 1. cbn. destruct (decide (room = Ws.roomName streamId)) as [->|Hne].
  - rewrite lookup_insert_eq. reflexivity.
  - rewrite lookup_insert_ne by done. reflexivity.
Qed.

Lemma joined_state_socket (sid streamId : string) (st : Ws.state) (sid' : string) :
  Ws.the_socket (joined_state sid streamId st) sid'
  = if decide (sid = sid') then Ws.join (Ws.roomName streamId) (Ws.the_socket st sid)
    else Ws.the_socket st sid'.
Proof. apply default_lookup_insert. Qed.

Lemma handleJoinStream_invariant (Stream_findById : string → option stream_doc)
    (rtmpServer : Rtmp.state) (now : Z) (sid streamId : string) (st : Ws.state) :
  ws_invariant st →
  ws_invariant (Ws.handleJoinStream Stream_findById rtmpServer now sid streamId st).1.1.
Proof.
  intros Hinv.
  destruct (handleJoinStream_cases Stream_findById rtmpServer now sid streamId st)
    as [(error & ->)|(out & -> & [u Hu] & _)]; cbn; [exact Hinv|].
  destruct Hinv as (Hnonempty & Hagree & Hauth). split; [|split].
  - intros room subs Hroom. cbn in Hroom.
    destruct (decide (Ws.roomName streamId = room)) as [<-|Hne].
    + rewrite lookup_insert_eq in Hroom. injection Hroom as <-. set_solver.
    + rewrite lookup_insert_ne in Hroom by done. eapply Hnonempty, Hroom.
  - intros room sid'. rewrite joined_state_members, joined_state_socket.
    specialize (Hagree room sid').
    destruct (decide (room = Ws.roomName streamId)) as [->|Hroom];
      destruct (decide (sid = sid')) as [<-|Hsid]; cbn; set_solver.
  - intros sid'. rewrite joined_state_socket.
    destruct (decide (sid = sid')) as [<-|Hsid]; cbn; [congruence|apply Hauth].
Qed.

Lemma on_leave_stream_socket (sid streamId : string) (st : Ws.state) (sid' : string) :
  Ws.sock_user (Ws.the_socket (Ws.on_leave_stream sid streamId st).1 sid')
  = Ws.sock_user (Ws.the_socket st sid')
  ∧ Ws.sock_rooms (Ws.the_socket (Ws.on_leave_stream sid streamId st).1 sid')
    = if decide (sid = sid')
      then Ws.sock_rooms (Ws.the_socket st sid') ∖ {[Ws.roomName streamId]}
      else Ws.sock_rooms (Ws.the_socket st sid').
Proof.
  unfold Ws.the_socket. rewrite on_leave_stream_sockets.
  destruct (decide (sid = sid')) as [<-|Hne].
  - rewrite lookup_alter_eq. destruct (Ws.sockets st !! sid); cbn; [done|].
    split; [reflexivity|set_solver].
  - rewrite lookup_alter_ne by done. done.
Qed.

Lemma on_leave_stream_invariant (sid streamId : string) (st : Ws.state) :
  ws_invariant st → ws_invariant (Ws.on_leave_stream sid streamId st).1.
Proof.
  intros (Hnonempty & Hagree & Hauth). split; [|split].
  - intros room subs. unfold Ws.on_leave_stream.
    destruct (Ws.roomSubscribers st !! Ws.roomName streamId) as [old|] eqn:Hold; cbn.
    + destruct (decide (size (old ∖ {[sid]}) = 0%nat)) as [Hsize|Hsize].
      * intros [_ Hroom]%lookup_delete_Some. eapply Hnonempty, Hroom.
      * intros [[_ <-]|[_ Hroom]]%lookup_insert_Some.
        -- intros Hempty. apply Hsize. rewrite Hempty. apply size_empty.
        -- eapply Hnonempty, Hroom.
    + apply Hnonempty.
  - intros room sid'. rewrite on_leave_stream_members.
    destruct (on_leave_stream_socket sid streamId st sid') as [_ ->].
    specialize (Hagree room sid').
    destruct (decide (room = Ws.roomName streamId)) as [->|Hroom];
      destruct (decide (sid = sid')) as [<-|Hsid]; set_solver.
  - intros sid'. destruct (on_leave_stream_socket sid streamId st sid') as [-> ->].
    intros Hu. rewrite (Hauth sid' Hu). destruct (decide (sid = sid')); set_solver.
Qed.

Lemma step_invariant (jwt_verify : string → result string)
    (User_findById : string → option user) (Stream_findById : string → option stream_doc)
    (rtmpServer : Rtmp.state) (now : Z) (r : Ws.request) (st : Ws.state) :
  ws_invariant st →
  ws_invariant (Ws.step jwt_verify User_findById Stream_findById rtmpServer now r st).1.
Proof.
  intros Hinv.
  destruct r as [sid token|sid streamId|sid streamId|sid streamId message
                |sid streamId reaction|sid]; cbn.
  - apply on_authenticate_invariant, Hinv.
  - apply handleJoinStream_invariant, Hinv.
  - apply on_leave_stream_invariant, Hinv.
  - unfold Ws.handleChatMessage. repeat case_match; exact Hinv.
  - unfold Ws.handleReaction. repeat case_match; exact Hinv.
  - apply on_disconnect_invariant, Hinv.
Qed.

Lemma reachable_invariant (st : Ws.state) : reachable st → ws_invariant st.
Proof.
  induction 1 as [|jwt_verify User_findById Stream_findById rtmpServer now r st _ IH].
  - apply ws_invariant_init.
  - apply step_invariant, IH.
Qed.

Lemma run_reachable (jwt_verify : string → result string)
    (User_findById : string → option user) (Stream_findById : string → option stream_doc)
    (rtmpServer : Rtmp.state) (trace : list (Z * Ws.request)) (st : Ws.state) :
  reachable st →
  reachable (Ws.run jwt_verify User_findById Stream_findById rtmpServer trace st).
Proof.
  revert st. induction trace as [|[now r] trace IH]; intros st Hst; cbn.
  - exact Hst.
  - apply IH. apply reachable_step, Hst.
Qed.

Lemma ws_after_reachable (trace : list (Z * Ws.request)) : reachable (ws_after trace).
Proof. apply run_reachable, reachable_init. Qed.

(** ** Empty rooms are pruned *)

Lemma no_members_no_room (st : Ws.state) (room : string) :
  rooms_nonempty st → Ws.members st room = ∅ → Ws.roomSubscribers st !! room = None.
Proof.
  intros Hnonempty Hmembers. unfold Ws.members in Hmembers.
  destruct (Ws.roomSubscribers st !! room) as [subs|] eqn:Hroom; [|reflexivity].
  cbn in Hmembers. exfalso. eapply Hnonempty; eassumption.
Qed.

Lemma on_disconnect_members (now : Z) (sid : string) (st : Ws.state) (room : string) :
  ws_invariant st →
  Ws.members (Ws.on_disconnect now sid st).1 room = Ws.members st room ∖ {[sid]}.
Proof.
  intros (_ & Hagree & Hauth). unfold Ws.on_disconnect.
  destruct (Ws.sock_user (Ws.the_socket st sid)) as [u|] eqn:Hu.
  - rewrite (handleDisconnect_members _ _ _ _ u) by done. reflexivity.
  - rewrite handleDisconnect_unauthenticated by done. cbn.
    assert (Hsame : Ws.members (Ws.set_sockets (delete sid) st) room = Ws.members st room)
      by reflexivity.
    rewrite Hsame. specialize (Hagree room sid). rewrite (Hauth sid Hu) in Hagree.
    set_solver.
Qed.

(** A join that is let into a room the table does not have makes the
    room, with the joiner as only member, and broadcasts the count 1. *)
Lemma handleJoinStream_fresh_room (Stream_findById : string → option stream_doc)
    (rtmpServer : Rtmp.state) (now : Z) (sid streamId : string) (st st' : Ws.state)
    (out : list Ws.emission) :
  Ws.roomSubscribers st !! Ws.roomName streamId = None →
  Ws.handleJoinStream Stream_findById rtmpServer now sid streamId st = (st', out, Ws.Success) →
  Ws.roomSubscribers st' !! Ws.roomName streamId = Some {[sid]}
  ∧ Ws.emit (Ws.sockets st') (Ws.ToRoom (Ws.roomName streamId)) (Ws.ViewerCount 1) ∈ out.
Proof.
  intros Hnone Hjoin.
  destruct (handleJoinStream_cases Stream_findById rtmpServer now sid streamId st)
    as [(error & Hfail)|(out' & Hok & _)]; [congruence|].
  assert (Hmembers : Ws.members (joined_state sid streamId st) (Ws.roomName streamId) = {[sid]}).
  { rewrite joined_state_members. destruct (decide _); [|done].
    unfold Ws.members. rewrite Hnone. cbn. apply union_empty_r_L. }
  rewrite Hmembers, size_singleton in Hok.
  rewrite Hok in Hjoin. injection Hjoin as <- <-. split.
  - unfold Ws.members in Hmembers. cbn in *. rewrite lookup_insert_eq in *.
    cbn in Hmembers. congruence.
  - apply elem_of_app. right. apply list_elem_of_singleton. reflexivity.
Qed.

(** C8.  In every state the socket server gets into, every room of the
    table has a member.  When the members of the room of a stream are at
    most the socket [sid], a leave of [sid] from the room and a
    disconnection of [sid] both end with the room out of the table; and a
    join of the same stream that is let in, then or later while the table
    has no such room, makes the room anew with the joiner as its only
    member and broadcasts the viewer count 1. *)
Theorem empty_room_is_pruned (st : Ws.state) (sid streamId : string) :
  reachable st →
  Ws.members st (Ws.roomName streamId) ⊆ {[sid]} →
  let room := Ws.roomName streamId in
  rooms_nonempty st
  ∧ (∀ now st1,
       st1 = (Ws.on_leave_stream sid streamId st).1 ∨ st1 = (Ws.on_disconnect now sid st).1 →
       rooms_nonempty st1 ∧ Ws.roomSubscribers st1 !! room = None)
  ∧ (∀ Stream_findById rtmpServer now sid' st1 st2 out,
       Ws.roomSubscribers st1 !! room = None →
       Ws.handleJoinStream Stream_findById rtmpServer now sid' streamId st1
       = (st2, out, Ws.Success) →
       Ws.roomSubscribers st2 !! room = Some {[sid']}
       ∧ Ws.emit (Ws.sockets st2) (Ws.ToRoom room) (Ws.ViewerCount 1) ∈ out).
Proof.
  intros Hreach Hmembers room. apply reachable_invariant in Hreach as Hinv.
  split; [apply Hinv|]. split.
  - intros now st1 Hst1.
    assert (Hinv1 : ws_invariant st1).
    { destruct Hst1 as [-> | ->].
      - apply on_leave_stream_invariant, Hinv.
      - apply on_disconnect_invariant, Hinv. }
    assert (Hempty : Ws.members st1 room = ∅).
    { destruct Hst1 as [-> | ->].
      - rewrite on_leave_stream_members. destruct (decide _); [|done]. set_solver.
      - rewrite on_disconnect_members by exact Hinv. set_solver. }
    split; [apply Hinv1|]. apply no_members_no_room; [apply Hinv1|exact Hempty].
  - intros Stream_findById rtmpServer now sid' st1 st2 out Hnone Hjoin.
    eapply handleJoinStream_fresh_room; eassumption.
Qed.

Lemma empty_room_is_pruned_witness :
  reachable ws_alice_joined
  ∧ Ws.members ws_alice_joined (Ws.roomName "s1") ⊆ {[ "A" ]}
  ∧ rooms_nonempty ws_alice_joined
  ∧ Ws.roomSubscribers (Ws.on_leave_stream "A" "s1" ws_alice_joined).1 !! Ws.roomName "s1"
    = None
  ∧ Ws.roomSubscribers (Ws.on_disconnect 3 "A" ws_alice_joined).1 !! Ws.roomName "s1" = None
  ∧ ∃ st2 out,
      Ws.handleJoinStream example_Stream_findById rtmp_idle 5 "B" "s1"
        (Ws.on_authenticate example_jwt example_User_findById 4 "B" (Some "token-u2")
           (Ws.on_leave_stream "A" "s1" ws_alice_joined).1).1.1
      = (st2, out, Ws.Success)
      ∧ Ws.roomSubscribers st2 !! Ws.roomName "s1" = Some {[ "B" ]}
      ∧ Ws.emit (Ws.sockets st2) (Ws.ToRoom (Ws.roomName "s1")) (Ws.ViewerCount 1) ∈ out.
Proof.
  assert (Hreach : reachable ws_alice_joined) by apply ws_after_reachable.
  assert (Hmembers : Ws.members ws_alice_joined (Ws.roomName "s1") ⊆ {[ "A" ]}).
  { assert (Heq : Ws.members ws_alice_joined (Ws.roomName "s1") = {[ "A" ]})
      by (vm_compute; reflexivity).
    rewrite Heq. reflexivity. }
  destruct (empty_room_is_pruned ws_alice_joined "A" "s1" Hreach Hmembers)
    as (Hnonempty & Hafter & Hjoin).
  split; [exact Hreach|]. split; [exact Hmembers|]. split; [exact Hnonempty|].
  split; [exact (proj2 (Hafter 3 _ (or_introl eq_refl)))|].
  split; [exact (proj2 (Hafter 3 _ (or_intror eq_refl)))|].
  pose (st1 := (Ws.on_authenticate example_jwt example_User_findById 4 "B" (Some "token-u2")
                  (Ws.on_leave_stream "A" "s1" ws_alice_joined).1).1.1).
  pose (joined := Ws.handleJoinStream example_Stream_findById rtmp_idle 5 "B" "s1" st1).
  assert (Hnone : Ws.roomSubscribers st1 !! Ws.roomName "s1" = None)
    by (vm_compute; reflexivity).
  assert (Hjoined : joined = (joined.1.1, joined.1.2, Ws.Success))
    by (vm_compute; reflexivity).
  exists joined.1.1, joined.1.2. split; [exact Hjoined|].
  exact (Hjoin example_Stream_findById rtmp_idle 5 "B" st1 _ _ Hnone Hjoined).
Defined.

(** On the example: alice leaves, the room goes; bob joins and is alone. *)
Example leave_then_join :
  let st1 := (Ws.on_leave_stream "A" "s1" ws_alice_joined).1 in
  let st2 := ws_after [(1, Ws.Authenticate "A" (Some "token-u1")); (2, Ws.JoinStream "A" "s1");
                       (3, Ws.LeaveStream "A" "s1");
                       (4, Ws.Authenticate "B" (Some "token-u2"));
                       (5, Ws.JoinStream "B" "s1")] in
  Ws.roomSubscribers st1 !! "stream:s1" = None
  ∧ elements (Ws.members st2 "stream:s1") = ["B"]
  ∧ Ws.getViewerCount st2 "s1" = 1%nat.
Proof. cbn zeta. repeat split; vm_compute; reflexivity. Qed.

(** ** Chat messages and reactions *)

Lemma handleChatMessage_unauthenticated (now : Z) (sid streamId : string)
    (message : Js.jsstring) (st : Ws.state) :
  Ws.sock_user (Ws.the_socket st sid) = None →
  Ws.handleChatMessage now sid streamId message st = (st, [], Ws.Failure "Not authenticated").
Proof. intros Hu. unfold Ws.handleChatMessage. rewrite Hu. reflexivity. Qed.

(** C6, as the code has it.  For a chat message of an authenticated
    socket: it fails with "Message cannot be empty" exactly when the text
    is empty or white space only; otherwise it fails with "Not in the
    stream room" exactly when the socket has not joined the room of the
    stream; and exactly when both tests pass the message, stamped with the
    sender and the time, is emitted to the room and returned.  Nothing is
    emitted otherwise, and the state never changes. *)
Theorem handleChatMessage_checks (now : Z) (sid streamId : string) (message : Js.jsstring)
    (st : Ws.state) (u : user) :
  Ws.sock_user (Ws.the_socket st sid) = Some u →
  let room := Ws.roomName streamId in
  let joined := room ∈ Ws.sock_rooms (Ws.the_socket st sid) in
  let res := Ws.handleChatMessage now sid streamId message st in
  res.1.1 = st
  ∧ (res.2 = Ws.Failure "Message cannot be empty" ↔ Js.blank message = true)
  ∧ (res.2 = Ws.Failure "Not in the stream room" ↔ Js.blank message = false ∧ ¬ joined)
  ∧ (res.2 = Ws.SuccessMessage (stamped now u message) ↔ Js.blank message = false ∧ joined)
  ∧ res.1.2 = (if decide (Js.blank message = false ∧ joined)
               then [Ws.emit (Ws.sockets st) (Ws.ToRoom room)
                       (Ws.ChatMessage (stamped now u message))]
               else []).
Proof.
  intros Hu room joined res. subst res joined. unfold Ws.handleChatMessage.
  rewrite Hu, message_test_blank. fold room.
  destruct (Js.blank message) eqn:Hblank; cbn.
  - split; [reflexivity|]. split; [done|]. split; [split; [done|intros [? _]; done]|].
    split; [split; [done|intros [? _]; done]|].
    rewrite decide_False; [reflexivity|]. intros [? _]. done.
  - destruct (bool_decide (room ∈ Ws.sock_rooms (Ws.the_socket st sid))) eqn:Hjoined; cbn.
    + apply bool_decide_eq_true in Hjoined.
      split; [reflexivity|]. split; [done|]. split; [split; [done|intros [_ ?]; done]|].
      split; [done|]. rewrite decide_True by done. reflexivity.
    + apply bool_decide_eq_false in Hjoined.
      split; [reflexivity|]. split; [done|]. split; [done|].
      split; [split; [done|intros [_ ?]; done]|].
      rewrite decide_False; [reflexivity|]. intros [_ ?]. done.
Qed.

Lemma handleChatMessage_checks_witness :
  Ws.sock_user (Ws.the_socket ws_two_viewers "A") = Some alice
  ∧ let res := Ws.handleChatMessage 9 "A" "s1" (Js.of_string " hello ") ws_two_viewers in
    res.2 = Ws.SuccessMessage (stamped 9 alice (Js.of_string " hello "))
    ∧ res.1.2 = [Ws.emit (Ws.sockets ws_two_viewers) (Ws.ToRoom (Ws.roomName "s1"))
                   (Ws.ChatMessage (stamped 9 alice (Js.of_string " hello ")))].
Proof.
  assert (Hu : Ws.sock_user (Ws.the_socket ws_two_viewers "A") = Some alice)
    by (vm_compute; reflexivity).
  assert (Hjoined : Js.blank (Js.of_string " hello ") = false
                    ∧ Ws.roomName "s1" ∈ Ws.sock_rooms (Ws.the_socket ws_two_viewers "A")).
  { split; [reflexivity|]. apply (bool_decide_unpack _). vm_compute. exact I. }
  destruct (handleChatMessage_checks 9 "A" "s1" (Js.of_string " hello ") ws_two_viewers alice Hu)
    as (_ & _ & _ & Hsuccess & Hout).
  split; [exact Hu|]. split.
  - apply Hsuccess, Hjoined.
  - rewrite Hout. rewrite decide_True by exact Hjoined. reflexivity.
Defined.

(** C6, as the claim states it, fails: a socket that has not
    authenticated sends an empty text and one of white space; the answer
    is not the error of the validation. *)
Lemma handleChatMessage_checks_counterexample :
  Js.blank [] = true
  ∧ Ws.handleChatMessage 9 "X" "s1" [] Ws.init = (Ws.init, [], Ws.Failure "Not authenticated")
  ∧ Js.blank (Js.of_string "   ") = true
  ∧ Ws.handleChatMessage 9 "X" "s1" (Js.of_string "   ") ws_two_viewers
    = (ws_two_viewers, [], Ws.Failure "Not authenticated").
Proof. repeat split; vm_compute; reflexivity. Qed.

(** When the tests pass: the chat message goes once to the sockets that
    have joined the room, the reaction once to the others among them. *)
Lemma fan_out_when_joined (now : Z) (sid streamId reaction : string)
    (message : Js.jsstring) (st : Ws.state) (u : user) :
  Ws.sock_user (Ws.the_socket st sid) = Some u →
  Ws.roomName streamId ∈ Ws.sock_rooms (Ws.the_socket st sid) →
  let room := Ws.roomName streamId in
  (Js.blank message = false →
   Ws.handleChatMessage now sid streamId message st
   = (st, [Ws.mkEmission (Ws.ToRoom room) (Ws.in_room (Ws.sockets st) room)
             (Ws.ChatMessage (stamped now u message))],
      Ws.SuccessMessage (stamped now u message)))
  ∧ Ws.handleReaction now sid streamId reaction st
    = (st, [Ws.mkEmission (Ws.ToRoomExcept room sid)
              (Ws.in_room (Ws.sockets st) room ∖ {[sid]})
              (Ws.Reaction (user_id u) (username u) reaction now)],
       Ws.Success).
Proof.
  intros Hu Hjoined room. split.
  - intros Hblank. unfold Ws.handleChatMessage.
    rewrite Hu, message_test_blank, Hblank. fold room.
    rewrite bool_decide_eq_true_2 by exact Hjoined. reflexivity.
  - unfold Ws.handleReaction. rewrite Hu. fold room.
    rewrite bool_decide_eq_true_2 by exact Hjoined. reflexivity.
Qed.

(** A chat message or a reaction succeeds only for a socket that is
    authenticated and has joined the room. *)
Lemma handleChatMessage_success (now : Z) (sid streamId : string) (message : Js.jsstring)
    (st : Ws.state) (m : Ws.chat_message) :
  (Ws.handleChatMessage now sid streamId message st).2 = Ws.SuccessMessage m →
  ∃ u, Ws.sock_user (Ws.the_socket st sid) = Some u
       ∧ Js.blank message = false
       ∧ Ws.roomName streamId ∈ Ws.sock_rooms (Ws.the_socket st sid)
       ∧ m = stamped now u message.
Proof.
  unfold Ws.handleChatMessage.
  destruct (Ws.sock_user (Ws.the_socket st sid)) as [u|]; [|discriminate].
  rewrite message_test_blank. destruct (Js.blank message); [discriminate|].
  destruct (bool_decide (Ws.roomName streamId ∈ Ws.sock_rooms (Ws.the_socket st sid)))
    eqn:Hjoined; [|discriminate].
  cbn. intros [= <-]. exists u. apply bool_decide_eq_true in Hjoined. done.
Qed.

Lemma handleReaction_success (now : Z) (sid streamId reaction : string) (st : Ws.state) :
  (Ws.handleReaction now sid streamId reaction st).2 = Ws.Success →
  ∃ u, Ws.sock_user (Ws.the_socket st sid) = Some u
       ∧ Ws.roomName streamId ∈ Ws.sock_rooms (Ws.the_socket st sid).
Proof.
  unfold Ws.handleReaction.
  destruct (Ws.sock_user (Ws.the_socket st sid)) as [u|]; [|discriminate].
  destruct (bool_decide (Ws.roomName streamId ∈ Ws.sock_rooms (Ws.the_socket st sid)))
    eqn:Hjoined; [|discriminate].
  intros _. exists u. apply bool_decide_eq_true in Hjoined. done.
Qed.

(** C7.  A chat message that succeeds is emitted once, to the sockets that
    have joined the room of the stream, and the sender is one of them; a
    reaction that succeeds is emitted once, to the sockets that have
    joined the room other than the sender. *)
Theorem chat_and_reaction_fan_out (now : Z) (sid streamId reaction : string)
    (message : Js.jsstring) (st : Ws.state) :
  let room := Ws.roomName streamId in
  let joined s := ∃ sock, Ws.sockets st !! s = Some sock ∧ room ∈ Ws.sock_rooms sock in
  (∀ m,
     (Ws.handleChatMessage now sid streamId message st).2 = Ws.SuccessMessage m →
     ∃ to,
       (Ws.handleChatMessage now sid streamId message st).1.2
       = [Ws.mkEmission (Ws.ToRoom room) to (Ws.ChatMessage m)]
       ∧ sid ∈ to
       ∧ ∀ s, s ∈ to ↔ joined s)
  ∧ ((Ws.handleReaction now sid streamId reaction st).2 = Ws.Success →
     ∃ to u,
       (Ws.handleReaction now sid streamId reaction st).1.2
       = [Ws.mkEmission (Ws.ToRoomExcept room sid) to
            (Ws.Reaction (user_id u) (username u) reaction now)]
       ∧ joined sid
       ∧ (sid ∉ to)
       ∧ ∀ s, s ∈ to ↔ s ≠ sid ∧ joined s).
Proof.
  intros room joined. split.
  - intros m (u & Hu & Hblank & Hjoined & ->)%handleChatMessage_success.
    destruct (fan_out_when_joined now sid streamId reaction message st u Hu Hjoined)
      as [Hchat _].
    rewrite (Hchat Hblank). cbn. exists (Ws.in_room (Ws.sockets st) room).
    split; [reflexivity|]. split.
    + apply in_room_the_socket, Hjoined.
    + intros s. apply elem_of_in_room.
  - intros (u & Hu & Hjoined)%handleReaction_success.
    destruct (fan_out_when_joined now sid streamId reaction message st u Hu Hjoined)
      as [_ Hreaction].
    rewrite Hreaction. cbn. exists (Ws.in_room (Ws.sockets st) room ∖ {[sid]}), u.
    split; [reflexivity|]. split; [|split].
    + apply elem_of_in_room, in_room_the_socket, Hjoined.
    + set_solver.
    + intros s. rewrite elem_of_difference, elem_of_in_room, elem_of_singleton.
      unfold joined. tauto.
Qed.

Lemma chat_and_reaction_fan_out_witness :
  (Ws.handleChatMessage 9 "A" "s1" (Js.of_string "hello") ws_two_viewers).2
  = Ws.SuccessMessage (stamped 9 alice (Js.of_string "hello"))
  ∧ (Ws.handleReaction 9 "A" "s1" "heart" ws_two_viewers).2 = Ws.Success
  ∧ (∃ to,
       (Ws.handleChatMessage 9 "A" "s1" (Js.of_string "hello") ws_two_viewers).1.2
       = [Ws.mkEmission (Ws.ToRoom (Ws.roomName "s1")) to
            (Ws.ChatMessage (stamped 9 alice (Js.of_string "hello")))]
       ∧ "A" ∈ to)
  ∧ (∃ to u,
       (Ws.handleReaction 9 "A" "s1" "heart" ws_two_viewers).1.2
       = [Ws.mkEmission (Ws.ToRoomExcept (Ws.roomName "s1") "A") to
            (Ws.Reaction (user_id u) (username u) "heart" 9)]
       ∧ "A" ∉ to).
Proof.
  assert (Hchat : (Ws.handleChatMessage 9 "A" "s1" (Js.of_string "hello") ws_two_viewers).2
                  = Ws.SuccessMessage (stamped 9 alice (Js.of_string "hello")))
    by (vm_compute; reflexivity).
  assert (Hreaction : (Ws.handleReaction 9 "A" "s1" "heart" ws_two_viewers).2 = Ws.Success)
    by (vm_compute; reflexivity).
  destruct (chat_and_reaction_fan_out 9 "A" "s1" "heart" (Js.of_string "hello") ws_two_viewers)
    as [H1 H2].
  destruct (H1 _ Hchat) as (to1 & Hout1 & Hin & _).
  destruct (H2 Hreaction) as (to2 & u & Hout2 & _ & Hnotin & _).
  split; [exact Hchat|]. split; [exact Hreaction|]. split.
  - exists to1. split; [exact Hout1|exact Hin].
  - exists to2, u. split; [exact Hout2|exact Hnotin].
Defined.

(** On the example the chat message of alice reaches alice and bob, her
    reaction reaches bob only; carol, who has not joined, gets neither. *)
Example fan_out_two_viewers :
  (elements ∘ Ws.em_to) <$> (Ws.handleChatMessage 9 "A" "s1" (Js.of_string "hello")
                               ws_two_viewers).1.2 = [["A"; "B"]]
  ∧ (elements ∘ Ws.em_to) <$> (Ws.handleReaction 9 "A" "s1" "heart" ws_two_viewers).1.2
    = [["B"]].
Proof. split; vm_compute; reflexivity. Qed.

(** In the states the server gets into, the sockets that have joined a
    room are the subscribers the table has for it. *)
Lemma in_room_members (st : Ws.state) (room : string) :
  reachable st → Ws.in_room (Ws.sockets st) room = Ws.members st room.
Proof.
  intros (_ & Hagree & _)%reachable_invariant. apply set_eq. intros sid.
  rewrite in_room_the_socket. symmetry. apply Hagree.
Qed.

(** ** Access to a private stream *)

(** On a private stream, [handleJoinStream] lets in the owner and the
    admins, and nobody else. *)
Lemma handleJoinStream_private (Stream_findById : string → option stream_doc)
    (rtmpServer : Rtmp.state) (now : Z) (sid streamId : string) (st : Ws.state)
    (u : user) (stream : stream_doc) :
  Ws.sock_user (Ws.the_socket st sid) = Some u →
  Stream_findById streamId = Some stream →
  isPrivate stream = true →
  let res := Ws.handleJoinStream Stream_findById rtmpServer now sid streamId st in
  (res.2 = Ws.Success ↔ stream_user stream = user_id u ∨ user_role u = RoleAdmin)
  ∧ (res.2 ≠ Ws.Success → res = (st, [], Ws.Failure "Access to private stream denied")).
Proof.
  intros Hu Hstream Hprivate res. subst res. unfold Ws.handleJoinStream.
  rewrite Hu, Hstream, Hprivate. cbn [andb].
  destruct (bool_decide (stream_user stream ≠ user_id u)) eqn:Howner;
    [destruct (bool_decide (user_role u ≠ RoleAdmin)) eqn:Hadmin|]; cbn.
  - apply bool_decide_eq_true in Howner, Hadmin.
    split; [|reflexivity]. split; [discriminate|]. intros [?|?]; contradiction.
  - apply bool_decide_eq_false in Hadmin. apply dec_stable in Hadmin.
    split; [|intros H; contradiction H; reflexivity]. split; [auto|reflexivity].
  - apply bool_decide_eq_false in Howner. apply dec_stable in Howner.
    split; [|intros H; contradiction H; reflexivity]. split; [auto|reflexivity].
Qed.

(** C4.  bob follows alice and is neither the owner of her private stream
    ["s2"] nor an admin.  His join of the room of ["s2"] is refused with
    "Access to private stream denied", and nothing changes: the test of
    [handleJoinStream] knows the owner and the admins only. *)
Theorem private_join_refuses_follower :
  user_id bob ∈ followers alice
  ∧ example_User_findById (stream_user (mkStream "s2" "u1" "Members only" "K1-private"
                                          true 1000 None)) = Some alice
  ∧ example_Stream_findById "s2"
    = Some (mkStream "s2" "u1" "Members only" "K1-private" true 1000 None)
  ∧ Ws.sock_user (Ws.the_socket ws_two_viewers "B") = Some bob
  ∧ Ws.handleJoinStream example_Stream_findById rtmp_private 9 "B" "s2" ws_two_viewers
    = (ws_two_viewers, [], Ws.Failure "Access to private stream denied").
Proof.
  split; [|split; [|split; [|split]]].
  - apply (bool_decide_unpack _). vm_compute. exact I.
  - vm_compute. reflexivity.
  - vm_compute. reflexivity.
  - vm_compute. reflexivity.
  - vm_compute. reflexivity.
Qed.

(** ** The requests of two viewers *)

Lemma viewer_count_is_cardinality_witness :
  let st := ws_alice_joined in
  let st1 := (Ws.on_authenticate example_jwt example_User_findById 3 "B"
                (Some "token-u2") st).1.1 in
  let joined := Ws.handleJoinStream example_Stream_findById rtmp_idle 4 "B" "s1" st1 in
  joined.2 = Ws.Success
  ∧ size (Ws.members joined.1.1 (Ws.roomName "s1")) = 2%nat
  ∧ Ws.emit (Ws.sockets joined.1.1) (Ws.ToRoom (Ws.roomName "s1"))
            (Ws.ViewerCount (size (Ws.members joined.1.1 (Ws.roomName "s1"))))
    ∈ joined.1.2
  ∧ (Ws.on_leave_stream "A" "s1" st).2
    = [Ws.emit (Ws.sockets (Ws.on_leave_stream "A" "s1" st).1) (Ws.ToRoom (Ws.roomName "s1"))
         (Ws.ViewerCount (size (Ws.members (Ws.on_leave_stream "A" "s1" st).1
                                  (Ws.roomName "s1"))))]
  ∧ Forall (count_ok (Ws.on_disconnect 5 "A" st).1) (Ws.on_disconnect 5 "A" st).2.
Proof.
  intros st st1 joined.
  destruct (viewer_count_is_cardinality example_jwt example_User_findById
              example_Stream_findById rtmp_idle 4 st1)
    as (_ & Hjoin & _ & _).
  destruct (viewer_count_is_cardinality example_jwt example_User_findById
              example_Stream_findById rtmp_idle 5 st)
    as (Hstep & _ & Hleave & _).
  assert (Hjoined : joined = (joined.1.1, joined.1.2, Ws.Success))
    by (vm_compute; reflexivity).
  split; [vm_compute; reflexivity|]. split; [vm_compute; reflexivity|].
  split; [|split].
  - exact (Hjoin "B" "s1" _ _ Hjoined).
  - apply (Hleave "A" "s1"). eexists. vm_compute. reflexivity.
  - exact (Hstep (Ws.Disconnect "A")).
Defined.

(** * Further properties of the recording service *)

(** What a first [startRecording] on a key leaves. *)
Lemma startRecording_started (recordingId timestamp : string) (now : Z)
    (streamKey userId : string) (st : Recording.state) :
  Recording.recordings st !! streamKey = None →
  ∃ r, Recording.startRecording recordingId timestamp now streamKey userId st
       = (true,
          Recording.mkState (<[streamKey := r]> (Recording.recordings st))
            (Recording.started st ++ [Recording.rec_command r]) (Recording.quit st))
       ∧ Recording.rec_streamKey r = streamKey
       ∧ Recording.cmd_input (Recording.rec_command r) = "rtmp://localhost/live/" +:+ streamKey
       ∧ Recording.ffmpegProc (Recording.rec_command r) = false.
Proof.
  intros Hnone. unfold Recording.startRecording.
  destruct (decide (is_Some (Recording.recordings st !! streamKey))) as [[r Hr]|_];
    [congruence|].
  eexists (Recording.mkRecording _ _ _ _ _ _ _). repeat split; reflexivity.
Qed.

(** X1.  A recording can be stopped only once ffmpeg has spawned its
    process.  After [startRecording] on a stream key that has no
    recording, which answers [true], a [stopRecording] at once throws a
    [TypeError] and leaves the entry.  Once the process has been spawned,
    starting and stopping is a round trip on the table: the stop answers
    [true], the table of recordings is the one before the start, the
    command that is sent ['q'] is the one that was started, no recording
    of another key is touched, and a further stop answers [false] and
    changes nothing. *)
Theorem start_stop_round_trip (recordingId timestamp : string) (now : Z)
    (streamKey userId : string) (st : Recording.state) :
  Recording.recordings st !! streamKey = None →
  let started := Recording.startRecording recordingId timestamp now streamKey userId st in
  let running := Recording.on_start streamKey started.2 in
  let stopped := Recording.stopRecording streamKey running in
  started.1 = true
  ∧ Recording.stopRecording streamKey started.2
    = (Throw "Cannot read properties of undefined (reading 'stdin')", started.2)
  ∧ stopped.1 = Ok true
  ∧ Recording.recordings stopped.2 = Recording.recordings st
  ∧ (∃ c, Recording.started stopped.2 = Recording.started st ++ [c]
          ∧ Recording.quit stopped.2 = Recording.quit st ++ [Recording.with_proc c]
          ∧ Recording.cmd_input c = "rtmp://localhost/live/" +:+ streamKey)
  ∧ (∀ other, other ≠ streamKey →
              Recording.recordings started.2 !! other = Recording.recordings st !! other
              ∧ Recording.recordings running !! other = Recording.recordings st !! other)
  ∧ Recording.stopRecording streamKey stopped.2 = (Ok false, stopped.2).
Proof.
  intros Hnone started running stopped.
  destruct (startRecording_started recordingId timestamp now streamKey userId st Hnone)
    as (r & Hstart & _ & Hinput & Hproc).
  fold started in Hstart.
  assert (Hrun : running
                 = Recording.mkState
                     (<[streamKey := Recording.mkRecording (Recording.rec_id r)
                                       (Recording.rec_streamKey r) (Recording.rec_userId r)
                                       (Recording.rec_filename r) (Recording.rec_path r)
                                       (Recording.rec_startTime r)
                                       (Recording.with_proc (Recording.rec_command r))]>
                        (Recording.recordings st))
                     (Recording.started st ++ [Recording.rec_command r])
                     (Recording.quit st)).
  { subst running. rewrite Hstart. unfold Recording.on_start. cbn.
    rewrite lookup_insert_eq. cbn. rewrite insert_insert_eq. reflexivity. }
  assert (Hstop : stopped
                  = (Ok true,
                     Recording.mkState (Recording.recordings st)
                       (Recording.started st ++ [Recording.rec_command r])
                       (Recording.quit st
                          ++ [Recording.with_proc (Recording.rec_command r)]))).
  { subst stopped. rewrite Hrun. unfold Recording.stopRecording. cbn.
    rewrite lookup_insert_eq. cbn. rewrite delete_insert_eq, (delete_id _ _ Hnone).
    reflexivity. }
  rewrite Hstop, Hrun, Hstart. cbn.
  split; [reflexivity|]. split.
  { unfold Recording.stopRecording. cbn. rewrite lookup_insert_eq, Hproc. reflexivity. }
  split; [reflexivity|]. split; [reflexivity|].
  split; [exists (Recording.rec_command r); done|].
  split; [intros other Hne; split; apply lookup_insert_ne; congruence|].
  unfold Recording.stopRecording. cbn. rewrite Hnone. reflexivity.
Qed.

Lemma start_stop_round_trip_witness :
  Recording.recordings Recording.init !! "K1" = None
  ∧ Recording.stopRecording "K1" recording_K1
    = (Throw "Cannot read properties of undefined (reading 'stdin')", recording_K1)
  ∧ (Recording.stopRecording "K1" (Recording.on_start "K1" recording_K1)).1 = Ok true
  ∧ Recording.recordings (Recording.stopRecording "K1" (Recording.on_start "K1" recording_K1)).2
    = Recording.recordings Recording.init.
Proof.
  assert (Hnone : Recording.recordings Recording.init !! "K1" = None) by reflexivity.
  destruct (start_stop_round_trip "r-1" "2024-01-01T00-00-00-000Z" 1000 "K1" "u1"
              Recording.init Hnone)
    as (_ & Hearly & Hstop & Htable & _).
  split; [exact Hnone|]. split; [exact Hearly|]. split; [exact Hstop|exact Htable].
Defined.

Lemma recordings_consistent_init : recordings_consistent Recording.init.
Proof.
  split; [|split].
  - intros streamKey r Hr. cbn in Hr. rewrite lookup_empty in Hr. discriminate.
  - intros c Hc. cbn in Hc. apply elem_of_nil in Hc. contradiction.
  - cbn. rewrite map_size_empty. reflexivity.
Qed.

Lemma size_delete_le (streamKey : string) (m : gmap string Recording.recording) :
  (size (delete streamKey m) ≤ size m)%nat.
Proof.
  destruct (m !! streamKey) as [r|] eqn:Hr.
  - rewrite <- (insert_delete_id m streamKey r Hr) at 2.
    rewrite map_size_insert_None by apply lookup_delete_eq. lia.
  - rewrite delete_id by exact Hr. lia.
Qed.

Lemma stopRecording_consistent (streamKey : string) (st : Recording.state) :
  recordings_consistent st → recordings_consistent (Recording.stopRecording streamKey st).2.
Proof.
  intros Hst. pose proof Hst as (Hkeys & Hquit & Hcount). unfold Recording.stopRecording.
  destruct (Recording.recordings st !! streamKey) as [r|] eqn:Hr; [|exact Hst].
  destruct (Recording.ffmpegProc (Recording.rec_command r)) eqn:Hproc; [|exact Hst].
  split; [|split]; cbn [snd Recording.recordings Recording.started Recording.quit].
  - intros k r' [Hne Hr']%lookup_delete_Some. apply (Hkeys k r' Hr').
  - intros c [Hc|Hc%list_elem_of_singleton]%elem_of_app; [apply Hquit, Hc|].
    subst c. split; [exact Hproc|]. apply (Hkeys _ _ Hr).
  - assert (Hsize : size (Recording.recordings st)
                    = S (size (delete streamKey (Recording.recordings st)))).
    { rewrite <- (insert_delete_id (Recording.recordings st) streamKey r Hr) at 1.
      apply map_size_insert_None, lookup_delete_eq. }
    rewrite length_app. cbn. lia.
Qed.

Lemma recording_step_consistent (c : recording_call) (st : Recording.state) :
  recordings_consistent st → recordings_consistent (recording_step c st).
Proof.
  intros Hst. pose proof Hst as (Hkeys & Hquit & Hcount).
  destruct c as [recordingId timestamp now streamKey userId|streamKey|streamKey
                |streamKey|streamKey]; cbn [recording_step].
  - unfold Recording.startRecording.
    destruct (decide (is_Some (Recording.recordings st !! streamKey))) as [Hsome|Hnone];
      [exact Hst|].
    assert (Hfresh : Recording.recordings st !! streamKey = None).
    { destruct (Recording.recordings st !! streamKey) eqn:H; [|reflexivity].
      exfalso. apply Hnone. eauto. }
    split; [|split]; cbn [snd Recording.recordings Recording.started Recording.quit].
    + intros k r [[<- <-]|[Hne Hr]]%lookup_insert_Some;
        cbn [Recording.rec_streamKey Recording.rec_command Recording.cmd_input].
      * split; [reflexivity|]. split; [reflexivity|].
        apply elem_of_app. right. apply list_elem_of_singleton. reflexivity.
      * destruct (Hkeys k r Hr) as (? & ? & ?). split; [done|]. split; [done|].
        apply elem_of_app. by left.
    + intros c Hc. destruct (Hquit c Hc) as [? ?]. split; [done|].
      apply elem_of_app. by left.
    + rewrite map_size_insert_None by exact Hfresh. rewrite length_app. cbn. lia.
  - apply stopRecording_consistent, Hst.
  - unfold Recording.on_start.
    destruct (Recording.recordings st !! streamKey) as [r|] eqn:Hr; [|exact Hst].
    split; [|split]; cbn [Recording.recordings Recording.started Recording.quit].
    + intros k r' [[<- <-]|[Hne Hr']]%lookup_insert_Some; [|apply (Hkeys k r' Hr')].
      cbn. apply (Hkeys _ _ Hr).
    + exact Hquit.
    + rewrite map_size_insert_Some by (rewrite Hr; eauto). exact Hcount.
  - apply stopRecording_consistent, Hst.
  - unfold Recording.on_end.
    split; [|split]; cbn [Recording.recordings Recording.started Recording.quit].
    + intros k r' [Hne Hr']%lookup_delete_Some. apply (Hkeys k r' Hr').
    + exact Hquit.
    + pose proof (size_delete_le streamKey (Recording.recordings st)). lia.
Qed.

(** X2.  Whatever sequence of [startRecording] and [stopRecording] calls
    and of events of the ffmpeg commands (the process is spawned,
    ['error'], ['end']) the service gets from its first state, every
    recording of the table is stored under its own stream key, reads the
    RTMP url of that key and holds a command that was started; ['q'] was
    sent only to commands that were started and whose process had been
    spawned; and the recordings of the table and the commands sent ['q']
    are together at most as many as the commands started. *)
Theorem recording_calls_consistent (calls : list recording_call) :
  recordings_consistent (recording_run calls Recording.init).
Proof.
  assert (H : ∀ st, recordings_consistent st → recordings_consistent (recording_run calls st)).
  { induction calls as [|c calls IH]; intros st Hst; cbn.
    - exact Hst.
    - apply IH, recording_step_consistent, Hst. }
  apply H, recordings_consistent_init.
Qed.

(** An ['end'] drops a recording that was never sent ['q'], and an
    ['error'] before the process was spawned leaves the recording in the
    table, where it keeps the key taken. *)
Example recording_events_example :
  let ended := recording_run [FfmpegStart "K1"; FfmpegEnd "K1"] recording_K1 in
  let failed := recording_run [FfmpegError "K1"] recording_K1 in
  Recording.recordings ended = ∅
  ∧ Recording.quit ended = []
  ∧ length (Recording.started ended) = 1%nat
  ∧ failed = recording_K1
  ∧ (Recording.startRecording "r-2" "2024-01-01T00-00-05-000Z" 6000 "K1" "u1" failed).1
    = false.
Proof. vm_compute. repeat split; reflexivity. Qed.

(** * Further properties of the RTMP server *)

(** ** The stream key of a path *)

Lemma append_cons (x : ascii) (a b : string) : String x a +:+ b = String x (a +:+ b).
Proof. reflexivity. Qed.

Lemma append_assoc (a b c : string) : (a +:+ b) +:+ c = a +:+ (b +:+ c).
Proof.
  induction a as [|x a IH]; [reflexivity|]. rewrite !append_cons, IH. reflexivity.
Qed.

Lemma append_empty_r (a : string) : a +:+ "" = a.
Proof.
  induction a as [|x a IH]; [reflexivity|]. rewrite append_cons, IH. reflexivity.
Qed.

Lemma has_slash_append (a b : string) :
  has_slash (a +:+ b) = has_slash a || has_slash b.
Proof.
  induction a as [|x a IH]; [reflexivity|].
  rewrite append_cons. simpl. rewrite IH. apply orb_assoc.
Qed.

Lemma last_part_no_slash (s acc : string) :
  has_slash s = false → Rtmp.last_part s acc = acc +:+ s.
Proof.
  revert acc. induction s as [|c s IH]; intros acc Hs; simpl in *.
  - symmetry. apply append_empty_r.
  - apply orb_false_iff in Hs as [Hc Hs]. apply bool_decide_eq_false in Hc.
    destruct (decide (c = "/"%char)); [contradiction|].
    rewrite IH by exact Hs. rewrite append_assoc. reflexivity.
Qed.

Lemma last_part_has_no_slash (s acc : string) :
  has_slash acc = false → has_slash (Rtmp.last_part s acc) = false.
Proof.
  revert acc. induction s as [|c s IH]; intros acc Hacc; simpl.
  - exact Hacc.
  - destruct (decide (c = "/"%char)) as [->|Hc].
    + apply IH. reflexivity.
    + apply IH. rewrite has_slash_append, Hacc. simpl.
      rewrite bool_decide_eq_false_2 by exact Hc. reflexivity.
Qed.

Lemma last_part_after_slash (front key acc : string) :
  has_slash key = false → Rtmp.last_part (front +:+ "/" +:+ key) acc = key.
Proof.
  intros Hkey. revert acc. induction front as [|c front IH]; intros acc.
  - change (Rtmp.last_part key "" = key). apply (last_part_no_slash key ""), Hkey.
  - rewrite append_cons. simpl. destruct (decide (c = "/"%char)); apply IH.
Qed.

(** X3.  [extractStreamKey] gives the part of the path after its last
    ['/']: the result has no ['/']; a path that ends in ['/'] and a key
    without ['/'] gives that key, whatever is in front; a path without
    ['/'] is its own key; and extracting twice is extracting once. *)
Theorem extractStreamKey_last_part (streamPath : string) :
  has_slash (Rtmp.extractStreamKey streamPath) = false
  ∧ (∀ front key,
       has_slash key = false → Rtmp.extractStreamKey (front +:+ "/" +:+ key) = key)
  ∧ (has_slash streamPath = false → Rtmp.extractStreamKey streamPath = streamPath)
  ∧ Rtmp.extractStreamKey (Rtmp.extractStreamKey streamPath)
    = Rtmp.extractStreamKey streamPath.
Proof.
  assert (Hnone : has_slash (Rtmp.extractStreamKey streamPath) = false)
    by (apply last_part_has_no_slash; reflexivity).
  split; [exact Hnone|]. split; [|split].
  - intros front key Hkey. apply last_part_after_slash, Hkey.
  - intros Hpath. apply (last_part_no_slash streamPath ""), Hpath.
  - apply (last_part_no_slash _ ""), Hnone.
Qed.

Example extractStreamKey_examples :
  Rtmp.extractStreamKey "/live/K1" = "K1"
  ∧ Rtmp.extractStreamKey "K1" = "K1"
  ∧ Rtmp.extractStreamKey "/live/" = ""
  ∧ Rtmp.extractStreamKey "" = "".
Proof. repeat split; reflexivity. Qed.

(** ** Who is let in *)

Lemma authenticateUser_cases (jwt_verify : string → result string) (a : Rtmp.args)
    (st : Rtmp.state) :
  Rtmp.authenticateUser jwt_verify a st = (Ok (user_of_args jwt_verify a st), st).
Proof.
  unfold Rtmp.authenticateUser, user_of_args, Rtmp.try_catch.
  destruct (Rtmp.as_truthy _) as [token|]; [|reflexivity].
  unfold Rtmp.bind, Rtmp.lift, Rtmp.gets.
  destruct (jwt_verify token); reflexivity.
Qed.

(** X4.  [authenticateUser] never throws and never changes the state: a
    missing or empty token, a token that does not verify and a user that
    is not in the collection all give [null]; it gives a user exactly when
    the token of the arguments (the one of the headers when there is none)
    verifies to the id of a user of the collection. *)
Theorem authenticateUser_total (jwt_verify : string → result string) (a : Rtmp.args)
    (st : Rtmp.state) :
  ∃ found,
    Rtmp.authenticateUser jwt_verify a st = (Ok found, st)
    ∧ ∀ u, found = Some u ↔
           ∃ token id,
             Rtmp.as_truthy (Rtmp.or_else (Rtmp.arg_token a) (Rtmp.arg_headers_token a))
             = Some token
             ∧ jwt_verify token = Ok id
             ∧ Rtmp.users st !! id = Some u.
Proof.
  exists (user_of_args jwt_verify a st). split; [apply authenticateUser_cases|].
  intros u. unfold user_of_args.
  destruct (Rtmp.as_truthy _) as [token|].
  - destruct (jwt_verify token) as [id|error] eqn:Hjwt.
    + split.
      * intros Hu. exists token, id. done.
      * intros (token' & id' & [= <-] & Hjwt' & Hu). congruence.
    + split; [discriminate|]. intros (token' & id' & [= <-] & Hjwt' & _). congruence.
  - split; [discriminate|]. intros (token' & id' & [=] & _).
Qed.

(** X5.  [authenticatePublish] never throws.  When it answers [false] it
    has changed nothing; when it answers [true] the user of the token is a
    streamer or an admin whose own stream key is the one of the path, and
    it has stored, under the id of the connection, one publish session for
    that key and that user, and nothing else. *)
Theorem authenticatePublish_outcome (jwt_verify : string → result string) (now : Z)
    (id StreamPath : string) (a : Rtmp.args) (st : Rtmp.state) :
  Rtmp.authenticatePublish jwt_verify now id StreamPath a st = (Ok false, st)
  ∨ ∃ u,
      user_of_args jwt_verify a st = Some u
      ∧ (user_role u = RoleStreamer ∨ user_role u = RoleAdmin)
      ∧ user_streamKey u = Rtmp.extractStreamKey StreamPath
      ∧ Rtmp.authenticatePublish jwt_verify now id StreamPath a st
        = (Ok true,
           Rtmp.set_streamSessions
             (insert id (publisher_session now (Rtmp.extractStreamKey StreamPath) u)) st).
Proof.
  unfold Rtmp.authenticatePublish, Rtmp.try_catch, Rtmp.bind.
  rewrite authenticateUser_cases.
  destruct (user_of_args jwt_verify a st) as [u|]; [|by left].
  destruct (bool_decide (user_role u ≠ RoleStreamer) && bool_decide (user_role u ≠ RoleAdmin))
    eqn:Hrole; [by left|].
  destruct (bool_decide (user_streamKey u ≠ Rtmp.extractStreamKey StreamPath)) eqn:Hkey;
    [by left|].
  right. exists u. split; [reflexivity|].
  apply bool_decide_eq_false in Hkey. apply dec_stable in Hkey.
  split; [|split; [exact Hkey|reflexivity]].
  apply andb_false_iff in Hrole as [H%bool_decide_eq_false|H%bool_decide_eq_false];
    apply dec_stable in H; auto.
Qed.

(** [authenticateViewer] reads only. *)
Lemma authenticateViewer_unchanged (jwt_verify : string → result string)
    (streamKey : string) (token : option string) (st : Rtmp.state) :
  (Rtmp.authenticateViewer jwt_verify streamKey token st).2 = st.
Proof.
  unfold Rtmp.authenticateViewer. rewrite try_catch_rethrow.
  unfold Rtmp.bind, Rtmp.gets, Rtmp.lift, Rtmp.throw, Rtmp.ret. cbn.
  repeat case_match; reflexivity.
Qed.

(** X6.  Playing needs no token on a public stream and changes nothing
    in any case: [authenticateViewer] leaves the state as it was; for a
    stream that is not private it returns the stream without user,
    whatever the token; for a key without record it throws "Stream not
    found"; on a private stream without token it throws "Authentication
    required for private stream".  The ['prePlay'] handler rejects the
    connection exactly when [authenticateViewer] throws, and does nothing
    else. *)
Theorem authenticateViewer_public (jwt_verify : string → result string)
    (id StreamPath : string) (a : Rtmp.args) (st : Rtmp.state) :
  let streamKey := Rtmp.extractStreamKey StreamPath in
  let token := Rtmp.arg_token a in
  (Rtmp.authenticateViewer jwt_verify streamKey token st).2 = st
  ∧ match Rtmp.streams st !! streamKey with
    | None =>
        Rtmp.authenticateViewer jwt_verify streamKey token st = (Throw "Stream not found", st)
    | Some stream =>
        if isPrivate stream
        then Rtmp.as_truthy token = None →
             Rtmp.authenticateViewer jwt_verify streamKey token st
             = (Throw "Authentication required for private stream", st)
        else Rtmp.authenticateViewer jwt_verify streamKey token st = (Ok (None, stream), st)
    end
  ∧ Rtmp.prePlay jwt_verify id StreamPath a st
    = (Ok (),
       match (Rtmp.authenticateViewer jwt_verify streamKey token st).1 with
       | Ok _ => st
       | Throw _ => Rtmp.add_rejected id st
       end).
Proof.
  intros streamKey token. split; [apply authenticateViewer_unchanged|]. split.
  - unfold Rtmp.authenticateViewer. rewrite try_catch_rethrow.
    unfold Rtmp.bind, Rtmp.gets. cbn.
    destruct (Rtmp.streams st !! streamKey) as [stream|]; [|reflexivity].
    destruct (isPrivate stream); cbn; [|reflexivity].
    intros ->. reflexivity.
  - unfold Rtmp.prePlay. fold streamKey token. unfold Rtmp.try_catch, Rtmp.bind.
    pose proof (authenticateViewer_unchanged jwt_verify streamKey token st) as Hsame.
    destruct (Rtmp.authenticateViewer jwt_verify streamKey token st) as [[r|e] st'];
      cbn in *; subst st'; reflexivity.
Qed.

(** [authenticateViewer] on a private stream, case by case. *)
Lemma authenticateViewer_private (jwt_verify : string → result string)
    (streamKey : string) (token : option string) (st : Rtmp.state) (stream : stream_doc) :
  Rtmp.streams st !! streamKey = Some stream →
  isPrivate stream = true →
  Rtmp.authenticateViewer jwt_verify streamKey token st
  = (Throw
       match Rtmp.as_truthy token with
       | None => "Authentication required for private stream"
       | Some t =>
           match jwt_verify t with
           | Throw error => error
           | Ok uid =>
               match Rtmp.users st !! uid with
               | None => "User not found"
               | Some u =>
                   match Rtmp.users st !! stream_user stream with
                   | None => "Cannot read properties of null (reading '_id')"
                   | Some owner => "Cannot read properties of undefined (reading 'includes')"
                   end
               end
           end
       end, st).
Proof.
  intros Hstream Hprivate.
  unfold Rtmp.authenticateViewer. rewrite try_catch_rethrow.
  unfold Rtmp.bind, Rtmp.gets, Rtmp.lift. cbn.
  rewrite Hstream, Hprivate. cbn.
  destruct (Rtmp.as_truthy token) as [t|]; [|reflexivity].
  destruct (jwt_verify t) as [uid|error]; [|reflexivity]. cbn.
  destruct (Rtmp.users st !! uid) as [u|]; [|reflexivity].
  destruct (Rtmp.users st !! stream_user stream) as [owner|]; reflexivity.
Qed.

(** X7.  Nobody gets to play a private stream.  For the key of a private
    stream [authenticateViewer] throws whatever the token is, and
    ['prePlay'] rejects the connection.  A viewer whose token verifies to
    a user of the collection gets a [TypeError] when the owner of the
    stream is found, be the viewer the owner, an admin or a follower: the
    owner is populated without [followers], on which [includes] is called
    before the three tests are looked at. *)
Theorem private_stream_play_access (jwt_verify : string → result string)
    (id StreamPath : string) (a : Rtmp.args) (st : Rtmp.state) (stream : stream_doc) :
  let streamKey := Rtmp.extractStreamKey StreamPath in
  Rtmp.streams st !! streamKey = Some stream →
  isPrivate stream = true →
  (∃ error, Rtmp.authenticateViewer jwt_verify streamKey (Rtmp.arg_token a) st
            = (Throw error, st))
  ∧ Rtmp.prePlay jwt_verify id StreamPath a st = (Ok (), Rtmp.add_rejected id st)
  ∧ (∀ t uid u owner,
       Rtmp.as_truthy (Rtmp.arg_token a) = Some t →
       jwt_verify t = Ok uid →
       Rtmp.users st !! uid = Some u →
       Rtmp.users st !! stream_user stream = Some owner →
       Rtmp.authenticateViewer jwt_verify streamKey (Rtmp.arg_token a) st
       = (Throw "Cannot read properties of undefined (reading 'includes')", st)).
Proof.
  intros streamKey Hstream Hprivate.
  pose proof (authenticateViewer_private jwt_verify streamKey (Rtmp.arg_token a) st stream
                Hstream Hprivate) as Hthrows.
  split; [eexists; exact Hthrows|]. split.
  - unfold Rtmp.prePlay. fold streamKey. unfold Rtmp.try_catch, Rtmp.bind.
    rewrite Hthrows. reflexivity.
  - intros t uid u owner Htoken Hjwt Hu Howner.
    rewrite Hthrows, Htoken, Hjwt, Hu, Howner. reflexivity.
Qed.

(** alice does not get to play her own private stream, nor does the
    admin, nor bob, who follows her. *)
Lemma private_stream_play_access_witness :
  Rtmp.streams rtmp_private !! "K1-private"
  = Some (mkStream "s2" "u1" "Members only" "K1-private" true 1000 None)
  ∧ Rtmp.authenticateViewer example_jwt "K1-private" (Some "token-u1") rtmp_private
    = (Throw "Cannot read properties of undefined (reading 'includes')", rtmp_private)
  ∧ Rtmp.authenticateViewer example_jwt "K1-private" (Some "token-u0") rtmp_private
    = (Throw "Cannot read properties of undefined (reading 'includes')", rtmp_private)
  ∧ Rtmp.authenticateViewer example_jwt "K1-private" (Some "token-u2") rtmp_private
    = (Throw "Cannot read properties of undefined (reading 'includes')", rtmp_private)
  ∧ Rtmp.prePlay example_jwt "p1" "/live/K1-private" (Rtmp.mkArgs (Some "token-u1") None)
      rtmp_private
    = (Ok (), Rtmp.add_rejected "p1" rtmp_private).
Proof.
  assert (Hstream : Rtmp.streams rtmp_private !! "K1-private"
                    = Some (mkStream "s2" "u1" "Members only" "K1-private" true 1000 None))
    by (vm_compute; reflexivity).
  assert (Howner : Rtmp.users rtmp_private !! "u1" = Some alice) by (vm_compute; reflexivity).
  split; [exact Hstream|]. split; [|split; [|split]].
  - exact (proj2 (proj2 (private_stream_play_access example_jwt "p1" "/live/K1-private"
                           (Rtmp.mkArgs (Some "token-u1") None) rtmp_private _
                           Hstream eq_refl))
             "token-u1" "u1" alice alice eq_refl eq_refl Howner Howner).
  - refine (proj2 (proj2 (private_stream_play_access example_jwt "p1" "/live/K1-private"
                            (Rtmp.mkArgs (Some "token-u0") None) rtmp_private _
                            Hstream eq_refl))
              "token-u0" "u0" root alice eq_refl eq_refl _ Howner).
    vm_compute. reflexivity.
  - refine (proj2 (proj2 (private_stream_play_access example_jwt "p1" "/live/K1-private"
                            (Rtmp.mkArgs (Some "token-u2") None) rtmp_private _
                            Hstream eq_refl))
              "token-u2" "u2" bob alice eq_refl eq_refl _ Howner).
    vm_compute. reflexivity.
  - exact (proj1 (proj2 (private_stream_play_access example_jwt "p1" "/live/K1-private"
                           (Rtmp.mkArgs (Some "token-u1") None) rtmp_private _
                           Hstream eq_refl))).
Defined.

(** ** The first publish to a key *)



(** ** From the start of a publish to its end *)

(** X9.  A publish that is let in on a record of the key and then ends
    leaves the record started and not ended.  On a server without active
    streams (the second handler of ['donePublish'] works on the keys of
    [activeStreams] only), after ['prePublish'] at [now1] and
    ['donePublish'] at [now2] the record has [startedAt] [now1] and the
    [endedAt] it had before, the key has no session, no ['stream-ended']
    was emitted, and the connection was not rejected.  Nothing else has
    changed: the [endStream] that ['donePublish'] calls has thrown
    "Stream is not live". *)
Theorem publish_then_done (jwt_verify : string → result string) (now1 now2 : Z)
    (newId id StreamPath : string) (a : Rtmp.args) (st : Rtmp.state)
    (t uid : string) (u : user) (stream : stream_doc) :
  let streamKey := Rtmp.extractStreamKey StreamPath in
  Rtmp.as_truthy (Rtmp.arg_token a) = Some t →
  jwt_verify t = Ok uid →
  Rtmp.users st !! uid = Some u →
  Rtmp.streams st !! streamKey = Some stream →
  stream_streamKey stream = streamKey →
  stream_user stream = user_id u ∨ user_role u = RoleAdmin →
  Rtmp.activeStreams st = ∅ →
  let st1 := (Rtmp.prePublish jwt_verify now1 newId id StreamPath a st).2 in
  let st2 := (Rtmp.donePublish now2 id StreamPath st1).2 in
  Rtmp.endStream now2 streamKey st1 = (Throw "Stream is not live", st1)
  ∧ st2 = Rtmp.set_streams (insert streamKey (Rtmp.start_doc now1 stream))
            (Rtmp.set_streamSessions (delete streamKey) st)
  ∧ (∃ doc, Rtmp.streams st2 !! streamKey = Some doc
            ∧ startedAt doc = now1 ∧ endedAt doc = endedAt stream
            ∧ stream_id doc = stream_id stream ∧ stream_user doc = stream_user stream)
  ∧ Rtmp.streamSessions st2 !! streamKey = None
  ∧ Rtmp.emitted st2 = Rtmp.emitted st
  ∧ Rtmp.rejected st2 = Rtmp.rejected st.
Proof.
  intros streamKey Htoken Hjwt Hu Hstream Hkey Howner _ st1 st2.
  pose proof (authenticatePublisher_owner jwt_verify now1 newId streamKey
                (Rtmp.arg_token a) st t uid u stream Htoken Hjwt Hu Hstream Howner)
    as Hauth.
  pose proof (prePublish_accepted jwt_verify now1 newId id StreamPath a st st u stream Hauth)
    as Hpre.
  fold streamKey in Hpre.
  assert (Hst1 : st1 = Rtmp.set_streams
                         (insert streamKey (Rtmp.start_doc now1 stream))
                         (Rtmp.set_streamSessions
                            (insert streamKey (publish_session now1 id a u stream)) st))
    by (subst st1; rewrite Hpre, Hkey; reflexivity).
  assert (Hstarted : Rtmp.streams st1 !! streamKey = Some (Rtmp.start_doc now1 stream))
    by (rewrite Hst1; apply lookup_insert_eq).
  assert (Hsession : is_Some (Rtmp.streamSessions st1 !! streamKey))
    by (rewrite Hst1; cbn; rewrite lookup_insert_eq; eauto).
  pose proof (donePublish_session now2 id StreamPath st1 Hsession) as Hdone.
  fold streamKey in Hdone.
  assert (Hst2 : st2 = Rtmp.set_streams (insert streamKey (Rtmp.start_doc now1 stream))
                         (Rtmp.set_streamSessions (delete streamKey) st)).
  { subst st2. rewrite Hdone, Hst1.
    unfold Rtmp.set_streamSessions, Rtmp.set_streams. cbn.
    rewrite delete_insert_eq. reflexivity. }
  split; [rewrite endStream_throws, Hstarted; reflexivity|].
  split; [exact Hst2|]. rewrite Hst2. cbn.
  split; [|split; [apply lookup_delete_eq|done]].
  eexists. split; [apply lookup_insert_eq|]. done.
Qed.

Lemma publish_then_done_witness :
  Rtmp.streams rtmp_idle !! Rtmp.extractStreamKey "/live/K1"
  = Some (mkStream "s1" "u1" "Morning show" "K1" false 0 None)
  ∧ let st2 := (Rtmp.donePublish 5000 "c1" "/live/K1" rtmp_published_K1).2 in
    Rtmp.streams st2 !! "K1" = Some published_doc
    ∧ Rtmp.streamSessions st2 !! "K1" = None
    ∧ Rtmp.emitted st2 = []
    ∧ Rtmp.rejected st2 = [].
Proof.
  assert (Hstream : Rtmp.streams rtmp_idle !! Rtmp.extractStreamKey "/live/K1"
                    = Some (mkStream "s1" "u1" "Morning show" "K1" false 0 None))
    by (vm_compute; reflexivity).
  assert (Halice : Rtmp.users rtmp_idle !! "u1" = Some alice) by (vm_compute; reflexivity).
  destruct (publish_then_done example_jwt 1000 5000 "s-new" "c1" "/live/K1"
              (Rtmp.mkArgs (Some "token-u1") None) rtmp_idle "token-u1" "u1" alice _
              eq_refl eq_refl Halice Hstream eq_refl (or_introl eq_refl) eq_refl)
    as (_ & Hst2 & _ & Hsession & Hemitted & Hrejected).
  split; [exact Hstream|].
  split; [|split; [exact Hsession|split; [exact Hemitted|exact Hrejected]]].
  unfold rtmp_published_K1. rewrite Hst2. vm_compute. reflexivity.
Defined.

(** X10.  [endStream] never ends a stream.  For a key without record it
    throws "Stream not found", and for every key that has a record
    "Stream is not live", whatever the record holds and whether or not
    the key has a session: the document that [Stream.findOne] gives has
    no [isLive].  In both cases nothing changes: no record gets an
    [endedAt], no session is removed, nothing is emitted. *)
Theorem endStream_scope (now : Z) (streamKey : string) (st : Rtmp.state) :
  match Rtmp.streams st !! streamKey with
  | None => Rtmp.endStream now streamKey st = (Throw "Stream not found", st)
  | Some stream => Rtmp.endStream now streamKey st = (Throw "Stream is not live", st)
  end
  ∧ (∀ r, (Rtmp.endStream now streamKey st).1 ≠ Ok r)
  ∧ Rtmp.streams (Rtmp.endStream now streamKey st).2 = Rtmp.streams st
  ∧ Rtmp.streamSessions (Rtmp.endStream now streamKey st).2 = Rtmp.streamSessions st
  ∧ Rtmp.emitted (Rtmp.endStream now streamKey st).2 = Rtmp.emitted st.
Proof.
  rewrite endStream_throws. cbn [fst snd].
  split; [destruct (Rtmp.streams st !! streamKey); reflexivity|].
  split; [intros r; discriminate|]. done.
Qed.

(** ** Viewers that come and go *)

Lemma updateViewerCount_with_io (streamKey : string) (delta : Z) (st : Rtmp.state) :
  Rtmp.io st = true →
  Rtmp.updateViewerCount streamKey delta st
  = (Ok (match Rtmp.activeStreams st !! streamKey with
         | Some stream => Z.max 0 (Rtmp.viewers stream + delta)
         | None => 0
         end),
     counted_state streamKey delta st).
Proof.
  intros Hio. unfold Rtmp.updateViewerCount, counted_state, Rtmp.bind, Rtmp.gets,
    Rtmp.modify, Rtmp.ret. cbn.
  destruct (Rtmp.activeStreams st !! streamKey) as [stream|]; [|reflexivity].
  cbn. rewrite Hio. reflexivity.
Qed.

Lemma with_viewers_same (stream : Rtmp.stream_data) :
  with_viewers (Rtmp.viewers stream) stream = stream.
Proof. destruct stream. reflexivity. Qed.




(** X12.  On a server with an io the ['doneConnect'] handler never throws,
    leaves the connection without session, and does nothing when it is
    repeated.  Only a play session has the counter of its stream lowered:
    for a connection without session or with a session that is not a play
    session, the active streams and the emitted events stay as they
    were. *)
Theorem doneConnect_once (id : string) (st : Rtmp.state) :
  Rtmp.io st = true →
  let st' := (Rtmp.doneConnect id st).2 in
  (Rtmp.doneConnect id st).1 = Ok ()
  ∧ Rtmp.streamSessions st' = delete id (Rtmp.streamSessions st)
  ∧ Rtmp.doneConnect id st' = (Ok (), st')
  ∧ ((∀ session, Rtmp.streamSessions st !! id = Some session →
                 Rtmp.sess_type session ≠ Some Rtmp.Play) →
     Rtmp.activeStreams st' = Rtmp.activeStreams st ∧ Rtmp.emitted st' = Rtmp.emitted st).
Proof.
  intros Hio st'.
  assert (Hcases : ∃ st0,
             Rtmp.doneConnect id st = (Ok (), Rtmp.set_streamSessions (delete id) st0)
             ∧ Rtmp.streamSessions st0 = Rtmp.streamSessions st
             ∧ ((∀ session, Rtmp.streamSessions st !! id = Some session →
                            Rtmp.sess_type session ≠ Some Rtmp.Play) → st0 = st)).
  { unfold Rtmp.doneConnect. unfold Rtmp.bind at 1. unfold Rtmp.gets at 1.
    destruct (Rtmp.streamSessions st !! id) as [session|] eqn:Hsession.
    - destruct (Rtmp.sess_type session) as [[]|] eqn:Htype.
      + destruct (Rtmp.as_truthy (Rtmp.sess_streamKey session)) as [streamKey|].
        * unfold Rtmp.bind. rewrite updateViewerCount_with_io by exact Hio.
          exists (counted_state streamKey (-1) st). split; [reflexivity|]. split.
          -- unfold counted_state. destruct (Rtmp.activeStreams st !! streamKey); reflexivity.
          -- intros Hnot. exfalso. eapply Hnot; [reflexivity|exact Htype].
        * exists st. done.
      + exists st. done.
      + exists st. done.
    - exists st. split; [|done]. unfold Rtmp.set_streamSessions.
      rewrite delete_id by exact Hsession. destruct st. reflexivity. }
  destruct Hcases as (st0 & Hdone & Hsessions & Hsame).
  subst st'. rewrite Hdone. cbn [fst snd].
  split; [reflexivity|]. split; [cbn; rewrite Hsessions; reflexivity|]. split.
  - unfold Rtmp.doneConnect, Rtmp.bind, Rtmp.gets. cbn. rewrite lookup_delete_eq. reflexivity.
  - intros Hnot. rewrite (Hsame Hnot). done.
Qed.

Lemma doneConnect_once_witness :
  Rtmp.io rtmp_active_K1 = true
  ∧ let st1 := (Rtmp.authenticatePlay example_jwt 2000 "v1" "/live/K1"
                  (Rtmp.mkArgs (Some "token-u2") None) rtmp_active_K1).2 in
    let st2 := (Rtmp.doneConnect "v1" st1).2 in
    Rtmp.streamSessions st2 = delete "v1" (Rtmp.streamSessions st1)
    ∧ Rtmp.doneConnect "v1" st2 = (Ok (), st2).
Proof.
  split; [reflexivity|].
  destruct (doneConnect_once "v1"
              (Rtmp.authenticatePlay example_jwt 2000 "v1" "/live/K1"
                 (Rtmp.mkArgs (Some "token-u2") None) rtmp_active_K1).2 eq_refl)
    as (_ & Hsessions & Hagain & _).
  split; [exact Hsessions|exact Hagain].
Defined.

(** * Further properties of the socket server *)

(** ** Authentication of a socket *)

(** X13.  [authenticateSocket] either fails with "Authentication failed",
    whatever went wrong (no token, a token that does not verify, a user
    that is not in the collection), and then changes nothing; or it
    succeeds for the user of the token, and then the socket carries that
    user, keeps the rooms it had, is listed among the sockets of the user,
    and the rooms of the table and the other sockets are as before. *)
Theorem authenticateSocket_outcome (jwt_verify : string → result string)
    (User_findById : string → option user) (sid : string) (token : option string)
    (st : Ws.state) :
  let known :=
    ∃ t id u, Rtmp.as_truthy token = Some t ∧ jwt_verify t = Ok id
              ∧ User_findById id = Some u in
  (¬ known ∧ Ws.authenticateSocket jwt_verify User_findById sid token st
             = (st, Throw "Authentication failed"))
  ∨ ∃ t id u st',
      Rtmp.as_truthy token = Some t ∧ jwt_verify t = Ok id ∧ User_findById id = Some u
      ∧ Ws.authenticateSocket jwt_verify User_findById sid token st = (st', Ok u)
      ∧ Ws.sock_user (Ws.the_socket st' sid) = Some u
      ∧ Ws.sock_rooms (Ws.the_socket st' sid) = Ws.sock_rooms (Ws.the_socket st sid)
      ∧ sid ∈ default ∅ (Ws.connectedUsers st' !! user_id u)
      ∧ Ws.roomSubscribers st' = Ws.roomSubscribers st
      ∧ ∀ other, other ≠ sid → Ws.sockets st' !! other = Ws.sockets st !! other.
Proof.
  intros known. unfold Ws.authenticateSocket.
  destruct (Rtmp.as_truthy token) as [t|] eqn:Htoken;
    [|left; split; [intros (? & ? & ? & [=] & _)|reflexivity]].
  destruct (jwt_verify t) as [id|error] eqn:Hjwt;
    [|left; split; [intros (? & ? & ? & [= <-] & ? & _); congruence|reflexivity]].
  destruct (User_findById id) as [u|] eqn:Hu;
    [|left; split; [intros (? & ? & ? & [= <-] & ? & ?); congruence|reflexivity]].
  right. exists t, id, u. eexists. split; [reflexivity|]. split; [exact Hjwt|].
  split; [exact Hu|]. split; [reflexivity|].
  match goal with
  | |- Ws.sock_user (Ws.the_socket ?s _) = _ ∧ _ => set (st' := s)
  end.
  assert (Hsock : Ws.the_socket st' sid
                  = Ws.mkSocket (Some u) (Ws.sock_rooms (Ws.the_socket st sid))).
  { unfold Ws.the_socket at 1. cbn. rewrite lookup_insert_eq. reflexivity. }
  rewrite Hsock. cbn. rewrite lookup_insert_eq. cbn.
  split; [reflexivity|]. split; [reflexivity|]. split; [set_solver|].
  split; [reflexivity|]. intros other Hne. apply lookup_insert_ne. congruence.
Qed.

(** ** The sockets of the users *)

Lemma users_listed_init : users_listed Ws.init.
Proof.
  split.
  - intros userId userSockets H. cbn in H. rewrite lookup_empty in H. discriminate.
  - intros sid sock u H. cbn in H. rewrite lookup_empty in H. discriminate.
Qed.

Lemma the_socket_lookup (st : Ws.state) (sid : string) (u : user) :
  Ws.sock_user (Ws.the_socket st sid) = Some u →
  Ws.sockets st !! sid = Some (Ws.the_socket st sid).
Proof.
  unfold Ws.the_socket. destruct (Ws.sockets st !! sid); [reflexivity|discriminate].
Qed.

Lemma on_disconnect_users_listed (now : Z) (sid : string) (st : Ws.state) :
  users_listed st → users_listed (Ws.on_disconnect now sid st).1.
Proof.
  intros [Hnonempty Hlisted]. unfold Ws.on_disconnect, Ws.handleDisconnect.
  destruct (Ws.sock_user (Ws.the_socket st sid)) as [u|] eqn:Hu.
  - destruct (map_fold _ _ _) as [rooms out]. cbn.
    destruct (Ws.connectedUsers st !! user_id u) as [userSockets|] eqn:Hsockets.
    + destruct (decide (size (userSockets ∖ {[sid]}) = 0%nat)) as [Hsize|Hsize]; split; cbn.
      * intros userId s [_ H]%lookup_delete_Some. eapply Hnonempty, H.
      * intros sid' sock u' [Hne Hsock]%lookup_delete_Some Hu'.
        specialize (Hlisted sid' sock u' Hsock Hu').
        destruct (decide (user_id u = user_id u')) as [Heq|Hother].
        -- rewrite <- Heq in *. rewrite Hsockets in Hlisted. cbn in Hlisted.
           apply size_empty_inv in Hsize. set_solver.
        -- rewrite lookup_delete_ne by done. exact Hlisted.
      * intros userId s [[_ <-]|[_ H]]%lookup_insert_Some.
        -- intros Hempty. apply Hsize. rewrite Hempty. apply size_empty.
        -- eapply Hnonempty, H.
      * intros sid' sock u' [Hne Hsock]%lookup_delete_Some Hu'.
        specialize (Hlisted sid' sock u' Hsock Hu').
        destruct (decide (user_id u = user_id u')) as [Heq|Hother].
        -- rewrite <- Heq in *. rewrite Hsockets in Hlisted. cbn in Hlisted.
           rewrite lookup_insert_eq. cbn. set_solver.
        -- rewrite lookup_insert_ne by done. exact Hlisted.
    + split; cbn; [exact Hnonempty|].
      intros sid' sock u' [Hne Hsock]%lookup_delete_Some Hu'.
      apply (Hlisted sid' sock u' Hsock Hu').
  - split; cbn; [exact Hnonempty|].
    intros sid' sock u' [Hne Hsock]%lookup_delete_Some Hu'.
    apply (Hlisted sid' sock u' Hsock Hu').
Qed.

Lemma step_users_listed (jwt_verify : string → result string)
    (User_findById : string → option user) (Stream_findById : string → option stream_doc)
    (rtmpServer : Rtmp.state) (now : Z) (r : Ws.request) (st : Ws.state) :
  users_listed st →
  users_listed (Ws.step jwt_verify User_findById Stream_findById rtmpServer now r st).1.
Proof.
  intros Hinv.
  destruct r as [sid token|sid streamId|sid streamId|sid streamId message
                |sid streamId reaction|sid]; cbn.
  - unfold Ws.on_authenticate.
    destruct (authenticateSocket_cases jwt_verify User_findById sid token st) as [->|(u & ->)].
    + pose proof (on_disconnect_users_listed now sid st Hinv) as H.
      destruct (Ws.on_disconnect now sid st) as [st'' out]. exact H.
    + cbn. destruct Hinv as [Hnonempty Hlisted]. split; cbn.
      * intros userId s [[_ <-]|[_ H]]%lookup_insert_Some; [set_solver|].
        eapply Hnonempty, H.
      * intros sid' sock u'.
        intros [[<- <-]|[Hne Hsock]]%lookup_insert_Some; cbn.
        -- intros [= <-]. rewrite lookup_insert_eq. cbn. set_solver.
        -- intros Hu'. specialize (Hlisted sid' sock u' Hsock Hu').
           destruct (decide (user_id u = user_id u')) as [Heq|Hother].
           ++ rewrite <- Heq in *. rewrite lookup_insert_eq. cbn. set_solver.
           ++ rewrite lookup_insert_ne by done. exact Hlisted.
  - destruct (handleJoinStream_cases Stream_findById rtmpServer now sid streamId st)
      as [(error & ->)|(out & -> & [u Hu] & _)]; cbn; [exact Hinv|].
    destruct Hinv as [Hnonempty Hlisted]. split; cbn; [exact Hnonempty|].
    intros sid' sock u'.
    intros [[<- <-]|[Hne Hsock]]%lookup_insert_Some; cbn.
    + intros Hu'. apply (Hlisted sid (Ws.the_socket st sid) u'); [|exact Hu'].
      eapply the_socket_lookup, Hu.
    + apply Hlisted, Hsock.
  - destruct Hinv as [Hnonempty Hlisted].
    assert (Hcu : Ws.connectedUsers (Ws.on_leave_stream sid streamId st).1
                  = Ws.connectedUsers st).
    { unfold Ws.on_leave_stream. destruct (Ws.roomSubscribers st !! _); reflexivity. }
    split; rewrite Hcu; [exact Hnonempty|].
    intros sid' sock u'. rewrite on_leave_stream_sockets.
    destruct (decide (sid = sid')) as [<-|Hne].
    + rewrite lookup_alter_eq.
      destruct (Ws.sockets st !! sid) as [old|] eqn:Hold; [|discriminate].
      cbn. intros [= <-]. cbn. apply (Hlisted sid old u' Hold).
    + rewrite lookup_alter_ne by done. apply Hlisted.
  - unfold Ws.handleChatMessage. repeat case_match; exact Hinv.
  - unfold Ws.handleReaction. repeat case_match; exact Hinv.
  - apply on_disconnect_users_listed, Hinv.
Qed.

(** X14.  In every state the socket server gets into, no user of
    [connectedUsers] is left with an empty set of sockets, and every
    connected socket that has authenticated is among the sockets listed
    for its user. *)
Theorem connected_users_listed (st : Ws.state) : reachable st → users_listed st.
Proof.
  induction 1 as [|jwt_verify User_findById Stream_findById rtmpServer now r st _ IH].
  - apply users_listed_init.
  - apply step_users_listed, IH.
Qed.

Lemma connected_users_listed_witness :
  reachable ws_two_viewers
  ∧ "A" ∈ default ∅ (Ws.connectedUsers ws_two_viewers !! "u1")
  ∧ "B" ∈ default ∅ (Ws.connectedUsers ws_two_viewers !! "u2").
Proof.
  assert (Hreach : reachable ws_two_viewers) by apply ws_after_reachable.
  destruct (connected_users_listed ws_two_viewers Hreach) as [_ Hlisted].
  split; [exact Hreach|]. split.
  - refine (Hlisted "A" (Ws.the_socket ws_two_viewers "A") alice _ _);
      vm_compute; reflexivity.
  - refine (Hlisted "B" (Ws.the_socket ws_two_viewers "B") bob _ _);
      vm_compute; reflexivity.
Defined.

(** ** Joining twice, joining and leaving *)






(** X16.  Joining and leaving is a round trip.  In a state the server
    gets into, when a socket that is not a member of the room of a stream
    is let into it and then leaves it, the state is the one before the
    join: the rooms of the table, the rooms of the socket and the sockets
    of the users. *)
Theorem join_then_leave (Stream_findById : string → option stream_doc)
    (rtmpServer : Rtmp.state) (now : Z) (sid streamId : string)
    (st st1 : Ws.state) (out : list Ws.emission) :
  reachable st →
  sid ∉ Ws.members st (Ws.roomName streamId) →
  Ws.handleJoinStream Stream_findById rtmpServer now sid streamId st
  = (st1, out, Ws.Success) →
  (Ws.on_leave_stream sid streamId st1).1 = st.
Proof.
  intros (Hnonempty & Hagree & _)%reachable_invariant Hnotin Hjoin.
  destruct (handleJoinStream_cases Stream_findById rtmpServer now sid streamId st)
    as [(error & Hfail)|(out' & Hok & [u Hu] & _)]; [congruence|].
  rewrite Hok in Hjoin. injection Hjoin as <- _.
  assert (Hsock : Ws.sockets st !! sid = Some (Ws.the_socket st sid))
    by (eapply the_socket_lookup, Hu).
  assert (Hrooms : Ws.roomName streamId ∉ Ws.sock_rooms (Ws.the_socket st sid))
    by (intros H; apply Hnotin, Hagree, H).
  assert (Hback : Ws.leave (Ws.roomName streamId)
                    (Ws.join (Ws.roomName streamId) (Ws.the_socket st sid))
                  = Ws.the_socket st sid).
  { destruct (Ws.the_socket st sid) as [user rooms]. unfold Ws.leave, Ws.join. cbn in *.
    f_equal. set_solver. }
  assert (Hsockets : alter (Ws.leave (Ws.roomName streamId)) sid
                       (<[sid := Ws.join (Ws.roomName streamId) (Ws.the_socket st sid)]>
                          (Ws.sockets st))
                     = Ws.sockets st).
  { rewrite alter_insert_eq, Hback. apply insert_id, Hsock. }
  unfold Ws.on_leave_stream, joined_state. cbn. rewrite lookup_insert_eq. cbn.
  rewrite Hsockets.
  assert (Hminus : ({[sid]} ∪ Ws.members st (Ws.roomName streamId)) ∖ {[sid]}
                   = Ws.members st (Ws.roomName streamId)) by set_solver.
  rewrite Hminus. unfold Ws.members in *.
  destruct (Ws.roomSubscribers st !! Ws.roomName streamId) as [subs|] eqn:Hroom; cbn in *.
  - assert (Hsize : size subs ≠ 0%nat).
    { intros H. apply size_empty_inv in H. apply (Hnonempty _ _ Hroom). set_solver. }
    destruct (decide (size subs = 0%nat)); [contradiction|].
    rewrite insert_insert_eq, insert_id by exact Hroom. destruct st. reflexivity.
  - rewrite size_empty. destruct (decide (0%nat = 0%nat)); [|done].
    rewrite delete_insert_eq, delete_id by exact Hroom. destruct st. reflexivity.
Qed.

Lemma join_then_leave_witness :
  reachable ws_two_viewers
  ∧ ("C" ∉ Ws.members ws_two_viewers (Ws.roomName "s1"))
  ∧ (Ws.on_leave_stream "C" "s1"
       (Ws.handleJoinStream example_Stream_findById rtmp_idle 6 "C" "s1"
          ws_two_viewers).1.1).1 = ws_two_viewers.
Proof.
  assert (Hreach : reachable ws_two_viewers) by apply ws_after_reachable.
  assert (Hnotin : "C" ∉ Ws.members ws_two_viewers (Ws.roomName "s1")).
  { apply (bool_decide_eq_false_1 _). vm_compute. reflexivity. }
  pose (joined := Ws.handleJoinStream example_Stream_findById rtmp_idle 6 "C" "s1"
                    ws_two_viewers).
  assert (Hjoined : joined = (joined.1.1, joined.1.2, Ws.Success))
    by (vm_compute; reflexivity).
  split; [exact Hreach|]. split; [exact Hnotin|].
  exact (join_then_leave example_Stream_findById rtmp_idle 6 "C" "s1" ws_two_viewers
           joined.1.1 joined.1.2 Hreach Hnotin Hjoined).
Defined.

(** ** A socket that goes away *)

(** X17.  In a state the server gets into, the disconnection of a socket
    takes it out of every room of the table and out of the connected
    sockets, and leaves the other sockets where they were: their entries
    and their memberships of every room are unchanged. *)
Theorem disconnect_leaves_all (now : Z) (sid : string) (st : Ws.state) :
  reachable st →
  let st' := (Ws.on_disconnect now sid st).1 in
  (∀ room, sid ∉ Ws.members st' room)
  ∧ Ws.sockets st' !! sid = None
  ∧ (∀ other room, other ≠ sid →
                   (other ∈ Ws.members st' room ↔ other ∈ Ws.members st room))
  ∧ (∀ other, other ≠ sid → Ws.sockets st' !! other = Ws.sockets st !! other).
Proof.
  intros Hinv%reachable_invariant st'. subst st'.
  assert (Hsockets : Ws.sockets (Ws.on_disconnect now sid st).1 = delete sid (Ws.sockets st)).
  { unfold Ws.on_disconnect. rewrite handleDisconnect_sockets. reflexivity. }
  split; [|split; [|split]].
  - intros room. rewrite on_disconnect_members by exact Hinv. set_solver.
  - rewrite Hsockets. apply lookup_delete_eq.
  - intros other room Hne. rewrite on_disconnect_members by exact Hinv. set_solver.
  - intros other Hne. rewrite Hsockets. apply lookup_delete_ne. congruence.
Qed.

Lemma disconnect_leaves_all_witness :
  reachable ws_two_viewers
  ∧ let st' := (Ws.on_disconnect 9 "A" ws_two_viewers).1 in
    ("A" ∉ Ws.members st' (Ws.roomName "s1"))
    ∧ ("B" ∈ Ws.members st' (Ws.roomName "s1")
       ↔ "B" ∈ Ws.members ws_two_viewers (Ws.roomName "s1")).
Proof.
  assert (Hreach : reachable ws_two_viewers) by apply ws_after_reachable.
  destruct (disconnect_leaves_all 9 "A" ws_two_viewers Hreach) as (Hgone & _ & Hothers & _).
  split; [exact Hreach|]. split.
  - apply Hgone.
  - apply Hothers. discriminate.
Defined.

(** A disconnection is a step of the server. *)
Lemma on_disconnect_reachable (now : Z) (sid : string) (st : Ws.state) :
  reachable st → reachable (Ws.on_disconnect now sid st).1.
Proof.
  intros Hreach.
  exact (reachable_step (λ _, Throw "") (λ _, None) (λ _, None) rtmp_idle now
           (Ws.Disconnect sid) st Hreach).
Qed.

(** X18.  As long as every handler runs to its end before the next event
    is handled, the table of the rooms and the rooms of the sockets
    agree: in a state the server gets into in this way, [getViewerCount]
    of a stream is the number of connected sockets that have joined its
    room, a socket is a subscriber of a room exactly when it is connected
    and has joined it, and every subscriber has authenticated.  It takes
    one interleaving to break this: when the ['disconnect'] of a socket
    is handled while a join of that socket, which would be let in, waits
    for [Stream.findById], the join that resumes makes the closed socket
    a subscriber, and [getViewerCount] is then one more than the number
    of connected sockets that have joined. *)
Theorem viewer_count_counts_joined (st : Ws.state) (streamId : string) :
  reachable st →
  let room := Ws.roomName streamId in
  (Ws.getViewerCount st streamId = size (Ws.in_room (Ws.sockets st) room)
   ∧ ∀ sid,
       sid ∈ Ws.members st room ↔
       ∃ sock u, Ws.sockets st !! sid = Some sock ∧ room ∈ Ws.sock_rooms sock
                 ∧ Ws.sock_user sock = Some u)
  ∧ ∀ Stream_findById rtmpServer now now' sid u,
      Ws.sock_user (Ws.the_socket st sid) = Some u →
      let_in Stream_findById sid streamId st = true →
      let st1 := (Ws.on_disconnect now sid st).1 in
      let late := handleJoinStream_closed Stream_findById rtmpServer now' sid streamId u st1 in
      late.2 = Ws.Success
      ∧ Ws.sockets late.1.1 !! sid = None
      ∧ (sid ∈ Ws.members late.1.1 room)
      ∧ Ws.getViewerCount late.1.1 streamId
        = S (size (Ws.in_room (Ws.sockets late.1.1) room)).
Proof.
  intros Hreach room. split.
  - pose proof (in_room_members st room Hreach) as Hmembers.
    apply reachable_invariant in Hreach as (_ & Hagree & Hauth). split.
    + rewrite Hmembers. unfold Ws.getViewerCount, Ws.members. fold room.
      destruct (Ws.roomSubscribers st !! room); cbn; [reflexivity|].
      symmetry. apply size_empty.
    + intros sid. rewrite <- Hmembers, elem_of_in_room. split.
      * intros (sock & Hsock & Hroom).
        destruct (Ws.sock_user sock) as [u|] eqn:Hu; [eauto|].
        specialize (Hauth sid). unfold Ws.the_socket in Hauth. rewrite Hsock in Hauth.
        cbn in Hauth. rewrite (Hauth Hu) in Hroom. set_solver.
      * intros (sock & u & Hsock & Hroom & _). eauto.
  - intros Stream_findById rtmpServer now now' sid u Hu Hin st1 late.
    pose proof (on_disconnect_reachable now sid st Hreach) as Hreach1. fold st1 in Hreach1.
    pose proof (in_room_members st1 room Hreach1) as Hmembers1.
    assert (Hgone : sid ∉ Ws.members st1 room).
    { subst st1. rewrite on_disconnect_members by apply reachable_invariant, Hreach.
      set_solver. }
    assert (Hsockets : Ws.sockets st1 !! sid = None).
    { subst st1. unfold Ws.on_disconnect. rewrite handleDisconnect_sockets. cbn.
      apply lookup_delete_eq. }
    assert (Hlate : late
                    = (Ws.set_roomSubscribers
                         (insert room ({[sid]} ∪ Ws.members st1 room)) st1,
                       late.1.2, Ws.Success)).
    { subst late. unfold handleJoinStream_closed. unfold let_in in Hin. rewrite Hu in Hin.
      destruct (Stream_findById streamId) as [stream|]; [|discriminate].
      apply negb_true_iff in Hin. rewrite Hin. reflexivity. }
    rewrite Hlate. cbn [fst snd].
    split; [reflexivity|]. split; [exact Hsockets|].
    assert (Hroom : Ws.members (Ws.set_roomSubscribers
                                  (insert room ({[sid]} ∪ Ws.members st1 room)) st1) room
                    = {[sid]} ∪ Ws.members st1 room).
    { unfold Ws.members. cbn. rewrite lookup_insert_eq. reflexivity. }
    split; [rewrite Hroom; set_solver|].
    unfold Ws.getViewerCount. fold room. cbn. rewrite lookup_insert_eq.
    change (Ws.sockets (Ws.set_roomSubscribers _ st1)) with (Ws.sockets st1).
    rewrite Hmembers1. rewrite size_union by set_solver. rewrite size_singleton.
    reflexivity.
Qed.

(** carol, on socket ["C"], asks to join the room of ["s1"] and goes
    away before the stream is found: she is counted as the third viewer
    of two. *)
Lemma viewer_count_counts_joined_witness :
  reachable ws_two_viewers
  ∧ Ws.getViewerCount ws_two_viewers "s1"
    = size (Ws.in_room (Ws.sockets ws_two_viewers) (Ws.roomName "s1"))
  ∧ Ws.getViewerCount ws_two_viewers "s1" = 2%nat
  ∧ let st1 := (Ws.on_disconnect 6 "C" ws_two_viewers).1 in
    let late := handleJoinStream_closed example_Stream_findById rtmp_idle 7 "C" "s1" carol
                  st1 in
    Ws.sockets late.1.1 !! "C" = None
    ∧ Ws.getViewerCount late.1.1 "s1"
      = S (size (Ws.in_room (Ws.sockets late.1.1) (Ws.roomName "s1")))
    ∧ Ws.getViewerCount late.1.1 "s1" = 3%nat.
Proof.
  assert (Hreach : reachable ws_two_viewers) by apply ws_after_reachable.
  destruct (viewer_count_counts_joined ws_two_viewers "s1" Hreach) as [[Hcount _] Hlate].
  split; [exact Hreach|]. split; [exact Hcount|]. split; [vm_compute; reflexivity|].
  assert (Hcarol : Ws.sock_user (Ws.the_socket ws_two_viewers "C") = Some carol)
    by (vm_compute; reflexivity).
  assert (Hin : let_in example_Stream_findById "C" "s1" ws_two_viewers = true)
    by (vm_compute; reflexivity).
  destruct (Hlate example_Stream_findById rtmp_idle 6 7 "C" carol Hcarol Hin)
    as (_ & Hsockets & _ & Hghost).
  split; [exact Hsockets|]. split; [exact Hghost|]. vm_compute. reflexivity.
Defined.

(** ** The text of a chat message *)

Lemma trimStart_split (s : Js.jsstring) :
  ∃ pre, s = pre ++ Js.trimStart s ∧ Js.blank pre = true.
Proof.
  induction s as [|c s (pre & Hs & Hpre)]; cbn.
  - exists []. done.
  - destruct (Js.is_white_space c) eqn:Hc.
    + exists (c :: pre). split; [cbn; congruence|].
      unfold Js.blank in *. cbn. rewrite Hc. exact Hpre.
    + exists []. done.
Qed.

Lemma trimStart_head (s : Js.jsstring) (c : N) :
  head (Js.trimStart s) = Some c → Js.is_white_space c = false.
Proof.
  induction s as [|x s IH]; cbn; [discriminate|].
  destruct (Js.is_white_space x) eqn:Hx; [exact IH|].
  cbn. intros [= <-]. exact Hx.
Qed.

Lemma trimStart_id (s : Js.jsstring) :
  (∀ c, head s = Some c → Js.is_white_space c = false) → Js.trimStart s = s.
Proof.
  destruct s as [|c s]; cbn; [reflexivity|].
  intros H. rewrite (H c eq_refl). reflexivity.
Qed.

Lemma trimEnd_split (s : Js.jsstring) :
  ∃ post, s = Js.trimEnd s ++ post ∧ Js.blank post = true.
Proof.
  unfold Js.trimEnd. destruct (trimStart_split (rev s)) as (pre & Hs & Hpre).
  exists (rev pre). split.
  - rewrite <- rev_app_distr, <- Hs, rev_involutive. reflexivity.
  - rewrite blank_rev. exact Hpre.
Qed.

Lemma trimEnd_last (s : Js.jsstring) (c : N) :
  head (rev (Js.trimEnd s)) = Some c → Js.is_white_space c = false.
Proof. unfold Js.trimEnd. rewrite rev_involutive. apply trimStart_head. Qed.

Lemma trimEnd_id (s : Js.jsstring) :
  (∀ c, head (rev s) = Some c → Js.is_white_space c = false) → Js.trimEnd s = s.
Proof.
  intros H. unfold Js.trimEnd. rewrite trimStart_id by exact H. apply rev_involutive.
Qed.

(** What [trim] gives: the text between a blank front and a blank back,
    with no white space at either end. *)
Lemma trim_spec (s : Js.jsstring) :
  (∃ pre post, s = pre ++ Js.trim s ++ post ∧ Js.blank pre = true ∧ Js.blank post = true)
  ∧ (∀ c, head (Js.trim s) = Some c → Js.is_white_space c = false)
  ∧ (∀ c, head (rev (Js.trim s)) = Some c → Js.is_white_space c = false).
Proof.
  unfold Js.trim.
  destruct (trimStart_split s) as (pre & Hs & Hpre).
  destruct (trimEnd_split (Js.trimStart s)) as (post & Ht & Hpost).
  split; [|split].
  - exists pre, post. split; [|done]. rewrite <- Ht. exact Hs.
  - intros c Hc. apply (trimStart_head s c). rewrite Ht.
    destruct (Js.trimEnd (Js.trimStart s)); [discriminate|exact Hc].
  - apply trimEnd_last.
Qed.

Lemma head_rev_last (s : Js.jsstring) : head (rev s) = last s.
Proof. rewrite rev_alt. apply head_reverse. Qed.

(** X19.  The text of a chat message that is delivered is the text that
    was sent without the white space around it: it is not empty, the text
    sent is that text between a front and a back of white space only, it
    neither starts nor ends with white space, and trimming it again
    changes nothing. *)
Theorem delivered_text_is_trimmed (now : Z) (sid streamId : string) (message : Js.jsstring)
    (st : Ws.state) (m : Ws.chat_message) :
  (Ws.handleChatMessage now sid streamId message st).2 = Ws.SuccessMessage m →
  let text := Ws.chat_text m in
  text ≠ []
  ∧ (∃ pre post, message = pre ++ text ++ post
                 ∧ Js.blank pre = true ∧ Js.blank post = true)
  ∧ (∀ c, head text = Some c → Js.is_white_space c = false)
  ∧ (∀ c, last text = Some c → Js.is_white_space c = false)
  ∧ Js.trim text = text.
Proof.
  intros (u & _ & Hblank & _ & ->)%handleChatMessage_success text.
  subst text. cbn [Ws.chat_text stamped].
  destruct (trim_spec message) as (Hsplit & Hhead & Hlast).
  split; [|split; [exact Hsplit|split; [exact Hhead|split]]].
  - intros Hnil. apply trim_nil_iff in Hnil. congruence.
  - intros c Hc. apply Hlast. rewrite head_rev_last. exact Hc.
  - unfold Js.trim at 1. rewrite (trimStart_id (Js.trim message)) by exact Hhead.
    apply trimEnd_id, Hlast.
Qed.

Lemma delivered_text_is_trimmed_witness :
  (Ws.handleChatMessage 9 "A" "s1" (Js.of_string "  hello world ") ws_two_viewers).2
  = Ws.SuccessMessage (stamped 9 alice (Js.of_string "  hello world "))
  ∧ Js.trim (Js.trim (Js.of_string "  hello world ")) = Js.trim (Js.of_string "  hello world ")
  ∧ Js.trim (Js.of_string "  hello world ") ≠ [].
Proof.
  assert (Hsent : (Ws.handleChatMessage 9 "A" "s1" (Js.of_string "  hello world ")
                     ws_two_viewers).2
                  = Ws.SuccessMessage (stamped 9 alice (Js.of_string "  hello world ")))
    by (vm_compute; reflexivity).
  destruct (delivered_text_is_trimmed 9 "A" "s1" (Js.of_string "  hello world ")
              ws_two_viewers _ Hsent) as (Hnonempty & _ & _ & _ & Htrim).
  split; [exact Hsent|]. split; [exact Htrim|exact Hnonempty].
Defined.

(** * Properties of the stream documents *)

Lemma updateViewerCount_doc_fields (count : Z) (d : StreamModel.doc) :
  StreamModel.viewers (StreamModel.updateViewerCount count d) = count
  ∧ StreamModel.peakViewers (StreamModel.updateViewerCount count d)
    = Z.max (StreamModel.peakViewers d) count
  ∧ StreamModel.doc_status (StreamModel.updateViewerCount count d) = StreamModel.doc_status d
  ∧ StreamModel.doc_startedAt (StreamModel.updateViewerCount count d)
    = StreamModel.doc_startedAt d
  ∧ StreamModel.doc_endedAt (StreamModel.updateViewerCount count d)
    = StreamModel.doc_endedAt d.
Proof.
  unfold StreamModel.updateViewerCount, StreamModel.save, StreamModel.preSave. cbn.
  destruct (bool_decide (StreamModel.peakViewers d < count)) eqn:Hpeak; cbn;
    [apply bool_decide_eq_true in Hpeak|apply bool_decide_eq_false in Hpeak];
    destruct (StreamModel.doc_endedAt d), (StreamModel.doc_startedAt d); cbn;
    repeat split; lia.
Qed.

Lemma greatest_le (start : Z) (counts : list Z) :
  start ≤ greatest start counts ∧ ∀ c, c ∈ counts → c ≤ greatest start counts.
Proof.
  unfold greatest. revert start. induction counts as [|x counts IH]; intros start; cbn.
  - split; [lia|]. intros c Hc. apply elem_of_nil in Hc as [].
  - destruct (IH (Z.max start x)) as [Hstart Hall]. split; [lia|].
    intros c [->|Hc]%elem_of_cons; [lia|]. apply Hall, Hc.
Qed.

(** X20.  The peak of a stream document follows its viewers.  After the
    document was given a sequence of counts with [updateViewerCount], its
    [viewers] is the last count given, its [peakViewers] is the greatest
    of the peak it had and the counts given: it never goes down, no count
    given is above it, and when the viewers were not above the peak before
    they are not above it afterwards. *)
Theorem peak_viewers_is_greatest (counts : list Z) (d : StreamModel.doc) :
  let d' := updateViewerCounts_doc counts d in
  StreamModel.viewers d' = default (StreamModel.viewers d) (last counts)
  ∧ StreamModel.peakViewers d' = greatest (StreamModel.peakViewers d) counts
  ∧ StreamModel.peakViewers d ≤ StreamModel.peakViewers d'
  ∧ (∀ c, c ∈ counts → c ≤ StreamModel.peakViewers d')
  ∧ (StreamModel.viewers d ≤ StreamModel.peakViewers d →
     StreamModel.viewers d' ≤ StreamModel.peakViewers d').
Proof.
  cbn zeta.
  assert (Hfields : StreamModel.viewers (updateViewerCounts_doc counts d)
                    = default (StreamModel.viewers d) (last counts)
                    ∧ StreamModel.peakViewers (updateViewerCounts_doc counts d)
                      = greatest (StreamModel.peakViewers d) counts).
  { revert d. induction counts as [|count counts IH]; intros d; cbn; [done|].
    destruct (IH (StreamModel.updateViewerCount count d)) as [Hviewers Hpeak].
    destruct (updateViewerCount_doc_fields count d) as (Hv & Hp & _).
    rewrite Hviewers, Hpeak, Hv, Hp. split; [|reflexivity].
    destruct counts as [|z counts]; [reflexivity|].
    change (last (count :: z :: counts)) with (last (z :: counts)).
    destruct (last (z :: counts)) eqn:Hlast; [reflexivity|].
    apply last_None in Hlast. discriminate. }
  destruct Hfields as [Hviewers Hpeak]. rewrite Hviewers, Hpeak.
  destruct (greatest_le (StreamModel.peakViewers d) counts) as [Hstart Hall].
  split; [reflexivity|]. split; [reflexivity|]. split; [exact Hstart|].
  split; [exact Hall|].
  intros Hbefore. destruct (last counts) as [c|] eqn:Hlast; cbn; [|lia].
  apply Hall. apply last_Some in Hlast as [front ->].
  apply elem_of_app. right. apply list_elem_of_singleton. reflexivity.
Qed.

Example peak_viewers_example :
  let d := updateViewerCounts_doc [3; 7; 2] (StreamModel.new_doc 1000) in
  StreamModel.viewers d = 2 ∧ StreamModel.peakViewers d = 7.
Proof. split; reflexivity. Qed.

Lemma model_endStream_started (now started : Z) (d : StreamModel.doc) :
  StreamModel.doc_startedAt d = Some started →
  StreamModel.endStream now d
  = StreamModel.mkDoc StreamModel.Ended (Some started) (Some now)
      (Some ((now - started) `div` 1000)) (StreamModel.viewers d) (StreamModel.peakViewers d).
Proof.
  intros Hstarted. unfold StreamModel.endStream, StreamModel.save, StreamModel.preSave.
  cbn. rewrite Hstarted. reflexivity.
Qed.

(** X21.  The [endStream] of a stream document has no guard: whatever the
    status of the document, it becomes ['ended'] with [endedAt] the time
    of the call, and the save hook stores as [duration] the whole seconds
    between [startedAt] and that time.  Ending again later moves
    [endedAt] and the duration to the later time.  The viewers and the
    peak are not touched. *)
Theorem model_endStream_duration (now now' started : Z) (d : StreamModel.doc) :
  StreamModel.doc_startedAt d = Some started →
  let d1 := StreamModel.endStream now d in
  let d2 := StreamModel.endStream now' d1 in
  StreamModel.doc_status d1 = StreamModel.Ended
  ∧ StreamModel.doc_endedAt d1 = Some now
  ∧ StreamModel.duration d1 = Some ((now - started) `div` 1000)
  ∧ StreamModel.doc_status d2 = StreamModel.Ended
  ∧ StreamModel.doc_endedAt d2 = Some now'
  ∧ StreamModel.duration d2 = Some ((now' - started) `div` 1000)
  ∧ StreamModel.viewers d2 = StreamModel.viewers d
  ∧ StreamModel.peakViewers d2 = StreamModel.peakViewers d.
Proof.
  intros Hstarted d1 d2. subst d2 d1.
  rewrite (model_endStream_started now started d Hstarted).
  rewrite (model_endStream_started now' started) by reflexivity. cbn.
  repeat split.
Qed.

Lemma model_endStream_duration_witness :
  StreamModel.doc_startedAt (StreamModel.new_doc 1000) = Some 1000
  ∧ StreamModel.duration (StreamModel.endStream 5000 (StreamModel.new_doc 1000)) = Some 4
  ∧ StreamModel.duration
      (StreamModel.endStream 9000 (StreamModel.endStream 5000 (StreamModel.new_doc 1000)))
    = Some 8.
Proof.
  destruct (model_endStream_duration 5000 9000 1000 (StreamModel.new_doc 1000) eq_refl)
    as (_ & _ & Hduration & _ & _ & Hagain & _).
  split; [reflexivity|]. split; [exact Hduration|exact Hagain].
Defined.

(** ** The duration as text *)

Lemma length_append (a b : string) :
  String.length (a +:+ b) = (String.length a + String.length b)%nat.
Proof.
  induction a as [|x a IH]; [reflexivity|]. rewrite append_cons. simpl. rewrite IH.
  reflexivity.
Qed.

Lemma append_inj_r (a1 b1 a2 b2 : string) :
  a1 +:+ b1 = a2 +:+ b2 → String.length b1 = String.length b2 → a1 = a2 ∧ b1 = b2.
Proof.
  revert a2. induction a1 as [|x a1 IH]; intros [|y a2] Heq Hlen.
  - done.
  - apply (f_equal String.length) in Heq. rewrite !length_append in Heq.
    simpl in Heq. lia.
  - apply (f_equal String.length) in Heq. rewrite !length_append in Heq.
    simpl in Heq. lia.
  - rewrite !append_cons in Heq. injection Heq as -> Heq.
    destruct (IH a2 Heq Hlen) as [-> ->]. done.
Qed.

Lemma pretty_N_go_leading (x : N) (s : string) :
  (0 < x)%N →
  ∃ c rest, pretty_N_go x s = String c rest ∧ c ≠ "0"%char
            ∧ (String.length s < String.length (String c rest))%nat.
Proof.
  revert s. induction (N.lt_wf_0 x) as [x _ IH]; intros s Hx.
  rewrite pretty_N_go_step by done.
  destruct (N.eq_0_gt_0_cases (x `div` 10)) as [Hz|Hpos].
  - rewrite Hz, pretty_N_go_0. exists (pretty_N_char (x `mod` 10)), s.
    split; [done|]. split; [|simpl; lia].
    assert (x < 10)%N by (apply N.div_small_iff in Hz; lia).
    rewrite N.mod_small by done.
    assert (x = 1 ∨ x = 2 ∨ x = 3 ∨ x = 4 ∨ x = 5 ∨ x = 6 ∨ x = 7 ∨ x = 8 ∨ x = 9)%N
      as Hcases by lia.
    destruct Hcases as [->|[->|[->|[->|[->|[->|[->|[->| ->]]]]]]]]; discriminate.
  - destruct (IH (x `div` 10)%N (N.div_lt x 10 Hx eq_refl)
                (String (pretty_N_char (x `mod` 10)) s) Hpos)
      as (c & rest & -> & Hc & Hlen).
    exists c, rest. split; [done|]. split; [done|]. simpl in *. lia.
Qed.

Lemma pretty_Z_two_digits (h : Z) :
  10 ≤ h →
  ∃ c rest, pretty h = String c rest ∧ c ≠ "0"%char ∧ (2 ≤ String.length (pretty h))%nat.
Proof.
  intros Hh. destruct h as [|p|p]; try lia.
  change (pretty (Z.pos p)) with (pretty (N.pos p)). unfold pretty, pretty_N.
  destruct (decide (N.pos p = 0%N)); [discriminate|].
  rewrite pretty_N_go_step by lia.
  assert (Hpos : (0 < N.pos p `div` 10)%N) by (apply N.div_str_pos; lia).
  destruct (pretty_N_go_leading (N.pos p `div` 10)%N
              (String (pretty_N_char (N.pos p `mod` 10)) "") Hpos)
    as (c & rest & -> & Hc & Hlen).
  exists c, rest. split; [done|]. split; [done|]. simpl in *. lia.
Qed.

Lemma padStart2_digit (h : Z) :
  0 ≤ h < 10 → StreamModel.padStart2 (pretty h) = String "0"%char (pretty h).
Proof.
  intros Hh.
  assert (h = 0 ∨ h = 1 ∨ h = 2 ∨ h = 3 ∨ h = 4 ∨ h = 5 ∨ h = 6 ∨ h = 7 ∨ h = 8 ∨ h = 9)
    as Hcases by lia.
  destruct Hcases as [->|[->|[->|[->|[->|[->|[->|[->|[->| ->]]]]]]]]]; reflexivity.
Qed.

Lemma padStart2_long (s : string) :
  (2 ≤ String.length s)%nat → StreamModel.padStart2 s = s.
Proof.
  intros Hs. unfold StreamModel.padStart2.
  replace (2 - String.length s)%nat with 0%nat by lia. reflexivity.
Qed.

Lemma padStart2_pretty_inj (h1 h2 : Z) :
  0 ≤ h1 → 0 ≤ h2 →
  StreamModel.padStart2 (pretty h1) = StreamModel.padStart2 (pretty h2) → h1 = h2.
Proof.
  intros H1 H2.
  destruct (decide (h1 < 10)) as [Hs1|Hb1]; destruct (decide (h2 < 10)) as [Hs2|Hb2].
  - rewrite !padStart2_digit by lia. intros [= Heq]. apply (inj pretty), Heq.
  - rewrite padStart2_digit by lia.
    destruct (pretty_Z_two_digits h2 ltac:(lia)) as (c & rest & Hp & Hc & Hlen).
    rewrite padStart2_long by exact Hlen. rewrite Hp. intros [= <- _]. contradiction.
  - rewrite (padStart2_digit h2) by lia.
    destruct (pretty_Z_two_digits h1 ltac:(lia)) as (c & rest & Hp & Hc & Hlen).
    rewrite padStart2_long by exact Hlen. rewrite Hp. intros [= -> _]. contradiction.
  - destruct (pretty_Z_two_digits h1 ltac:(lia)) as (_ & _ & _ & _ & Hlen1).
    destruct (pretty_Z_two_digits h2 ltac:(lia)) as (_ & _ & _ & _ & Hlen2).
    rewrite !padStart2_long by assumption. apply (inj pretty).
Qed.

(** Below sixty, the padded number has two characters. *)
Lemma padStart2_length_sixty (m : Z) :
  0 ≤ m < 60 → String.length (StreamModel.padStart2 (pretty m)) = 2%nat.
Proof.
  intros Hm.
  assert (Hall : forallb (λ i, Nat.eqb (String.length
                                          (StreamModel.padStart2 (pretty (Z.of_nat i)))) 2)
                   (seq 0 60) = true) by (vm_compute; reflexivity).
  rewrite forallb_forall in Hall.
  specialize (Hall (Z.to_nat m)). rewrite Z2Nat.id in Hall by lia.
  apply Nat.eqb_eq, Hall. apply in_seq. lia.
Qed.

Lemma padStart2_length_ge (h : Z) :
  0 ≤ h → (2 ≤ String.length (StreamModel.padStart2 (pretty h)))%nat.
Proof.
  intros Hh. destruct (decide (h < 10)).
  - rewrite padStart2_length_sixty by lia. lia.
  - destruct (pretty_Z_two_digits h ltac:(lia)) as (_ & _ & _ & _ & Hlen).
    rewrite padStart2_long by exact Hlen. exact Hlen.
Qed.

(** The three numbers of a positive duration. *)
Lemma duration_parts (x : Z) :
  0 < x →
  let hours := x `div` 3600 in
  let minutes := (x `rem` 3600) `div` 60 in
  let seconds := x `rem` 60 in
  0 ≤ hours ∧ 0 ≤ minutes < 60 ∧ 0 ≤ seconds < 60
  ∧ x = 3600 * hours + 60 * minutes + seconds.
Proof.
  intros Hx. cbn zeta. rewrite !Z.rem_mod_nonneg by lia.
  pose proof (Z.div_mod x 3600 ltac:(lia)) as Hdiv.
  pose proof (Z.mod_pos_bound x 3600 ltac:(lia)) as Hr.
  pose proof (Z.div_mod (x `mod` 3600) 60 ltac:(lia)) as Hdiv'.
  pose proof (Z.mod_pos_bound (x `mod` 3600) 60 ltac:(lia)) as Hr'.
  assert (Hsec : x `mod` 60 = (x `mod` 3600) `mod` 60).
  { rewrite Hdiv at 1. replace (3600 * (x `div` 3600) + x `mod` 3600)
      with (x `mod` 3600 + (60 * (x `div` 3600)) * 60) by lia.
    apply Z_mod_plus_full. }
  assert (0 ≤ x `div` 3600) by (apply Z.div_pos; lia).
  assert (0 ≤ (x `mod` 3600) `div` 60 < 60).
  { split; [apply Z.div_pos; lia|]. apply Z.div_lt_upper_bound; lia. }
  rewrite Hsec. lia.
Qed.

Lemma durationFormatted_positive (d : StreamModel.doc) (x : Z) :
  StreamModel.duration d = Some x → 0 < x →
  StreamModel.durationFormatted d
  = StreamModel.padStart2 (pretty (x `div` 3600)) +:+ ":"
    +:+ StreamModel.padStart2 (pretty ((x `rem` 3600) `div` 60)) +:+ ":"
    +:+ StreamModel.padStart2 (pretty (x `rem` 60)).
Proof.
  intros Hd Hx. unfold StreamModel.durationFormatted. rewrite Hd.
  destruct x; [lia|reflexivity|lia].
Qed.

(** X22.  [durationFormatted] writes a positive whole duration as hours,
    minutes and seconds, each padded with ['0'] to two characters and
    joined by [':'], eight characters at least, with minutes and seconds
    below sixty that add up with the hours to the duration; two positive
    durations are never written the same; a document without duration or
    with the duration 0 reads ["00:00"], on two fields, which no positive
    duration reads. *)
Theorem durationFormatted_spec (d : StreamModel.doc) :
  match StreamModel.duration d with
  | None => StreamModel.durationFormatted d = "00:00"
  | Some x =>
      (x = 0 → StreamModel.durationFormatted d = "00:00")
      ∧ (0 < x →
         (∃ hours minutes seconds,
            StreamModel.durationFormatted d
            = StreamModel.padStart2 (pretty hours) +:+ ":"
              +:+ StreamModel.padStart2 (pretty minutes) +:+ ":"
              +:+ StreamModel.padStart2 (pretty seconds)
            ∧ 0 ≤ hours ∧ 0 ≤ minutes < 60 ∧ 0 ≤ seconds < 60
            ∧ x = 3600 * hours + 60 * minutes + seconds)
         ∧ (8 ≤ String.length (StreamModel.durationFormatted d))%nat
         ∧ StreamModel.durationFormatted d ≠ "00:00"
         ∧ ∀ d' x', StreamModel.duration d' = Some x' → 0 < x' →
                    StreamModel.durationFormatted d' = StreamModel.durationFormatted d →
                    x' = x)
  end.
Proof.
  destruct (StreamModel.duration d) as [x|] eqn:Hd;
    [|unfold StreamModel.durationFormatted; rewrite Hd; reflexivity].
  split; [intros ->; unfold StreamModel.durationFormatted; rewrite Hd; reflexivity|].
  intros Hx. rewrite (durationFormatted_positive d x Hd Hx).
  destruct (duration_parts x Hx) as (Hh & Hm & Hs & Hsum).
  pose proof (padStart2_length_sixty _ Hm) as Lm.
  pose proof (padStart2_length_sixty _ Hs) as Ls.
  pose proof (padStart2_length_ge _ Hh) as Lh.
  match goal with
  | |- context [ (_ ≤ String.length ?s)%nat ] =>
      assert (Hlen : (8 ≤ String.length s)%nat)
  end.
  { rewrite !length_append, Lm, Ls. simpl. lia. }
  split; [eexists _, _, _; split; [reflexivity|]; done|].
  split; [exact Hlen|]. split.
  - intros Heq. rewrite Heq in Hlen. simpl in Hlen. lia.
  - intros d' x' Hd' Hx'. rewrite (durationFormatted_positive d' x' Hd' Hx').
    destruct (duration_parts x' Hx') as (Hh' & Hm' & Hs' & Hsum').
    pose proof (padStart2_length_sixty _ Hm') as Lm'.
    pose proof (padStart2_length_sixty _ Hs') as Ls'.
    intros Heq.
    apply append_inj_r in Heq as [Hhours Heq];
      [|rewrite !length_append, Lm, Ls, Lm', Ls'; reflexivity].
    rewrite !append_cons in Heq. injection Heq as Heq.
    repeat match type of Heq with
           | context [ "" +:+ ?s ] => change ("" +:+ s) with s in Heq
           end.
    apply append_inj_r in Heq as [Hminutes Heq];
      [|cbn [String.length]; rewrite Ls, Ls'; reflexivity].
    injection Heq as Hseconds.
    apply padStart2_pretty_inj in Hhours, Hminutes, Hseconds; lia.
Qed.

Example durationFormatted_examples :
  StreamModel.durationFormatted (StreamModel.endStream 3726000 (StreamModel.new_doc 1000))
  = "01:02:05"
  ∧ StreamModel.durationFormatted (StreamModel.endStream 1999 (StreamModel.new_doc 1000))
    = "00:00"
  ∧ StreamModel.durationFormatted (StreamModel.new_doc 1000) = "00:00".
Proof. repeat split; vm_compute; reflexivity. Qed.

(** * Stopping the RTMP server *)

(** The calls that [stop] starts all fail, and their failures are logged
    and dropped. *)
Lemma endStream_caught_nothing (now : Z) (streamKey : string) (st : Rtmp.state) :
  endStream_caught now streamKey st = (Ok tt, st).
Proof.
  unfold endStream_caught, Rtmp.try_catch, Rtmp.bind.
  rewrite endStream_throws. reflexivity.
Qed.

Lemma endStreams_nothing (clock : string → Z) (streamKeys : list string) (st : Rtmp.state) :
  endStreams clock streamKeys st = (Ok tt, st).
Proof.
  induction streamKeys as [|streamKey rest IH]; [reflexivity|].
  cbn [endStreams]. unfold Rtmp.bind at 1.
  rewrite endStream_caught_nothing. exact IH.
Qed.

Lemma stop_nothing (clock : string → Z) (st : Rtmp.state) :
  stop clock st = (Ok true, st).
Proof.
  unfold stop. rewrite try_catch_rethrow. unfold Rtmp.bind, Rtmp.gets, Rtmp.ret.
  cbn. rewrite endStreams_nothing. reflexivity.
Qed.

(** X23.  [stop] ends no stream.  It answers [true] and leaves the state
    of the server as it was: every [endStream] it calls, one for each key
    of [streamSessions], throws, and what they throw is logged and
    dropped; so every session stays, that of a key whose record was
    started by a publish too, no record gets an [endedAt], and no
    ['stream-ended'] is emitted. *)
Theorem stop_ends_no_stream (clock : string → Z) (st : Rtmp.state) :
  stop clock st = (Ok true, st)
  ∧ (∀ streamKey, is_Some (Rtmp.streamSessions st !! streamKey) →
                  endStream_caught (clock streamKey) streamKey st = (Ok tt, st)
                  ∧ ∃ error, Rtmp.endStream (clock streamKey) streamKey st
                             = (Throw error, st)).
Proof.
  split; [apply stop_nothing|].
  - intros streamKey _. split.
    + apply endStream_caught_nothing.
    + eexists. apply endStream_throws.
Qed.

(** On the server of the example, [stop] leaves the session of alice's
    publish and the record of ["K1"], started and not ended. *)
Example stop_example :
  stop (λ _, 4000) rtmp_three_sessions = (Ok true, rtmp_three_sessions)
  ∧ dom (Rtmp.streamSessions rtmp_three_sessions) = {[ "K1"; "K2"; "c7" ]}
  ∧ endedAt <$> Rtmp.streams rtmp_three_sessions !! "K1" = Some None.
Proof.
  split; [apply stop_nothing|]. split; [|vm_compute; reflexivity].
  apply (bool_decide_unpack _). vm_compute. exact I.
Qed.

(** * Reading a stream over HTTP and joining its room *)

Lemma example_users_by_id : users_by_id example_User_findById.
Proof.
  intros id u Hfound. unfold example_User_findById, example_users in Hfound.
  cbn in Hfound.
  repeat (apply lookup_insert_Some in Hfound as [[<- <-]|[_ Hfound]]; [reflexivity|]).
  rewrite lookup_empty in Hfound. discriminate.
Qed.

(** X24.  [getStreamById] answers 404 for an id without stream, serves a
    public stream to everyone, also to a request without user, and
    refuses a private stream with 403 to a request without user.  For a
    user and a private stream whose owner is found, the controller serves
    the stream exactly when the user is the owner or an admin, which is
    exactly when [handleJoinStream] lets a socket of that user into the
    room of the stream. *)
Theorem read_and_join_agree (User_findById : string → option user)
    (Stream_findById : string → option stream_doc) (rtmpServer : Rtmp.state) (now : Z)
    (sid streamId : string) (st : Ws.state) :
  (Stream_findById streamId = None →
   ∀ req_user, Controller.getStreamById User_findById Stream_findById req_user streamId
               = Controller.Status 404 "Stream not found")
  ∧ (∀ stream, Stream_findById streamId = Some stream →
       (isPrivate stream = false →
        ∀ req_user, Controller.getStreamById User_findById Stream_findById req_user streamId
                    = Controller.Json stream (User_findById (stream_user stream)))
       ∧ (isPrivate stream = true →
          Controller.getStreamById User_findById Stream_findById None streamId
          = Controller.Status 403 "This is a private stream")
       ∧ (∀ u owner,
            isPrivate stream = true →
            users_by_id User_findById →
            User_findById (stream_user stream) = Some owner →
            Ws.sock_user (Ws.the_socket st sid) = Some u →
            let reply := Controller.getStreamById User_findById Stream_findById
                           (Some (user_id u, user_role u)) streamId in
            (served reply = true
             ↔ stream_user stream = user_id u ∨ user_role u = RoleAdmin)
            ∧ (served reply = true
               ↔ (Ws.handleJoinStream Stream_findById rtmpServer now sid streamId st).2
                 = Ws.Success)
            ∧ (served reply = false →
               reply = Controller.Status 403 "This is a private stream"))).
Proof.
  split.
  { intros Hnone req_user. unfold Controller.getStreamById. rewrite Hnone. reflexivity. }
  intros stream Hstream. split; [|split].
  - intros Hpublic req_user. unfold Controller.getStreamById.
    rewrite Hstream, Hpublic. reflexivity.
  - intros Hprivate. unfold Controller.getStreamById. rewrite Hstream, Hprivate.
    reflexivity.
  - intros u owner Hprivate Hby_id Howner Hu reply.
    pose proof (Hby_id _ _ Howner) as Hid.
    destruct (handleJoinStream_private Stream_findById rtmpServer now sid streamId st u
                stream Hu Hstream Hprivate) as [Hjoin _].
    assert (Hserved : served reply = true
                      ↔ stream_user stream = user_id u ∨ user_role u = RoleAdmin).
    { subst reply. unfold Controller.getStreamById.
      rewrite Hstream, Hprivate, Howner, Hid.
      destruct (decide (user_id u = stream_user stream)) as [Hsame|Hother];
        destruct (decide (user_role u = RoleAdmin)) as [Hadmin|Hplain].
      - rewrite (bool_decide_eq_false_2 (user_id u ≠ _)) by auto. cbn. naive_solver.
      - rewrite (bool_decide_eq_false_2 (user_id u ≠ _)) by auto. cbn. naive_solver.
      - rewrite (bool_decide_eq_false_2 (user_role u ≠ _)) by auto.
        rewrite andb_false_r. cbn. naive_solver.
      - rewrite !bool_decide_eq_true_2 by assumption. cbn. naive_solver. }
    split; [exact Hserved|]. split; [rewrite Hserved, Hjoin; reflexivity|].
    subst reply. unfold Controller.getStreamById.
    rewrite Hstream, Hprivate, Howner.
    destruct (bool_decide (user_id u ≠ user_id owner) && bool_decide (user_role u ≠ RoleAdmin));
      [reflexivity|discriminate].
Qed.

Lemma read_and_join_agree_witness :
  let stream := mkStream "s2" "u1" "Members only" "K1-private" true 1000 None in
  let reply := Controller.getStreamById example_User_findById example_Stream_findById
                 (Some (user_id bob, user_role bob)) "s2" in
  example_Stream_findById "s2" = Some stream
  ∧ example_User_findById (stream_user stream) = Some alice
  ∧ Ws.sock_user (Ws.the_socket ws_two_viewers "B") = Some bob
  ∧ (served reply = true ↔ stream_user stream = user_id bob ∨ user_role bob = RoleAdmin)
  ∧ (served reply = true
     ↔ (Ws.handleJoinStream example_Stream_findById rtmp_idle 2000 "B" "s2"
          ws_two_viewers).2 = Ws.Success)
  ∧ (served reply = false → reply = Controller.Status 403 "This is a private stream").
Proof.
  intros stream reply.
  assert (Hstream : example_Stream_findById "s2" = Some stream) by reflexivity.
  assert (Howner : example_User_findById (stream_user stream) = Some alice) by reflexivity.
  assert (Hu : Ws.sock_user (Ws.the_socket ws_two_viewers "B") = Some bob)
    by (vm_compute; reflexivity).
  split; [exact Hstream|]. split; [exact Howner|]. split; [exact Hu|].
  exact (proj2 (proj2 (proj2 (read_and_join_agree example_User_findById
                                example_Stream_findById rtmp_idle 2000 "B" "s2"
                                ws_two_viewers) stream Hstream))
           bob alice eq_refl example_users_by_id Howner Hu).
Defined.
